(** * SonifyLab: the conversion scheduler and its progress parser

    A shallow embedding of [SonifyLab.py]: the per-file [ConversionProcess]
    (telemetry parser, exit handling, duration probe, the text of a time)
    and the [MainWindow] session (the list of files and its editing, queue,
    active list, counters, stop).

    Conventions of the embedding.
    - A Python [str] is a Rocq [string]; a character is its code point,
      which the model takes below 256.  Paths are those of a POSIX system.
    - A Python [int] is a [Z].  A Python [float] is a [pyfloat]: a
      rational, or an infinity, or a NaN.  [float(s)] gives the double
      nearest to the literal, ties to even, with the gradual underflow of
      the doubles below [2 ^ -1022]; an operation rounds its exact result
      to the nearest number with 53 significant bits, ties to even; a
      magnitude of [DBL_OVER] or more is no finite double.  The operations
      take any rational, not only a double, and a product or quotient below
      [2 ^ -1022] keeps its 53 bits, where the machine drops some: the
      statements about the value of a quotient say that it is not that
      small.
    - [int] and [float] skip the blanks of C's [isspace] and the two blanks
      above 127 that they turn into spaces; [str.strip] removes the
      separators 28 to 31 as well.  [int] reads a literal of any length (no
      limit on the number of digits, as before Python 3.11 or with the
      limit switched off).
    - An exception is a [Raise] in the [res] monad; one that leaves a slot
      ends the run.
    - The widgets of the window (table cells, bars, dialogs, the log pane)
      and the operating system (launching and killing a process) are
      write-only devices: a call to one of them is appended to the [ui]
      log of the window, in program order.  Enabling and disabling widgets
      is left out, so that an event can come in any state.  What
      [add_folder] announces and the rows [remove_files] takes out of the
      table are results of these functions.
    - The table has one row for each file of the list, since every handler
      changes both alike.  The info cell and the bar of a row that is not
      there are [None], and the slots that use them raise
      [AttributeError]; the call that sets a status is recorded whatever
      the row.
    - An environment of [start_conversion] is one in which [check_ffmpeg]
      returns, with [True] or [False]: running [ffmpeg] either works or
      fails with [FileNotFoundError].
    - The encoder and the probe are the environment: what they print and
      how they exit comes in with the events, the lines already decoded. *)

From Stdlib Require Import ZArith QArith Qabs Qround Qpower Qreduction.
From Stdlib Require Import List String Ascii Bool.
From Stdlib Require Import Lia Lqa.
From Stdlib Require Decimal DecimalString.
Import ListNotations.

Set Implicit Arguments.

(** ** The Python built-ins the program calls *)
Module Py.

Inductive exn : Set :=
| ValueError
| OverflowError
| ZeroDivisionError
| IndexError
| OSError
| AttributeError.

Inductive res (A : Type) : Type :=
| Ok (a : A)
| Raise (e : exn).
Arguments Ok {A} a.
Arguments Raise {A} e.

Definition bind {A B : Type} (c : res A) (k : A -> res B) : res B :=
  match c with
  | Ok a => k a
  | Raise e => Raise e
  end.

(** [try: body except ValueError: handler] *)
Definition except_ValueError {A : Type} (body handler : res A) : res A :=
  match body with
  | Raise ValueError => handler
  | r => r
  end.

(** [try: body except Exception: handler] *)
Definition except_Exception {A : Type} (body handler : res A) : res A :=
  match body with
  | Raise _ => handler
  | r => r
  end.

(** *** Strings *)

Definition startswith (s p : string) : bool := String.prefix p s.

(** [c in s] *)
Fixpoint contains (c : ascii) (s : string) : bool :=
  match s with
  | EmptyString => false
  | String a s' => if Ascii.eqb a c then true else contains c s'
  end.

(** [s.split(sep)] for a one-character separator: never empty. *)
Fixpoint split (sep : ascii) (s : string) : list string :=
  match s with
  | EmptyString => [EmptyString]
  | String a s' =>
      if Ascii.eqb a sep then EmptyString :: split sep s'
      else match split sep s' with
           | hd :: tl => String a hd :: tl
           | [] => [String a EmptyString]
           end
  end.

(** [s.endswith(c)] for one character *)
Fixpoint ends_with_char (c : ascii) (s : string) : bool :=
  match s with
  | EmptyString => false
  | String a EmptyString => Ascii.eqb a c
  | String _ s' => ends_with_char c s'
  end.

(** *** POSIX paths *)

(** [os.path.basename]: what follows the last slash. *)
Fixpoint basename (p : string) : string :=
  match p with
  | EmptyString => EmptyString
  | String a p' =>
      if contains "/" p' then basename p'
      else if Ascii.eqb a "/" then p' else p
  end.

(** [os.path.splitext(name)[0]] for a name without slash: the name up to
    its last dot, if a character other than a dot comes before that dot;
    [seen] tells that such a character has been passed. *)
Fixpoint drop_ext (seen : bool) (name : string) : string :=
  match name with
  | EmptyString => EmptyString
  | String a name' =>
      if Ascii.eqb a "."
      then if seen && negb (contains "." name') then EmptyString
           else String a (drop_ext seen name')
      else String a (drop_ext true name')
  end.

(** [os.path.join(folder, name)] *)
Definition path_join (folder name : string) : string :=
  if startswith name "/" then name
  else if String.eqb folder "" || ends_with_char "/" folder
  then folder ++ name
  else folder ++ "/" ++ name.

(** [str.isspace] on one character (code points below 256). *)
Definition is_space (c : ascii) : bool :=
  let n := nat_of_ascii c in
  ((9 <=? n) && (n <=? 13) || (28 <=? n) && (n <=? 32)
   || (n =? 133) || (n =? 160))%nat.

Fixpoint lstrip (s : string) : string :=
  match s with
  | EmptyString => EmptyString
  | String a s' => if is_space a then lstrip s' else s
  end.

Fixpoint rstrip (s : string) : string :=
  match s with
  | EmptyString => EmptyString
  | String a s' =>
      match rstrip s' with
      | EmptyString => if is_space a then EmptyString
                       else String a EmptyString
      | r => String a r
      end
  end.

Definition strip (s : string) : string := rstrip (lstrip s).

(** The blanks that [int] and [float] skip around a literal: those of C's
    [isspace], and the two blanks above 127 of this range, which the
    conversion turns into spaces first.  The separators 28 to 31, which
    [str.strip] removes, are no blanks here. *)
Definition num_space (c : ascii) : bool :=
  let n := nat_of_ascii c in
  ((9 <=? n) && (n <=? 13) || (n =? 32) || (n =? 133) || (n =? 160))%nat.

Fixpoint lstrip_num (s : string) : string :=
  match s with
  | EmptyString => EmptyString
  | String a s' => if num_space a then lstrip_num s' else s
  end.

Fixpoint rstrip_num (s : string) : string :=
  match s with
  | EmptyString => EmptyString
  | String a s' =>
      match rstrip_num s' with
      | EmptyString => if num_space a then EmptyString
                       else String a EmptyString
      | r => String a r
      end
  end.

Definition strip_num (s : string) : string := rstrip_num (lstrip_num s).

Definition digit_value (c : ascii) : option Z :=
  let n := Z.of_nat (nat_of_ascii c) in
  if ((48 <=? n) && (n <=? 57))%Z then Some (n - 48)%Z else None.

Definition is_digit (c : ascii) : bool :=
  match digit_value c with Some _ => true | None => false end.

(** *** [int(s)], base ten

    [ws] [sign] digit (["_"] digit)* [ws] *)

Fixpoint int_digits (acc : Z) (after_underscore : bool) (s : string)
  : option Z :=
  match s with
  | EmptyString => if after_underscore then None else Some acc
  | String a s' =>
      match digit_value a with
      | Some d => int_digits (acc * 10 + d) false s'
      | None =>
          if Ascii.eqb a "_"
          then if after_underscore then None else int_digits acc true s'
          else None
      end
  end.

Definition int_literal (s : string) : option Z :=
  match s with
  | EmptyString => None
  | String a s' =>
      match digit_value a with
      | Some d => int_digits d false s'
      | None => None
      end
  end.

Definition int_of_str (s : string) : res Z :=
  let signed :=
    match strip_num s with
    | String "+" r => int_literal r
    | String "-" r => option_map Z.opp (int_literal r)
    | r => int_literal r
    end in
  match signed with
  | Some z => Ok z
  | None => Raise ValueError
  end.

(** *** Floats *)

Inductive pyfloat : Type :=
| Fin (q : Q)
| Inf (negative : bool)
| NaN.

(** The least magnitude that rounds to no finite double, and the largest
    finite double. *)
Definition DBL_OVER : Z := 2 ^ 1024 - 2 ^ 970.
Definition DBL_MAX : Z := 2 ^ 1024 - 2 ^ 971.

Definition Qneg (q : Q) : bool := negb (Qle_bool 0 q).
Definition Qzero (q : Q) : bool := Qeq_bool q 0.

(** The integer nearest to [x], the even one of two that are as near. *)
Definition rint (x : Q) : Z :=
  let f := Qfloor x in
  match Qcompare (x - inject_Z f) (1 # 2) with
  | Lt => f
  | Gt => (f + 1)%Z
  | Eq => if Z.even f then f else (f + 1)%Z
  end.

(** The [e] with [2 ^ e <= q < 2 ^ (e + 1)], for a positive [q]. *)
Definition binade (q : Q) : Z :=
  let e := (Z.log2 (Qnum q) - Z.log2 (Zpos (Qden q)))%Z in
  if Qle_bool (2 ^ e) q then e else (e - 1)%Z.

(** The number with 53 significant bits nearest to [q], ties to the even
    significand. *)
Definition nearest (q : Q) : Q :=
  if Qzero q then 0
  else
    let a := Qabs q in
    let s := (binade a - 52)%Z in
    let r := inject_Z (rint (a / 2 ^ s)) * 2 ^ s in
    Qred (if Qneg q then - r else r).

(** The float of an exact result of the arithmetic: an infinity from
    [DBL_OVER] on, else the nearest number with 53 significant bits.  (A sum
    or difference of two doubles below [2 ^ -1022] is itself a double; a
    product or quotient that small is a double only after the loss of its
    last bits, which is not done here.) *)
Definition round_float (q : Q) : pyfloat :=
  if Qle_bool (inject_Z DBL_OVER) q then Inf false
  else if Qle_bool q (inject_Z (- DBL_OVER)) then Inf true
  else Fin (nearest q).

(** The double nearest to [q]: below [2 ^ -1022] in magnitude the doubles are
    the multiples of [2 ^ -1074]. *)
Definition nearest_double (q : Q) : Q :=
  if Qle_bool (2 ^ (-1022)) (Qabs q) then nearest q
  else Qred (inject_Z (rint (q * 2 ^ 1074)) / 2 ^ 1074).

(** The float of a decimal literal: an infinity from [DBL_OVER] on, else the
    nearest double, which is zero from [2 ^ -1075] down. *)
Definition round_literal (q : Q) : pyfloat :=
  if Qle_bool (inject_Z DBL_OVER) q then Inf false
  else if Qle_bool q (inject_Z (- DBL_OVER)) then Inf true
  else Fin (nearest_double q).

Definition fneg (a : pyfloat) : pyfloat :=
  match a with
  | Fin q => Fin (- q)
  | Inf s => Inf (negb s)
  | NaN => NaN
  end.

Definition fadd (a b : pyfloat) : pyfloat :=
  match a, b with
  | NaN, _ | _, NaN => NaN
  | Inf s, Inf s' => if Bool.eqb s s' then Inf s else NaN
  | Inf s, Fin _ | Fin _, Inf s => Inf s
  | Fin x, Fin y => round_float (x + y)
  end.

Definition fsub (a b : pyfloat) : pyfloat := fadd a (fneg b).

Definition fmul (a b : pyfloat) : pyfloat :=
  match a, b with
  | NaN, _ | _, NaN => NaN
  | Inf s, Inf s' => Inf (xorb s s')
  | Inf s, Fin y | Fin y, Inf s =>
      if Qzero y then NaN else Inf (xorb s (Qneg y))
  | Fin x, Fin y => round_float (x * y)
  end.

(** Float division: a zero divisor raises. *)
Definition fdiv (a b : pyfloat) : res pyfloat :=
  match b with
  | Fin y =>
      if Qzero y then Raise ZeroDivisionError
      else match a with
           | Fin x => Ok (round_float (x / y))
           | Inf s => Ok (Inf (xorb s (Qneg y)))
           | NaN => Ok NaN
           end
  | Inf _ =>
      match a with
      | Fin _ => Ok (Fin 0)
      | _ => Ok NaN
      end
  | NaN => Ok NaN
  end.

(** [float(n)] for an int, as the arithmetic does it implicitly. *)
Definition float_of_int (z : Z) : res pyfloat :=
  if (DBL_OVER <=? Z.abs z)%Z then Raise OverflowError
  else Ok (Fin (nearest (inject_Z z))).

(** *** [float(s)]

    [ws] [sign] (inf | infinity | nan | mantissa [exponent]) [ws],
    underscores allowed between two digits only. *)

Fixpoint underscores_ok (prev : ascii) (s : string) : bool :=
  match s with
  | EmptyString => negb (Ascii.eqb prev "_")
  | String a s' =>
      (if Ascii.eqb a "_" then is_digit prev
       else if Ascii.eqb prev "_" then is_digit a else true)
      && underscores_ok a s'
  end.

Fixpoint remove_underscores (s : string) : string :=
  match s with
  | EmptyString => EmptyString
  | String a s' =>
      if Ascii.eqb a "_" then remove_underscores s'
      else String a (remove_underscores s')
  end.

Definition lower (c : ascii) : ascii :=
  let n := nat_of_ascii c in
  if ((65 <=? n) && (n <=? 90))%nat then ascii_of_nat (n + 32) else c.

Fixpoint lower_str (s : string) : string :=
  match s with
  | EmptyString => EmptyString
  | String a s' => String (lower a) (lower_str s')
  end.

(** Leading digits of [s]: their value on top of [acc], how many, the rest. *)
Fixpoint span_digits (acc : Z) (n : nat) (s : string) : Z * nat * string :=
  match s with
  | EmptyString => (acc, n, s)
  | String a s' =>
      match digit_value a with
      | Some d => span_digits (acc * 10 + d) (Datatypes.S n) s'
      | None => (acc, n, s)
      end
  end.

Definition take_sign (s : string) : bool * string :=
  match s with
  | String "-" r => (true, r)
  | String "+" r => (false, r)
  | _ => (false, s)
  end.

(** [m * 10 ^ e] *)
Definition scale10 (m e : Z) : Q :=
  if (0 <=? e)%Z then inject_Z (m * 10 ^ e)
  else Qmake m (Z.to_pos (10 ^ (- e))).

Definition float_value (negative : bool) (m e : Z) : pyfloat :=
  round_literal (scale10 (if negative then - m else m) e).

Definition float_literal (s : string) : option pyfloat :=
  let '(negative, s1) := take_sign s in
  let w := lower_str s1 in
  if (String.eqb w "inf" || String.eqb w "infinity")%bool
  then Some (Inf negative)
  else if String.eqb w "nan" then Some NaN
  else
    let '(ip, ni, r1) := span_digits 0 0 s1 in
    let '(m, nf, r2) :=
      match r1 with
      | String "." r => span_digits ip 0 r
      | _ => (ip, 0%nat, r1)
      end in
    if (ni + nf =? 0)%nat then None
    else
      match r2 with
      | EmptyString => Some (float_value negative m (- Z.of_nat nf))
      | String c r3 =>
          if (Ascii.eqb c "e" || Ascii.eqb c "E")%bool
          then
            let '(eneg, r4) := take_sign r3 in
            let '(ev, ne, r5) := span_digits 0 0 r4 in
            match ne, r5 with
            | Datatypes.S _, EmptyString =>
                Some (float_value negative m
                        ((if eneg then - ev else ev) - Z.of_nat nf))
            | _, _ => None
            end
          else None
      end.

Definition float_of_str (s : string) : res pyfloat :=
  let t := strip_num s in
  if underscores_ok "000" t
  then match float_literal (remove_underscores t) with
       | Some f => Ok f
       | None => Raise ValueError
       end
  else Raise ValueError.

(** *** Numbers: an int or a float *)

Inductive pynum : Type :=
| PInt (z : Z)
| PFloat (f : pyfloat).

Definition to_float (x : pynum) : res pyfloat :=
  match x with
  | PInt z => float_of_int z
  | PFloat f => Ok f
  end.

Definition lift2 (op : pyfloat -> pyfloat -> res pyfloat) (x y : pynum)
  : res pynum :=
  bind (to_float x) (fun a =>
  bind (to_float y) (fun b =>
  bind (op a b) (fun c => Ok (PFloat c)))).

(** [x + y] *)
Definition add (x y : pynum) : res pynum :=
  match x, y with
  | PInt a, PInt b => Ok (PInt (a + b))
  | _, _ => lift2 (fun a b => Ok (fadd a b)) x y
  end.

(** [x - y] *)
Definition sub (x y : pynum) : res pynum :=
  match x, y with
  | PInt a, PInt b => Ok (PInt (a - b))
  | _, _ => lift2 (fun a b => Ok (fsub a b)) x y
  end.

(** [x * y] *)
Definition mul (x y : pynum) : res pynum :=
  match x, y with
  | PInt a, PInt b => Ok (PInt (a * b))
  | _, _ => lift2 (fun a b => Ok (fmul a b)) x y
  end.

(** [x / y], true division: always a float. *)
Definition truediv (x y : pynum) : res pynum :=
  match x, y with
  | PInt a, PInt b =>
      if (b =? 0)%Z then Raise ZeroDivisionError
      else match round_float (inject_Z a / inject_Z b) with
           | Fin q => Ok (PFloat (Fin q))
           | _ => Raise OverflowError
           end
  | _, _ => lift2 fdiv x y
  end.

(** [x > 0] *)
Definition gt_zero (x : pynum) : bool :=
  match x with
  | PInt z => (0 <? z)%Z
  | PFloat (Fin q) => negb (Qle_bool q 0)
  | PFloat (Inf negative) => negb negative
  | PFloat NaN => false
  end.

(** Truncation toward zero. *)
Definition Qtrunc (q : Q) : Z := Z.quot (Qnum q) (Zpos (Qden q)).

(** [int(x)] for a number. *)
Definition int_of_num (x : pynum) : res Z :=
  match x with
  | PInt z => Ok z
  | PFloat (Fin q) => Ok (Qtrunc q)
  | PFloat (Inf _) => Raise OverflowError
  | PFloat NaN => Raise ValueError
  end.

(** [timedelta(seconds=n)]: the day count is bounded. *)
Definition timedelta (seconds : Z) : res Z :=
  if (Z.abs (seconds / 86400) <=? 999999999)%Z then Ok seconds
  else Raise OverflowError.

End Py.

Declare Scope res_scope.
Delimit Scope res_scope with res.
Notation "'let*' x ':=' c 'in' k" := (Py.bind c (fun x => k))
  (at level 10, x name, c at level 100, k at level 200) : res_scope.

(** ** [class ConversionProcess(QObject)] *)
Module ConversionProcess.
Import Py.
Local Open Scope string_scope.
Local Open Scope res_scope.

(** [QProcess.ProcessChannelMode].  With [MergedChannels] the child's
    standard error is delivered on the standard output channel and the
    standard error channel of the [QProcess] receives no data. *)
Inductive ProcessChannelMode : Set :=
| SeparateChannels
| MergedChannels.

(** [QProcess.readAllStandardError()], given what the child wrote on its
    standard error. *)
Definition readAllStandardError (mode : ProcessChannelMode)
  (stderr_written : string) : string :=
  match mode with
  | SeparateChannels => stderr_written
  | MergedChannels => EmptyString
  end.

(** The text of an info event.  The f-string of [parse_progress] is kept
    as its two operands: the speed it prints with two decimals and the
    number of seconds it prints through [timedelta]. *)
Inductive info_text : Type :=
| speed_and_remaining (speed : pynum) (remaining_seconds : Z)
| text (s : string).

(** The five [pyqtSignal]s of the class. *)
Inductive signal : Type :=
| progress_update (index : nat) (progress : pyfloat)
| status_update (index : nat) (status : string)
| error_occurred (index : nat) (error_message : string)
| info_update (index : nat) (info : info_text)
| finished (index : nat) (return_code : Z).

(** What a method does to the outside: emit a signal, or launch the
    encoder through [QProcess.start]. *)
Inductive action : Type :=
| emit (s : signal)
| os_start (index : nat) (program : string) (command : list string).

(** A method body: the actions done so far, and how it ended. *)
Definition M (A : Type) : Type := (list action * res A)%type.

Definition ret {A : Type} (a : A) : M A := ([], Ok a).

Definition lift {A : Type} (r : res A) : M A := ([], r).

Definition do (a : action) : M unit := ([a], Ok tt).

Definition bindM {A B : Type} (c : M A) (k : A -> M B) : M B :=
  match c with
  | (done, Ok a) => let '(more, r) := k a in ((done ++ more)%list, r)
  | (done, Raise e) => (done, Raise e)
  end.

Notation "x <- c ;; k" := (bindM c (fun x => k))
  (at level 61, c at next level, right associativity).
Notation "c ;; k" := (bindM c (fun _ => k))
  (at level 61, right associativity).

Record t : Type := mk {
  index : nat;
  input_file : string;
  output_file : string;
  bitrate : string;
  format : string;
  channel_mode : ProcessChannelMode;
  running : bool;           (* process.state() != QProcess.NotRunning *)
  duration : pynum
}.

(** [get_duration]: [ffprobe] is [subprocess.run] on the probe command,
    giving the captured standard output or raising. *)
Definition get_duration (ffprobe : string -> res string)
  (input_file : string) : res pynum :=
  except_Exception
    (let* stdout := ffprobe input_file in
     let* duration := float_of_str (strip stdout) in
     Ok (PFloat duration))
    (Ok (PInt 0)).

Definition __init__ (ffprobe : string -> res string)
  (index : nat) (input_file output_file bitrate format : string) : res t :=
  let* duration := get_duration ffprobe input_file in
  Ok (mk index input_file output_file bitrate format
         MergedChannels false duration).

(** The process object once its [QProcess] has been started. *)
Definition started (self : t) : t :=
  mk (index self) (input_file self) (output_file self) (bitrate self)
     (format self) (channel_mode self) true (duration self).

Definition command (self : t) : list string :=
  ["-i"; input_file self; "-b:a"; bitrate self;
   "-progress"; "pipe:1"; "-y"; output_file self].

(** [start]: the launch, then the status event.  The wall clock read into
    [start_time] comes back as the [elapsed_time] of [parse_progress]. *)
Definition start (self : t) : M t :=
  do (os_start (index self) "ffmpeg" (command self)) ;;
  do (emit (status_update (index self) "En proceso")) ;;
  ret (started self).

Definition ffmpeg_time_to_seconds (time_str : string) : res pynum :=
  except_ValueError
    (let* hms_ms :=
       (if contains "." time_str
        then match split "." time_str with
             | [hms; ms] =>
                 let* ms := float_of_str ("0." ++ ms) in
                 Ok (hms, PFloat ms)
             | _ => Raise ValueError
             end
        else Ok (time_str, PInt 0)) in
     let '(hms, ms) := hms_ms in
     match split ":" hms with
     | [h; m; s] =>
         let* h := int_of_str h in
         let* m := int_of_str m in
         let* s := int_of_str s in
         add (PInt (h * 3600 + m * 60 + s)) ms
     | _ => Raise ValueError
     end)
    (Ok (PInt 0)).

(** [format_time], up to the rendering of the [timedelta]. *)
Definition format_time (seconds : pynum) : res Z :=
  let* n := int_of_num seconds in
  timedelta n.

(** [line.split('=')[1]] *)
Definition after_equals (line : string) : res string :=
  match nth_error (split "=" line) 1 with
  | Some s => Ok s
  | None => Raise IndexError
  end.

(** [parse_progress]; [elapsed_time] is
    [(datetime.now() - self.start_time).total_seconds()]. *)
Definition parse_progress (self : t) (elapsed_time : Q) (line : string)
  : M unit :=
  if startswith line "out_time=" then
    out_time_str <- lift (after_equals line) ;;
    out_time <- lift (ffmpeg_time_to_seconds out_time_str) ;;
    if gt_zero (duration self) then
      ratio <- lift (truediv out_time (duration self)) ;;
      progress <- lift (mul ratio (PInt 100)) ;;
      progress <- lift (to_float progress) ;;
      do (emit (progress_update (index self) progress)) ;;
      let elapsed_time := PFloat (Fin elapsed_time) in
      speed <- lift (if gt_zero elapsed_time
                     then truediv out_time elapsed_time
                     else Ok (PInt 0)) ;;
      remaining_time <-
        lift (if gt_zero speed
              then let* left := sub (duration self) out_time in
                   truediv left speed
              else Ok (PInt 0)) ;;
      remaining <- lift (format_time remaining_time) ;;
      do (emit (info_update (index self)
                  (speed_and_remaining speed remaining)))
    else ret tt
  else if startswith line "progress=" then
    status <- lift (after_equals line) ;;
    if String.eqb status "end" then
      do (emit (progress_update (index self) (Fin 100))) ;;
      do (emit (info_update (index self) (text "Conversión completada")))
    else ret tt
  else ret tt.

(** [read_output]: each line the process can deliver, decoded, with the
    clock reading taken while it is parsed. *)
Fixpoint read_output (self : t) (lines : list (Q * string)) : M unit :=
  match lines with
  | [] => ret tt
  | (now, line) :: rest =>
      parse_progress self now (strip line) ;;
      read_output self rest
  end.

(** [process_finished], the slot of [QProcess.finished]: [return_code] is
    [self.process.exitCode()]. *)
Definition process_finished (self : t) (return_code : Z)
  (stderr_written : string) : M unit :=
  (if (return_code =? 0)%Z then
     do (emit (status_update (index self) "Completado")) ;;
     do (emit (progress_update (index self) (Fin 100)))
   else
     do (emit (status_update (index self) "Error")) ;;
     let error_message :=
       readAllStandardError (channel_mode self) stderr_written in
     do (emit (error_occurred (index self) error_message))) ;;
  do (emit (finished (index self) return_code)).

(** *** The text of [format_time] *)

(** ["%d" % z] *)
Definition str_of_int (z : Z) : string :=
  DecimalString.NilZero.string_of_int (Z.to_int z).

(** ["%02d" % z] *)
Definition pad2 (z : Z) : string :=
  let s := str_of_int z in
  if (String.length s <? 2)%nat then "0" ++ s else s.

(** [str(timedelta(seconds=n))]: the seconds are brought into one day, the
    days are named when there are any. *)
Definition timedelta_str (seconds : Z) : string :=
  let days := (seconds / 86400)%Z in
  let secs := (seconds mod 86400)%Z in
  let mm := (secs / 60)%Z in
  let ss := (secs mod 60)%Z in
  let hh := (mm / 60)%Z in
  let mm := (mm mod 60)%Z in
  let s := str_of_int hh ++ ":" ++ pad2 mm ++ ":" ++ pad2 ss in
  if (days =? 0)%Z then s
  else str_of_int days ++ " day"
       ++ (if (Z.abs days =? 1)%Z then "" else "s") ++ ", " ++ s.

(** [format_time] with its text. *)
Definition format_time_str (seconds : pynum) : res string :=
  let* n := format_time seconds in
  Ok (timedelta_str n).

End ConversionProcess.

(** ** [class MainWindow(QMainWindow)] *)
Module MainWindow.
Import Py.
Module CP := ConversionProcess.
Local Open Scope string_scope.
Local Open Scope res_scope.

(** The texts of the message boxes. *)
Inductive message : Type :=
| already_converting        (* "La conversión ya está en curso." *)
| no_input_files            (* "No has seleccionado archivos de entrada." *)
| no_output_folder          (* "No has seleccionado una carpeta de salida." *)
| output_folder_missing     (* "La carpeta de salida no existe." *)
| ffmpeg_missing            (* "ffmpeg no está instalado ..." *)
| some_files_failed (failed_files : list string)
                            (* "Algunos archivos no se pudieron convertir" *)
| all_converted             (* "Conversión completada exitosamente." *)
| stopped_by_user.          (* "Conversión detenida por el usuario." *)

(** The calls on widgets and on the operating system, as they are made. *)
Inductive ui_call : Type :=
| table_row (file_path : string)                  (* add_file_to_table *)
| table_cleared                                   (* setRowCount(0) *)
| table_status (index : nat) (status : string)    (* item(index, 1).setText *)
| table_info (index : nat) (info : CP.info_text)  (* item(index, 3).setText *)
| bar_value (index : nat) (progress : pyfloat)
                               (* cellWidget(index, 2).setValue(int(progress)) *)
| overall_value (completed total : Z)
                               (* overall_progress_bar.setValue(int(c / t * 100)) *)
| overall_reset                                   (* overall bar to 0, log cleared *)
| log_append (line : string)                      (* log_text_edit.append *)
| conversion_logged                               (* log_conversion *)
| message_box (m : message)
| launched (index : nat) (program : string) (command : list string)
| killed (index : nat).                           (* process.process.kill() *)

(** The output file of an input file (lines 424-428):
    [os.path.join(folder, splitext(basename(input_file))[0] + "." + format)] *)
Definition output_file_path (folder input_file format : string) : string :=
  path_join folder (drop_ext false (basename input_file) ++ "." ++ format).

(** What [start_conversion] reads from the widgets and the file system. *)
Record env : Type := mk_env {
  output_text : string;                 (* output_line_edit.text() *)
  path_exists : string -> bool;         (* os.path.exists *)
  ffmpeg_found : bool;                  (* what check_ffmpeg returns *)
  overwrite_checked : bool;             (* overwrite_checkbox.isChecked() *)
  bitrate_text : string;                (* bitrate_combo.currentText() *)
  format_text : string;                 (* format_combo.currentText() *)
  ffprobe : string -> res string;       (* the probe of get_duration *)
  output_path : string -> string -> string -> string
    (* os.path.join(folder, splitext(basename(input))[0] + "." + format) *)
}.

Record t : Type := mk {
  files : list string;
  output_folder : string;
  is_converting : bool;
  active_processes : list CP.t;
  conversion_queue : list CP.t;
  max_concurrent_processes : Z;
  total_files : Z;
  completed_files : Z;
  failed_files : list string;
  ui : list ui_call
}.

Definition set_files (x : list string) (w : t) : t :=
  mk x (output_folder w) (is_converting w) (active_processes w)
     (conversion_queue w) (max_concurrent_processes w) (total_files w)
     (completed_files w) (failed_files w) (ui w).

Definition set_output_folder (x : string) (w : t) : t :=
  mk (files w) x (is_converting w) (active_processes w)
     (conversion_queue w) (max_concurrent_processes w) (total_files w)
     (completed_files w) (failed_files w) (ui w).

Definition set_is_converting (x : bool) (w : t) : t :=
  mk (files w) (output_folder w) x (active_processes w)
     (conversion_queue w) (max_concurrent_processes w) (total_files w)
     (completed_files w) (failed_files w) (ui w).

Definition set_active_processes (x : list CP.t) (w : t) : t :=
  mk (files w) (output_folder w) (is_converting w) x
     (conversion_queue w) (max_concurrent_processes w) (total_files w)
     (completed_files w) (failed_files w) (ui w).

Definition set_conversion_queue (x : list CP.t) (w : t) : t :=
  mk (files w) (output_folder w) (is_converting w) (active_processes w)
     x (max_concurrent_processes w) (total_files w)
     (completed_files w) (failed_files w) (ui w).

Definition set_total_files (x : Z) (w : t) : t :=
  mk (files w) (output_folder w) (is_converting w) (active_processes w)
     (conversion_queue w) (max_concurrent_processes w) x
     (completed_files w) (failed_files w) (ui w).

Definition set_completed_files (x : Z) (w : t) : t :=
  mk (files w) (output_folder w) (is_converting w) (active_processes w)
     (conversion_queue w) (max_concurrent_processes w) (total_files w)
     x (failed_files w) (ui w).

Definition set_failed_files (x : list string) (w : t) : t :=
  mk (files w) (output_folder w) (is_converting w) (active_processes w)
     (conversion_queue w) (max_concurrent_processes w) (total_files w)
     (completed_files w) x (ui w).

(** One more call on a widget. *)
Definition call (c : ui_call) (w : t) : t :=
  mk (files w) (output_folder w) (is_converting w) (active_processes w)
     (conversion_queue w) (max_concurrent_processes w) (total_files w)
     (completed_files w) (failed_files w) (ui w ++ [c]).

(** [__init__]; [cpu_count] is [os.cpu_count()]. *)
Definition __init__ (cpu_count : Z) : t :=
  mk [] "" false [] [] (Z.max 1 (cpu_count - 1)) 0 0 [] [].

Definition mem (file : string) (l : list string) : bool :=
  existsb (String.eqb file) l.

(** [add_files], after the dialog returned [chosen]. *)
Fixpoint add_files (is_valid_file : string -> bool) (chosen : list string)
  (w : t) : t :=
  match chosen with
  | [] => w
  | file :: rest =>
      if negb (mem file (files w)) && is_valid_file file
      then add_files is_valid_file rest
             (call (table_row file) (set_files (files w ++ [file]) w))
      else add_files is_valid_file rest w
  end.

Definition clear_files (w : t) : t :=
  call table_cleared (set_files [] w).

(** [files_table.item(index, 1).setText(status)], recorded whatever the
    row. *)
Definition update_status (index : nat) (status : string) (w : t) : t :=
  call (table_status index status) w.

(** The table has a row for each file of the list: every handler that
    changes the one changes the other in the same way.  The cell of a row
    that is not there is [None]. *)
Definition has_row (index : nat) (w : t) : bool :=
  (index <? List.length (files w))%nat.

(** [files_table.item(index, 3).setText(info)] *)
Definition update_info (index : nat) (info : CP.info_text) (w : t)
  : res t :=
  if has_row index w then Ok (call (table_info index info) w)
  else Raise AttributeError.

(** [cellWidget(index, 2).setValue(int(progress))]: the widget is looked
    up first; [setValue] takes a C [int]. *)
Definition update_progress (index : nat) (progress : pyfloat) (w : t)
  : res t :=
  if has_row index w then
    let* value := int_of_num (PFloat progress) in
    if ((- 2 ^ 31 <=? value) && (value <? 2 ^ 31))%Z
    then Ok (call (bar_value index progress) w)
    else Raise OverflowError
  else Raise AttributeError.

Definition handle_error (index : nat) (error_message : string) (w : t)
  : res t :=
  let w := call (log_append ("ERROR: " ++ error_message)) w in
  match nth_error (files w) index with
  | Some file =>
      let w := set_failed_files (failed_files w ++ [file]) w in
      Ok (update_status index "Error" w)
  | None => Raise IndexError
  end.

(** The connections of lines 437-441, and the launch as a call on the
    operating system; [on_finished] is the slot of [finished]. *)
Definition slot (on_finished : nat -> Z -> t -> res t) (a : CP.action)
  (w : t) : res t :=
  match a with
  | CP.emit (CP.status_update index status) =>
      Ok (update_status index status w)
  | CP.emit (CP.error_occurred index error_message) =>
      handle_error index error_message w
  | CP.emit (CP.progress_update index progress) =>
      update_progress index progress w
  | CP.emit (CP.info_update index info) =>
      update_info index info w
  | CP.emit (CP.finished index return_code) =>
      on_finished index return_code w
  | CP.os_start index program command =>
      Ok (call (launched index program command) w)
  end.

Fixpoint perform (on_finished : nat -> Z -> t -> res t)
  (actions : list CP.action) (w : t) : res t :=
  match actions with
  | [] => Ok w
  | a :: rest =>
      let* w := slot on_finished a w in
      perform on_finished rest w
  end.

(** A method of a process run from the window: its actions reach the
    slots in order, then its own outcome counts. *)
Definition invoke {A : Type} (on_finished : nat -> Z -> t -> res t)
  (method : CP.M A) (w : t) : res (A * t) :=
  let '(actions, outcome) := method in
  let* w := perform on_finished actions w in
  let* a := outcome in
  Ok (a, w).

(** The body of the [while] of [start_next_processes]; [queue] is
    [self.conversion_queue].  The process object joins the active list as
    [start] leaves it.  [start] emits no [finished], so that slot is idle
    here. *)
Fixpoint start_next_loop (queue : list CP.t) (w : t) : res t :=
  match queue with
  | [] => Ok w
  | process :: rest =>
      if (Z.of_nat (List.length (active_processes w))
          <? max_concurrent_processes w)%Z
      then
        let w := set_conversion_queue rest w in
        let* started := invoke (fun _ _ w => Ok w) (CP.start process) w in
        let '(process, w) := started in
        let w := set_active_processes (active_processes w ++ [process]) w in
        start_next_loop rest w
      else Ok w
  end.

Definition start_next_processes (w : t) : res t :=
  start_next_loop (conversion_queue w) w.

Definition validate_inputs (e : env) (w : t) : bool * t :=
  match files w with
  | [] => (false, call (message_box no_input_files) w)
  | _ :: _ =>
      if String.eqb (output_text e) ""
      then (false, call (message_box no_output_folder) w)
      else if negb (path_exists e (output_text e))
      then (false, call (message_box output_folder_missing) w)
      else
        let w := set_output_folder (output_text e) w in
        if negb (ffmpeg_found e)
        then (false, call (message_box ffmpeg_missing) w)
        else (true, w)
  end.

(** The [for] of [start_conversion], from position [index] on. *)
Fixpoint enqueue_files (e : env) (index : nat) (inputs : list string)
  (w : t) : res t :=
  match inputs with
  | [] => Ok w
  | input_file :: rest =>
      let output_file :=
        output_path e (output_folder w) input_file (format_text e) in
      if path_exists e output_file && negb (overwrite_checked e)
      then
        let w := update_status index "Omitido" w in
        let* w := update_progress index (Fin 100) w in
        enqueue_files e (S index) rest w
      else
        let* process :=
          CP.__init__ (ffprobe e) index input_file output_file
            (bitrate_text e) (format_text e) in
        let w := set_conversion_queue (conversion_queue w ++ [process]) w in
        enqueue_files e (S index) rest w
  end.

Definition start_conversion (e : env) (w : t) : res t :=
  if is_converting w
  then Ok (call (message_box already_converting) w)
  else
    let '(valid, w) := validate_inputs e w in
    if negb valid then Ok w
    else
      let w := set_is_converting true w in
      let w := set_failed_files [] w in
      let w := set_completed_files 0 w in
      let w := set_total_files (Z.of_nat (List.length (files w))) w in
      let w := set_active_processes [] w in
      let w := set_conversion_queue [] w in
      let w := call overall_reset w in
      let* w := enqueue_files e 0 (files w) w in
      start_next_processes w.

(** The [for ... break] of [process_finished]: the first process with this
    index leaves the list. *)
Fixpoint remove_index (index : nat) (l : list CP.t) : list CP.t :=
  match l with
  | [] => []
  | p :: rest =>
      if (CP.index p =? index)%nat then rest
      else p :: remove_index index rest
  end.

Definition process_finished (index : nat) (return_code : Z) (w : t)
  : res t :=
  let w := set_completed_files (completed_files w + 1) w in
  if (total_files w =? 0)%Z then Raise ZeroDivisionError
  else
    let w := call (overall_value (completed_files w) (total_files w)) w in
    let w :=
      set_active_processes (remove_index index (active_processes w)) w in
    let* w := start_next_processes w in
    if (completed_files w =? total_files w)%Z
    then
      let w := set_is_converting false w in
      let w := call conversion_logged w in
      match failed_files w with
      | _ :: _ => Ok (call (message_box (some_files_failed (failed_files w))) w)
      | [] => Ok (call (message_box all_converted) w)
      end
    else Ok w.

(** The body of the [for] of [stop_conversion]. *)
Definition kill_if_running (w : t) (process : CP.t) : t :=
  if CP.running process then call (killed (CP.index process)) w else w.

Definition stop_conversion (w : t) : t :=
  let w := fold_left kill_if_running (active_processes w) w in
  let w := set_conversion_queue [] w in
  let w := set_is_converting false w in
  call (message_box stopped_by_user) w.

(** *** Editing the list of files *)

Definition SUPPORTED_FORMATS : list string :=
  ["mp3"; "wav"; "flac"; "aac"; "ogg"; "m4a"; "wma"; "opus"; "aiff"; "alac"].

(** [str.lower] on one character (code points below 256). *)
Definition lower_char (c : ascii) : ascii :=
  let n := nat_of_ascii c in
  if ((65 <=? n) && (n <=? 90)
      || (192 <=? n) && (n <=? 222) && negb (n =? 215))%nat
  then ascii_of_nat (n + 32) else c.

Fixpoint str_lower (s : string) : string :=
  match s with
  | EmptyString => EmptyString
  | String a s' => String (lower_char a) (str_lower s')
  end.

(** [s.endswith(suffix)] *)
Fixpoint endswith (s suffix : string) : bool :=
  String.eqb s suffix
  || match s with
     | EmptyString => false
     | String _ s' => endswith s' suffix
     end.

(** [file.lower().endswith(tuple(SUPPORTED_FORMATS))] *)
Definition supported (file : string) : bool :=
  existsb (endswith (str_lower file)) SUPPORTED_FORMATS.

(** [is_valid_file]; [probe] is [subprocess.run] on the stream probe. *)
Definition is_valid_file (probe : string -> res string)
  (file_path : string) : bool :=
  match probe file_path with
  | Ok stdout => negb (String.eqb stdout "")
  | Raise _ => false
  end.

(** The inner [for] of [add_folder], over the file names of one directory;
    [join] is [os.path.join]. *)
Fixpoint add_folder_files (valid : string -> bool)
  (join : string -> string -> string) (root : string)
  (names : list string) (added_files : Z) (w : t) : Z * t :=
  match names with
  | [] => (added_files, w)
  | file :: rest =>
      if supported file
      then
        let full_path := join root file in
        if negb (mem full_path (files w)) && valid full_path
        then add_folder_files valid join root rest (added_files + 1)
               (call (table_row full_path)
                  (set_files (files w ++ [full_path]) w))
        else add_folder_files valid join root rest added_files w
      else add_folder_files valid join root rest added_files w
  end.

(** The outer [for] of [add_folder], over what [os.walk] yields: each
    directory with the names of its files. *)
Fixpoint add_folder_walk (valid : string -> bool)
  (join : string -> string -> string)
  (walked : list (string * list string)) (added_files : Z) (w : t)
  : Z * t :=
  match walked with
  | [] => (added_files, w)
  | (root, names) :: rest =>
      let '(added_files, w) :=
        add_folder_files valid join root names added_files w in
      add_folder_walk valid join rest added_files w
  end.

(** [add_folder], after the dialog returned [folder].  The count is the
    one the closing information box shows (the box says that nothing was
    found when it is 0); no box at all when the dialog was cancelled. *)
Definition add_folder (valid : string -> bool)
  (join : string -> string -> string)
  (walk : string -> list (string * list string)) (folder : string) (w : t)
  : option Z * t :=
  if String.eqb folder "" then (None, w)
  else
    let '(added_files, w) := add_folder_walk valid join (walk folder) 0 w in
    (Some added_files, w).

(** [l.pop(i)] on the list of files: what is left. *)
Fixpoint pop (i : nat) (l : list string) : res (list string) :=
  match l, i with
  | [], _ => Raise IndexError
  | _ :: rest, O => Ok rest
  | x :: rest, S i => let* left := pop i rest in Ok (x :: left)
  end.

(** [sorted(rows, reverse=True)] on row numbers. *)
Fixpoint insert_reverse (r : nat) (l : list nat) : list nat :=
  match l with
  | [] => [r]
  | x :: rest => if (x <=? r)%nat then r :: l else x :: insert_reverse r rest
  end.

Definition sorted_reverse (rows : list nat) : list nat :=
  fold_right insert_reverse [] rows.

(** The [for] of [remove_files]; the rows already handed to
    [files_table.removeRow] are collected in order. *)
Fixpoint remove_rows (rows : list nat) (removed : list nat) (w : t)
  : res (list nat * t) :=
  match rows with
  | [] => Ok (removed, w)
  | row :: rest =>
      let* left := pop row (files w) in
      remove_rows rest (removed ++ [row]) (set_files left w)
  end.

(** [remove_files], for the selected rows. *)
Definition remove_files (selected_rows : list nat) (w : t)
  : res (list nat * t) :=
  remove_rows (sorted_reverse selected_rows) [] w.

(** *** The event loop *)

(** What the user does and what the processes report.  The process of an
    event is any process object: the slots do not ask whether it is in the
    active list. *)
Inductive event : Type :=
| files_chosen (is_valid_file : string -> bool) (chosen : list string)
| clear_clicked
| start_clicked (e : env)
| stop_clicked
| ready_read (p : CP.t) (lines : list (Q * string))
| process_exited (p : CP.t) (exit_code : Z) (stderr_written : string)
| folder_chosen (is_valid_file : string -> bool)
    (join : string -> string -> string)
    (walk : string -> list (string * list string)) (folder : string)
| remove_clicked (selected_rows : list nat).

Definition step (ev : event) (w : t) : res t :=
  match ev with
  | files_chosen is_valid_file chosen =>
      Ok (add_files is_valid_file chosen w)
  | clear_clicked => Ok (clear_files w)
  | start_clicked e => start_conversion e w
  | stop_clicked => Ok (stop_conversion w)
  | ready_read p lines =>
      let* r := invoke process_finished (CP.read_output p lines) w in
      Ok (snd r)
  | process_exited p exit_code stderr_written =>
      let* r :=
        invoke process_finished
          (CP.process_finished p exit_code stderr_written) w in
      Ok (snd r)
  | folder_chosen is_valid_file join walk folder =>
      Ok (snd (add_folder is_valid_file join walk folder w))
  | remove_clicked selected_rows =>
      let* r := remove_files selected_rows w in
      Ok (snd r)
  end.

Fixpoint run (evs : list event) (w : t) : res t :=
  match evs with
  | [] => Ok w
  | ev :: rest =>
      let* w := step ev w in
      run rest w
  end.

(** The batch-finished report: one of the two closing message boxes. *)
Definition is_report (c : ui_call) : bool :=
  match c with
  | message_box (some_files_failed _) | message_box all_converted => true
  | _ => false
  end.

Definition reports (w : t) : nat :=
  List.length (filter is_report (ui w)).

End MainWindow.

(** ** Notions used to state the properties *)
Module Spec.
Import Py.
Module CP := ConversionProcess.
Module MW := MainWindow.
Local Open Scope string_scope.

(** The number a string of decimal digits denotes. *)
Fixpoint decimal_from (acc : Z) (s : string) : Z :=
  match s with
  | EmptyString => acc
  | String a s' =>
      match digit_value a with
      | Some d => decimal_from (acc * 10 + d) s'
      | None => acc
      end
  end.

Definition decimal (s : string) : Z := decimal_from 0 s.

(** Every character of the string passes the test. *)
Fixpoint every (test : ascii -> bool) (s : string) : bool :=
  match s with
  | EmptyString => true
  | String a s' => test a && every test s'
  end.

(** A character a timestamp field is written with: a digit or the minus. *)
Definition field_char (c : ascii) : bool :=
  (is_digit c || Ascii.eqb c "-")%bool.

Definition all_digits (s : string) : bool := every is_digit s.

(** A non-empty string of decimal digits. *)
Definition digits (s : string) : Prop :=
  all_digits s = true /\ s <> "".

(** [0.f] for a string [f] of digits. *)
Definition fraction (f : string) : Q :=
  Qmake (decimal f) (Z.to_pos (10 ^ Z.of_nat (String.length f))).

(** A field of a timestamp with an optional minus sign, and its value. *)
Definition signed (negative : bool) (d : string) : string :=
  if negative then "-" ++ d else d.

Definition signed_value (negative : bool) (d : string) : Z :=
  if negative then - decimal d else decimal d.

(** The shape [H:MM:SS[.f]] of a timestamp: digits, two digits, two
    digits, then optionally a dot and digits. *)
Definition nonempty_digits (s : string) : bool :=
  all_digits s && negb (String.eqb s "").

Definition two_digits (s : string) : bool :=
  all_digits s && (String.length s =? 2)%nat.

Definition hms_form (hms : string) : bool :=
  match split ":" hms with
  | [h; m; s] => nonempty_digits h && two_digits m && two_digits s
  | _ => false
  end.

Definition timestamp_form (s : string) : bool :=
  match split "." s with
  | [hms] => hms_form hms
  | [hms; f] => hms_form hms && nonempty_digits f
  | _ => false
  end.

(** A character a float literal can begin with: a digit, a sign, the dot,
    or the first letter of [inf] or [nan]. *)
Definition numeric_start (c : ascii) : bool :=
  (is_digit c
   || existsb (Ascii.eqb c) ["+"; "-"; "."; "i"; "I"; "n"; "N"]%char)%bool.

(** A character [int] can read: a digit, a sign, an underscore, a blank. *)
Definition int_char (c : ascii) : bool :=
  (is_digit c || existsb (Ascii.eqb c) ["+"; "-"; "_"]%char
   || num_space c)%bool.

(** The text of an integer as [int] reads it: blanks, an optional sign,
    groups of digits joined by single underscores, blanks; and its value. *)
Inductive sign : Type := no_sign | plus_sign | minus_sign.

Definition sign_text (sg : sign) : string :=
  match sg with
  | no_sign => ""
  | plus_sign => "+"
  | minus_sign => "-"
  end.

Fixpoint groups_text (g : string) (gs : list string) : string :=
  match gs with
  | [] => g
  | g' :: gs' => (g ++ "_" ++ groups_text g' gs')%string
  end.

Fixpoint groups_digits (g : string) (gs : list string) : string :=
  match gs with
  | [] => g
  | g' :: gs' => (g ++ groups_digits g' gs')%string
  end.

Definition int_value (sg : sign) (g : string) (gs : list string) : Z :=
  match sg with
  | minus_sign => - decimal (groups_digits g gs)
  | _ => decimal (groups_digits g gs)
  end.

Inductive int_field : string -> Z -> Prop :=
| int_field_intro (l r : string) (sg : sign) (g : string)
    (gs : list string) :
    every num_space l = true -> every num_space r = true ->
    digits g -> Forall digits gs ->
    int_field (l ++ sign_text sg ++ groups_text g gs ++ r)%string
      (int_value sg g gs).

(** The part of a timestamp before its first dot. *)
Definition before_dot (time_str : string) : string :=
  hd EmptyString (split "." time_str).

(** How often a character occurs. *)
Fixpoint count (c : ascii) (s : string) : nat :=
  match s with
  | EmptyString => 0
  | String a s' => (if Ascii.eqb a c then 1 else 0) + count c s'
  end.

(** The percentages of the progress events among some actions. *)
Fixpoint progress_events (actions : list CP.action) : list pyfloat :=
  match actions with
  | [] => []
  | CP.emit (CP.progress_update _ p) :: rest => p :: progress_events rest
  | _ :: rest => progress_events rest
  end.

(** The rational a finite number stands for. *)
Definition rational (x : pynum) : option Q :=
  match x with
  | PInt z => Some (inject_Z z)
  | PFloat (Fin q) => Some q
  | PFloat _ => None
  end.

Definition negative (p : pyfloat) : bool :=
  match p with
  | Fin q => Qneg q
  | Inf s => s
  | NaN => false
  end.

(** Events that come from the processes, not from the user. *)
Definition process_event (ev : MW.event) : bool :=
  match ev with
  | MW.ready_read _ _ | MW.process_exited _ _ _ => true
  | _ => false
  end.

Definition exit_event (ev : MW.event) : bool :=
  match ev with
  | MW.process_exited _ _ _ => true
  | _ => false
  end.

Definition exits (evs : list MW.event) : nat :=
  List.length (filter exit_event evs).

(** The file at this position is skipped by [start_conversion]. *)
Definition skipped (e : MW.env) (folder input_file : string) : bool :=
  MW.path_exists e
    (MW.output_path e folder input_file (MW.format_text e))
  && negb (MW.overwrite_checked e).

Definition is_launch (c : MW.ui_call) : bool :=
  match c with
  | MW.launched _ _ _ => true
  | _ => false
  end.

(** The calls [start] makes through the window, for one process. *)
Definition start_calls (p : CP.t) : list MW.ui_call :=
  [MW.launched (CP.index p) "ffmpeg" (CP.command p);
   MW.table_status (CP.index p) "En proceso"].

(** How many queued jobs an admission starts. *)
Definition admitted (w : MW.t) : nat :=
  Nat.min
    (Z.to_nat (MW.max_concurrent_processes w
               - Z.of_nat (List.length (MW.active_processes w))))
    (List.length (MW.conversion_queue w)).

(** The bound on the active list. *)
Definition bounded (w : MW.t) : Prop :=
  (Z.of_nat (List.length (MW.active_processes w))
   <= MW.max_concurrent_processes w)%Z.

(** How many [finished] signals there are among some actions. *)
Fixpoint finishes (actions : list CP.action) : nat :=
  match actions with
  | [] => 0
  | CP.emit (CP.finished _ _) :: rest => S (finishes rest)
  | _ :: rest => finishes rest
  end.

(** The launches made so far. *)
Definition launches (w : MW.t) : list MW.ui_call :=
  filter is_launch (MW.ui w).

(** How many of these input files [start_conversion] skips. *)
Definition skips (e : MW.env) (folder : string) (inputs : list string)
  : nat :=
  List.length (filter (skipped e folder) inputs).

(** The completed counter reaches the total within the next [n]
    job-finished events. *)
Definition fired (n : nat) (w : MW.t) : bool :=
  ((MW.completed_files w <? MW.total_files w)
   && (MW.total_files w <=? MW.completed_files w + Z.of_nat n))%Z.

(** The bookkeeping of [n] job-finished events between [w] and [w']: the
    total stays, the completed counter grows by [n], one report is made,
    and the converting state left, exactly when the counter reaches the
    total, and an empty queue stays empty with nothing launched. *)
Definition counts (n : nat) (w w' : MW.t) : Prop :=
  MW.total_files w' = MW.total_files w
  /\ MW.completed_files w' = (MW.completed_files w + Z.of_nat n)%Z
  /\ MW.reports w' = (MW.reports w + (if fired n w then 1 else 0))%nat
  /\ MW.is_converting w'
     = (if fired n w then false else MW.is_converting w)
  /\ (MW.conversion_queue w = [] ->
      MW.conversion_queue w' = [] /\ launches w' = launches w).

Definition is_launch_action (a : CP.action) : bool :=
  match a with
  | CP.os_start _ _ _ => true
  | _ => false
  end.

(** An action of the telemetry parser: a progress or an info event. *)
Definition telemetry (a : CP.action) : bool :=
  match a with
  | CP.emit (CP.progress_update _ _) | CP.emit (CP.info_update _ _) => true
  | _ => false
  end.

(** [w'] has the limit of [w], and its bound if [w] had it. *)
Definition keeps_bound (w w' : MW.t) : Prop :=
  MW.max_concurrent_processes w' = MW.max_concurrent_processes w
  /\ (bounded w -> bounded w').

(** *** Notions for the list of files and the jobs of a run *)

(** The jobs the window holds: the active ones, then the queued ones. *)
Definition submitted (w : MW.t) : list CP.t :=
  MW.active_processes w ++ MW.conversion_queue w.

(** What ties a process to its row: the index and the input file. *)
Definition key (p : CP.t) : nat * string :=
  (CP.index p, CP.input_file p).

(** The rows of [inputs], numbered from [index], that are not skipped. *)
Definition kept_rows (e : MW.env) (folder : string) (index : nat)
  (inputs : list string) : list (nat * string) :=
  filter (fun row => negb (skipped e folder (snd row)))
    (combine (seq index (List.length inputs)) inputs).

(** The list without the elements at the positions [rows], the first
    position being [i]. *)
Fixpoint without_rows (rows : list nat) (i : nat) (l : list string)
  : list string :=
  match l with
  | [] => []
  | x :: rest =>
      if existsb (Nat.eqb i) rows then without_rows rows (S i) rest
      else x :: without_rows rows (S i) rest
  end.

(** Every process the window holds sits at the row of its input file. *)
Definition rows_valid (w : MW.t) : Prop :=
  forall p : CP.t,
    In p (submitted w) ->
    nth_error (MW.files w) (CP.index p) = Some (CP.input_file p).

(** The queue is empty or the active list is full. *)
Definition busy (w : MW.t) : Prop :=
  MW.conversion_queue w = []
  \/ (MW.max_concurrent_processes w
      <= Z.of_nat (List.length (MW.active_processes w)))%Z.

(** [w'] holds the files, jobs, limit and total of [w]. *)
Definition same_jobs (w w' : MW.t) : Prop :=
  MW.files w' = MW.files w
  /\ MW.active_processes w' = MW.active_processes w
  /\ MW.conversion_queue w' = MW.conversion_queue w
  /\ MW.max_concurrent_processes w' = MW.max_concurrent_processes w
  /\ MW.total_files w' = MW.total_files w.

(** A call that inserts rows in the table or empties it. *)
Definition table_call (c : MW.ui_call) : bool :=
  match c with
  | MW.table_row _ | MW.table_cleared => true
  | _ => false
  end.

(** [w'] is [w] but for the list of files and for calls on the rows of
    the table. *)
Definition edited (w w' : MW.t) : Prop :=
  exists (files : list string) (calls : list MW.ui_call),
    w' = MW.mk files (MW.output_folder w) (MW.is_converting w)
           (MW.active_processes w) (MW.conversion_queue w)
           (MW.max_concurrent_processes w) (MW.total_files w)
           (MW.completed_files w) (MW.failed_files w) (MW.ui w ++ calls)
    /\ forallb table_call calls = true.

(** The elements of [l] that are not among [seen], each once, at its
    first occurrence. *)
Fixpoint first_new (seen l : list string) : list string :=
  match l with
  | [] => []
  | x :: rest =>
      if MW.mem x seen then first_new seen rest
      else x :: first_new (seen ++ [x]) rest
  end.

(** The paths of the files of supported format that a walk yields, in the
    order of the walk. *)
Definition walked_paths (join : string -> string -> string)
  (walked : list (string * list string)) : list string :=
  flat_map
    (fun d => map (join (fst d)) (filter MW.supported (snd d))) walked.

(** The events that take rows out of the table. *)
Definition removes_rows (ev : MW.event) : bool :=
  match ev with
  | MW.clear_clicked | MW.remove_clicked _ => true
  | _ => false
  end.

(** Each row is above all the rows after it. *)
Fixpoint falling (l : list nat) : Prop :=
  match l with
  | [] => True
  | r :: rest => (forall x, In x rest -> (x < r)%nat) /\ falling rest
  end.

(** A process object as [start_conversion] makes it for its input file. *)
Definition job_of (e : MW.env) (folder : string) (p : CP.t) : Prop :=
  CP.output_file p
  = MW.output_path e folder (CP.input_file p) (MW.format_text e)
  /\ CP.bitrate p = MW.bitrate_text e
  /\ CP.format p = MW.format_text e
  /\ CP.channel_mode p = CP.MergedChannels.

(** The rows of the jobs the window holds. *)
Definition job_rows (w : MW.t) : list nat := map CP.index (submitted w).

(** No two jobs on one row, no job waiting beside a free slot, and a
    positive total as long as there is a job. *)
Definition tidy (w : MW.t) : Prop :=
  NoDup (job_rows w)
  /\ busy w
  /\ (submitted w <> [] -> (1 <= MW.total_files w)%Z).

(** A progress or an info event of the row [index]. *)
Definition telemetry_of (index : nat) (a : CP.action) : bool :=
  match a with
  | CP.emit (CP.progress_update i _) | CP.emit (CP.info_update i _) =>
      (i =? index)%nat
  | _ => false
  end.

(** A call on the progress bar or the info cell of the row [index]. *)
Definition display_of (index : nat) (c : MW.ui_call) : bool :=
  match c with
  | MW.bar_value i _ | MW.table_info i _ => (i =? index)%nat
  | _ => false
  end.

(** The run in which the active jobs of these rows exit, one after the
    other, each with its exit code and what it wrote on standard error;
    nothing when a row names no active job. *)
Fixpoint exit_rows (exs : list (nat * Z * string)) (w : MW.t)
  : option (res MW.t) :=
  match exs with
  | [] => Some (Ok w)
  | (row, exit_code, stderr_written) :: rest =>
      match find (fun p => (CP.index p =? row)%nat)
              (MW.active_processes w) with
      | None => None
      | Some p =>
          match MW.step (MW.process_exited p exit_code stderr_written) w with
          | Ok w' => exit_rows rest w'
          | Raise x => Some (Raise x)
          end
      end
  end.

(** The rows among these exits whose exit code is not 0. *)
Fixpoint failed_rows (exs : list (nat * Z * string)) : list nat :=
  match exs with
  | [] => []
  | (row, exit_code, _) :: rest =>
      if (exit_code =? 0)%Z then failed_rows rest
      else row :: failed_rows rest
  end.

(** The closing message box for these failed files. *)
Definition report_of (failed_files : list string) : MW.message :=
  match failed_files with
  | [] => MW.all_converted
  | _ :: _ => MW.some_files_failed failed_files
  end.

(** The exceptions of a float that does not fit: too large, or no number. *)
Definition overflow_or_value (x : exn) : Prop :=
  x = OverflowError \/ x = ValueError.

(** A computation that raises nothing else. *)
Definition number_errors_only (A : Type) (r : res A) : Prop :=
  forall x : exn, r = Raise x -> overflow_or_value x.

End Spec.

(** ** Concrete runs, for the examples *)
Module Scenario.
Import Py.
Module CP := ConversionProcess.
Module MW := MainWindow.
Local Open Scope string_scope.

(** A probe that answers ten seconds for every file. *)
Definition probe_ten (input_file : string) : res string := Ok "10.000000".

(** An environment with an output folder [out] in which the files
    [existing] are present; overwriting is off. *)
Definition env_with (existing : list string) : MW.env :=
  MW.mk_env "out"
    (fun path => MW.mem path ("out" :: existing))
    true false "192k" "mp3" probe_ten MW.output_file_path.

(** The started process of the file at [index]. *)
Definition job (index : nat) (input_file : string) (duration : pynum)
  : CP.t :=
  CP.mk index input_file (MW.output_file_path "out" input_file "mp3")
    "192k" "mp3" CP.MergedChannels true duration.

Definition ten : pynum := PFloat (Fin 10).

(** The same environment with a probe that cannot be run. *)
Definition env_failing_probe (existing : list string) : MW.env :=
  MW.mk_env "out"
    (fun path => MW.mem path ("out" :: existing))
    true false "192k" "mp3" (fun _ => Raise OSError) MW.output_file_path.

Definition choose (chosen : list string) : MW.event :=
  MW.files_chosen (fun _ => true) chosen.

(** The window a handler returned. *)
Definition value (r : res MW.t) : MW.t :=
  match r with
  | Ok w => w
  | Raise _ => MW.__init__ 1
  end.

(** The window after these events, from a machine with [cpu_count] cores. *)
Definition after (cpu_count : Z) (evs : list MW.event) : MW.t :=
  value (MW.run evs (MW.__init__ cpu_count)).

Fixpoint zeros (n : nat) : string :=
  match n with
  | O => EmptyString
  | S n => String "0" (zeros n)
  end.

(** The digits of 10 ^ 309, a number of hours. *)
Definition huge_hours : string := String "1" (zeros 309).

Definition five : list string := ["a.wav"; "b.wav"; "c.wav"; "d.wav"; "e.wav"].

(** A folder [d] with three files and a sub-folder with one. *)
Definition walk (folder : string) : list (string * list string) :=
  [("d", ["a.mp3"; "notes.txt"; "c.WAV"]); ("d/e", ["a.mp3"])].

Definition join (root file : string) : string := path_join root file.

End Scenario.

(** * Properties *)

Import Py Spec.
Local Open Scope string_scope.
Local Open Scope list_scope.

Unset Implicit Arguments.

(** ** The parser on [progress=end] *)

(** C8: a [progress=end] line makes the parser emit a progress event of
    exactly 100 and then the completion info event, whatever the duration of
    the job (known or 0) and whatever was parsed before; the same holds
    when the line reaches [read_output] with its line terminator. *)
Theorem C8_progress_end :
  forall (self : CP.t) (elapsed_time : Q),
    CP.parse_progress self elapsed_time "progress=end"
    = ([CP.emit (CP.progress_update (CP.index self) (Fin 100));
        CP.emit (CP.info_update (CP.index self)
                   (CP.text "Conversión completada"))],
       Ok tt)
    /\ CP.read_output self [(elapsed_time, String "p" (String "r" (String "o"
         (String "g" (String "r" (String "e" (String "s" (String "s"
         (String "=" (String "e" (String "n" (String "d"
         (String "010" EmptyString)))))))))))))]
       = CP.parse_progress self elapsed_time "progress=end".
Proof.
  intros self elapsed_time.
  split; reflexivity.
Qed.

(** ** Field-wise facts about the window *)

Lemma window_eta (w : MW.t) :
  w = MW.mk (MW.files w) (MW.output_folder w) (MW.is_converting w)
        (MW.active_processes w) (MW.conversion_queue w)
        (MW.max_concurrent_processes w) (MW.total_files w)
        (MW.completed_files w) (MW.failed_files w) (MW.ui w).
Proof. destruct w; reflexivity. Qed.

Lemma update_progress_ok (index : nat) (progress : pyfloat) (w w' : MW.t) :
  MW.update_progress index progress w = Ok w' ->
  w' = MW.call (MW.bar_value index progress) w
  /\ MW.has_row index w = true.
Proof.
  unfold MW.update_progress. destruct (MW.has_row index w); [|discriminate].
  destruct (int_of_num _) as [v|]; [|discriminate]. cbn [bind].
  destruct (_ && _); [|discriminate]. intros H; inversion H. auto.
Qed.

Lemma update_info_ok (index : nat) (info : CP.info_text) (w w' : MW.t) :
  MW.update_info index info w = Ok w' ->
  w' = MW.call (MW.table_info index info) w
  /\ MW.has_row index w = true.
Proof.
  unfold MW.update_info. destruct (MW.has_row index w); [|discriminate].
  intros H; inversion H. auto.
Qed.

(** The bar of a row that is there takes 100. *)
Lemma update_progress_100 (index : nat) (w : MW.t) :
  MW.has_row index w = true ->
  MW.update_progress index (Fin 100) w
  = Ok (MW.call (MW.bar_value index (Fin 100)) w).
Proof.
  intros H. unfold MW.update_progress. rewrite H. reflexivity.
Qed.

(** *** The handlers that edit the list of files *)

Lemma edited_refl (w : MW.t) : edited w w.
Proof.
  exists (MW.files w), []. rewrite app_nil_r.
  split; [apply window_eta|reflexivity].
Qed.

Lemma edited_trans (w1 w2 w3 : MW.t) :
  edited w1 w2 -> edited w2 w3 -> edited w1 w3.
Proof.
  intros (f2 & c2 & -> & H2) (f3 & c3 & -> & H3).
  exists f3, (c2 ++ c3).
  cbn [MW.files MW.output_folder MW.is_converting MW.active_processes
       MW.conversion_queue MW.max_concurrent_processes MW.total_files
       MW.completed_files MW.failed_files MW.ui].
  rewrite <- app_assoc, forallb_app, H2, H3. split; reflexivity.
Qed.

Lemma edited_row (file : string) (files : list string) (w : MW.t) :
  edited w (MW.call (MW.table_row file) (MW.set_files files w)).
Proof. exists files, [MW.table_row file]. split; reflexivity. Qed.

Lemma add_folder_files_edited (valid : string -> bool)
  (join : string -> string -> string) (root : string)
  (names : list string) :
  forall (added_files : Z) (w : MW.t),
    edited w (snd (MW.add_folder_files valid join root names added_files w)).
Proof.
  induction names as [|file rest IH]; intros n w;
    cbn [MW.add_folder_files].
  - apply edited_refl.
  - destruct (MW.supported file); [|apply IH].
    destruct (negb (MW.mem _ _) && valid _); [|apply IH].
    eapply edited_trans; [apply edited_row|apply IH].
Qed.

Lemma add_folder_walk_edited (valid : string -> bool)
  (join : string -> string -> string)
  (walked : list (string * list string)) :
  forall (added_files : Z) (w : MW.t),
    edited w (snd (MW.add_folder_walk valid join walked added_files w)).
Proof.
  induction walked as [|[root names] rest IH]; intros n w;
    cbn [MW.add_folder_walk].
  - apply edited_refl.
  - pose proof (add_folder_files_edited valid join root names n w) as H.
    destruct (MW.add_folder_files valid join root names n w) as [n1 w1].
    eapply edited_trans; [exact H|apply IH].
Qed.

Lemma add_folder_edited (valid : string -> bool)
  (join : string -> string -> string)
  (walk : string -> list (string * list string)) (folder : string)
  (w : MW.t) :
  edited w (snd (MW.add_folder valid join walk folder w)).
Proof.
  unfold MW.add_folder. destruct (String.eqb folder "");
    [apply edited_refl|].
  pose proof (add_folder_walk_edited valid join (walk folder) 0 w) as H.
  destruct (MW.add_folder_walk valid join (walk folder) 0 w) as [n w1].
  exact H.
Qed.

Lemma remove_rows_edited (rows : list nat) :
  forall (removed : list nat) (w : MW.t) (r : list nat * MW.t),
    MW.remove_rows rows removed w = Ok r -> edited w (snd r).
Proof.
  induction rows as [|row rest IH]; intros removed w r;
    cbn [MW.remove_rows].
  - intros H; inversion H; subst. apply edited_refl.
  - destruct (MW.pop row (MW.files w)) as [remaining|]; [|discriminate].
    cbn [bind]. intros H. apply IH in H.
    eapply edited_trans; [|exact H].
    exists remaining, []. rewrite app_nil_r. split; reflexivity.
Qed.

Lemma remove_files_edited (selected_rows : list nat) (w : MW.t)
  (r : list nat * MW.t) :
  MW.remove_files selected_rows w = Ok r -> edited w (snd r).
Proof. apply remove_rows_edited. Qed.

(** The two events that edit the list beside [add_files]. *)
Lemma step_edited (ev : MW.event) (w w' : MW.t) :
  match ev with
  | MW.folder_chosen _ _ _ _ | MW.remove_clicked _ => True
  | _ => False
  end ->
  MW.step ev w = Ok w' -> edited w w'.
Proof.
  destruct ev as [v chosen| |e| |p lines|p code err|v join walk folder|rows];
    intros Hev; try contradiction; cbn [MW.step].
  - intros H; inversion H; subst. apply add_folder_edited.
  - destruct (MW.remove_files rows w) as [r|] eqn:Hr; [|discriminate].
    cbn [bind]. intros H; inversion H; subst.
    exact (remove_files_edited rows w r Hr).
Qed.

Lemma invoke_start (f : nat -> Z -> MW.t -> res MW.t) (p : CP.t) (w : MW.t) :
  MW.invoke f (CP.start p) w
  = Ok (CP.started p,
        MW.call (MW.table_status (CP.index p) "En proceso")
          (MW.call (MW.launched (CP.index p) "ffmpeg" (CP.command p)) w)).
Proof. reflexivity. Qed.

Lemma admitted_none (w : MW.t) :
  (Z.of_nat (List.length (MW.active_processes w))
   <? MW.max_concurrent_processes w)%Z = false ->
  admitted w = 0%nat.
Proof.
  intros H. apply Z.ltb_ge in H. unfold admitted.
  replace (Z.to_nat _) with 0%nat by lia. reflexivity.
Qed.

(** What the admission loop computes, in closed form: the first
    [admitted w] queued processes, in order. *)
Lemma start_next_loop_spec :
  forall (queue : list CP.t) (w : MW.t),
    MW.conversion_queue w = queue ->
    MW.start_next_loop queue w
    = Ok (MW.mk (MW.files w) (MW.output_folder w) (MW.is_converting w)
            (MW.active_processes w
             ++ map CP.started (firstn (admitted w) queue))
            (skipn (admitted w) queue)
            (MW.max_concurrent_processes w) (MW.total_files w)
            (MW.completed_files w) (MW.failed_files w)
            (MW.ui w ++ flat_map start_calls (firstn (admitted w) queue))).
Proof.
  induction queue as [|p rest IH]; intros w Hq.
  - cbn [MW.start_next_loop].
    replace (admitted w) with 0%nat
      by (unfold admitted; rewrite Hq; cbn; lia).
    cbn. rewrite !app_nil_r. rewrite <- Hq. f_equal. apply window_eta.
  - cbn [MW.start_next_loop].
    destruct (Z.of_nat (List.length (MW.active_processes w))
              <? MW.max_concurrent_processes w)%Z eqn:Hlt.
    + rewrite invoke_start. cbn [bind].
      match goal with |- MW.start_next_loop rest ?w' = _ =>
        set (w1 := w') end.
      assert (Hk : admitted w = S (admitted w1)).
      { apply Z.ltb_lt in Hlt. unfold admitted. rewrite Hq.
        subst w1. cbn [MW.active_processes MW.conversion_queue
                       MW.max_concurrent_processes MW.set_active_processes
                       MW.call MW.set_conversion_queue List.length].
        rewrite length_app. cbn [List.length]. lia. }
      rewrite (IH w1) by reflexivity.
      rewrite Hk. subst w1. cbn. rewrite <- !app_assoc. reflexivity.
    + rewrite (admitted_none w Hlt). cbn. rewrite !app_nil_r.
      rewrite <- Hq. f_equal. apply window_eta.
Qed.

(** ** The concurrency bound *)

Lemma keeps_bound_refl (w : MW.t) : keeps_bound w w.
Proof. split; auto. Qed.

Lemma keeps_bound_trans (w1 w2 w3 : MW.t) :
  keeps_bound w1 w2 -> keeps_bound w2 w3 -> keeps_bound w1 w3.
Proof.
  intros [H1 H2] [H3 H4]. split; [congruence | auto].
Qed.

(** A step that touches neither the limit nor the active list. *)
Lemma keeps_bound_frame (w w' : MW.t) :
  MW.max_concurrent_processes w' = MW.max_concurrent_processes w ->
  MW.active_processes w' = MW.active_processes w ->
  keeps_bound w w'.
Proof.
  intros Hm Ha. split; [assumption|].
  unfold bounded. rewrite Hm, Ha. auto.
Qed.

Lemma start_next_processes_keeps (w w' : MW.t) :
  MW.start_next_processes w = Ok w' -> keeps_bound w w'.
Proof.
  unfold MW.start_next_processes.
  rewrite (start_next_loop_spec _ w eq_refl). intros H. inversion H; subst; clear H.
  split; [reflexivity|]. unfold bounded. cbn.
  rewrite length_app, length_map, length_firstn. unfold admitted. lia.
Qed.

Lemma length_remove_index (index : nat) (l : list CP.t) :
  (List.length (MW.remove_index index l) <= List.length l)%nat.
Proof.
  induction l as [|p l IH]; cbn; [lia|].
  destruct (CP.index p =? index)%nat; cbn; lia.
Qed.

Lemma process_finished_keeps (index : nat) (return_code : Z) (w w' : MW.t) :
  MW.process_finished index return_code w = Ok w' -> keeps_bound w w'.
Proof.
  unfold MW.process_finished.
  cbn [MW.total_files MW.set_completed_files].
  destruct (MW.total_files w =? 0)%Z; [discriminate|].
  match goal with |- bind (MW.start_next_processes ?x) _ = _ -> _ =>
    set (w1 := x) end.
  destruct (MW.start_next_processes w1) as [w2|] eqn:Hs; [|discriminate].
  apply start_next_processes_keeps in Hs.
  assert (H1 : keeps_bound w w1).
  { split; [reflexivity|]. unfold bounded; subst w1; cbn.
    pose proof (length_remove_index index (MW.active_processes w)). lia. }
  pose proof (keeps_bound_trans _ _ _ H1 Hs) as H2.
  cbn [bind].
  destruct (MW.completed_files w2 =? MW.total_files w2)%Z.
  - destruct (MW.failed_files _); intros H; inversion H; subst; clear H;
      (eapply keeps_bound_trans; [exact H2|]);
      apply keeps_bound_frame; reflexivity.
  - intros H; inversion H; subst; assumption.
Qed.

Lemma slot_keeps (a : CP.action) (w w' : MW.t) :
  MW.slot MW.process_finished a w = Ok w' -> keeps_bound w w'.
Proof.
  destruct a as [[i p|i s|i m|i x|i c]|i prog cmd]; cbn [MW.slot].
  - intros H. apply update_progress_ok in H. destruct H as [-> _].
    apply keeps_bound_frame; reflexivity.
  - intros H; inversion H; subst. apply keeps_bound_frame; reflexivity.
  - unfold MW.handle_error.
    cbn [MW.files MW.call].
    destruct (nth_error (MW.files w) i); [|discriminate].
    intros H; inversion H; subst. apply keeps_bound_frame; reflexivity.
  - intros H. apply update_info_ok in H. destruct H as [-> _].
    apply keeps_bound_frame; reflexivity.
  - apply process_finished_keeps.
  - intros H; inversion H; subst. apply keeps_bound_frame; reflexivity.
Qed.

Lemma perform_keeps (actions : list CP.action) :
  forall w w' : MW.t,
    MW.perform MW.process_finished actions w = Ok w' -> keeps_bound w w'.
Proof.
  induction actions as [|a rest IH]; intros w w'; cbn [MW.perform].
  - intros H; inversion H; subst. apply keeps_bound_refl.
  - destruct (MW.slot MW.process_finished a w) as [w1|] eqn:Hs;
      [|discriminate].
    cbn [bind]. intros H.
    eapply keeps_bound_trans; [eapply slot_keeps; eassumption|].
    apply IH; assumption.
Qed.

Lemma invoke_keeps (A : Type) (method : CP.M A) (w : MW.t) (r : A * MW.t) :
  MW.invoke MW.process_finished method w = Ok r -> keeps_bound w (snd r).
Proof.
  destruct method as [actions outcome]. unfold MW.invoke.
  destruct (MW.perform MW.process_finished actions w) as [w1|] eqn:Hp;
    [|discriminate].
  cbn [bind]. destruct outcome as [a|]; [|discriminate].
  cbn [bind]. intros H; inversion H; subst. cbn [snd].
  eapply perform_keeps; eassumption.
Qed.

Lemma add_files_keeps (is_valid_file : string -> bool)
  (chosen : list string) :
  forall w : MW.t, keeps_bound w (MW.add_files is_valid_file chosen w).
Proof.
  induction chosen as [|file rest IH]; intros w; cbn [MW.add_files].
  - apply keeps_bound_refl.
  - destruct (negb (MW.mem file (MW.files w)) && is_valid_file file).
    + eapply keeps_bound_trans; [|apply IH].
      apply keeps_bound_frame; reflexivity.
    + apply IH.
Qed.

Lemma enqueue_files_frame (e : MW.env) (inputs : list string) :
  forall (index : nat) (w w' : MW.t),
    MW.enqueue_files e index inputs w = Ok w' ->
    MW.max_concurrent_processes w' = MW.max_concurrent_processes w
    /\ MW.active_processes w' = MW.active_processes w.
Proof.
  induction inputs as [|input_file rest IH]; intros index w w';
    cbn [MW.enqueue_files].
  - intros H; inversion H; subst; auto.
  - destruct (MW.path_exists e _ && negb (MW.overwrite_checked e)).
    + destruct (MW.update_progress index (Fin 100) _) as [w1|] eqn:Hp;
        [|discriminate].
      apply update_progress_ok in Hp. destruct Hp as [-> _].
      cbn [bind]. intros H.
      apply IH in H. exact H.
    + destruct (CP.__init__ _ _ _ _ _ _) as [p|]; [|discriminate].
      cbn [bind]. intros H. apply IH in H. exact H.
Qed.

Lemma validate_inputs_frame (e : MW.env) (w : MW.t) :
  MW.max_concurrent_processes (snd (MW.validate_inputs e w))
  = MW.max_concurrent_processes w
  /\ MW.active_processes (snd (MW.validate_inputs e w))
     = MW.active_processes w.
Proof.
  unfold MW.validate_inputs.
  destruct (MW.files w); [split; reflexivity|].
  destruct (String.eqb _ _); [split; reflexivity|].
  destruct (negb (MW.path_exists _ _)); [split; reflexivity|].
  destruct (negb (MW.ffmpeg_found e)); split; reflexivity.
Qed.

Lemma start_conversion_keeps (e : MW.env) (w w' : MW.t) :
  MW.start_conversion e w = Ok w' -> keeps_bound w w'.
Proof.
  unfold MW.start_conversion.
  destruct (MW.is_converting w).
  { intros H; inversion H; subst. apply keeps_bound_frame; reflexivity. }
  pose proof (validate_inputs_frame e w) as [Hm Ha].
  destruct (MW.validate_inputs e w) as [valid w0]. cbn [snd] in Hm, Ha.
  destruct valid; cbn [negb].
  2:{ intros H; inversion H; subst. apply keeps_bound_frame; assumption. }
  match goal with |- bind (MW.enqueue_files e 0 _ ?x) _ = _ -> _ =>
    set (w1 := x) end.
  destruct (MW.enqueue_files e 0 _ w1) as [w2|] eqn:He; [|discriminate].
  cbn [bind]. intros Hs. apply start_next_processes_keeps in Hs.
  apply enqueue_files_frame in He. destruct He as [Hm2 Ha2].
  eapply keeps_bound_trans; [|exact Hs].
  split.
  - rewrite Hm2. subst w1. cbn. exact Hm.
  - unfold bounded. rewrite Hm2, Ha2. subst w1. cbn. rewrite Hm. lia.
Qed.

(** The kills of [stop_conversion] in closed form. *)
Lemma fold_kill_spec (l : list CP.t) :
  forall w : MW.t,
    fold_left MW.kill_if_running l w
    = MW.mk (MW.files w) (MW.output_folder w) (MW.is_converting w)
        (MW.active_processes w) (MW.conversion_queue w)
        (MW.max_concurrent_processes w) (MW.total_files w)
        (MW.completed_files w) (MW.failed_files w)
        (MW.ui w
         ++ map (fun p => MW.killed (CP.index p)) (filter CP.running l)).
Proof.
  induction l as [|p l IH]; intros w; cbn [fold_left filter map].
  - rewrite app_nil_r. apply window_eta.
  - rewrite IH. unfold MW.kill_if_running.
    destruct (CP.running p); cbn; [|reflexivity].
    rewrite <- app_assoc. reflexivity.
Qed.

Lemma stop_conversion_spec (w : MW.t) :
  MW.stop_conversion w
  = MW.mk (MW.files w) (MW.output_folder w) false
      (MW.active_processes w) [] (MW.max_concurrent_processes w)
      (MW.total_files w) (MW.completed_files w) (MW.failed_files w)
      (MW.ui w
       ++ map (fun p => MW.killed (CP.index p))
            (filter CP.running (MW.active_processes w))
       ++ [MW.message_box MW.stopped_by_user]).
Proof.
  unfold MW.stop_conversion. rewrite fold_kill_spec.
  unfold MW.call, MW.set_is_converting, MW.set_conversion_queue.
  cbn [MW.files MW.output_folder MW.is_converting MW.active_processes
       MW.conversion_queue MW.max_concurrent_processes MW.total_files
       MW.completed_files MW.failed_files MW.ui].
  rewrite <- app_assoc. reflexivity.
Qed.

Lemma stop_conversion_frame (w : MW.t) :
  MW.max_concurrent_processes (MW.stop_conversion w)
  = MW.max_concurrent_processes w
  /\ MW.active_processes (MW.stop_conversion w) = MW.active_processes w.
Proof. rewrite stop_conversion_spec. split; reflexivity. Qed.

Lemma step_keeps (ev : MW.event) (w w' : MW.t) :
  MW.step ev w = Ok w' -> keeps_bound w w'.
Proof.
  destruct ev as [v chosen| |e| |p lines|p code err|v join walk folder|rows];
    try (intros H; apply step_edited in H; [|exact I];
         destruct H as (f & c & -> & _);
         apply keeps_bound_frame; reflexivity);
    cbn [MW.step].
  - intros H; inversion H; subst. apply add_files_keeps.
  - intros H; inversion H; subst. apply keeps_bound_frame; reflexivity.
  - apply start_conversion_keeps.
  - intros H; inversion H; subst.
    apply keeps_bound_frame; apply stop_conversion_frame.
  - destruct (MW.invoke _ _ _) as [r|] eqn:Hi; [|discriminate].
    cbn [bind]. intros H; inversion H; subst.
    eapply invoke_keeps; eassumption.
  - destruct (MW.invoke _ _ _) as [r|] eqn:Hi; [|discriminate].
    cbn [bind]. intros H; inversion H; subst.
    eapply invoke_keeps; eassumption.
Qed.

Lemma run_keeps (evs : list MW.event) :
  forall w w' : MW.t, MW.run evs w = Ok w' -> keeps_bound w w'.
Proof.
  induction evs as [|ev rest IH]; intros w w'; cbn [MW.run].
  - intros H; inversion H; subst. apply keeps_bound_refl.
  - destruct (MW.step ev w) as [w1|] eqn:Hs; [|discriminate].
    cbn [bind]. intros H.
    eapply keeps_bound_trans; [eapply step_keeps; eassumption|].
    apply IH; assumption.
Qed.

(** C3: in every state the window reaches, on a machine with any number of
    cores and after any events, the active list has at most
    N = max(1, cpu_count - 1) members, with N at least 1; an admission and a
    job-finished event started from such a state keep the bound. *)
Theorem C3_active_bounded :
  forall (cpu_count : Z) (evs : list MW.event) (w : MW.t),
    MW.run evs (MW.__init__ cpu_count) = Ok w ->
    MW.max_concurrent_processes w = Z.max 1 (cpu_count - 1)
    /\ (1 <= MW.max_concurrent_processes w)%Z
    /\ (Z.of_nat (List.length (MW.active_processes w))
        <= MW.max_concurrent_processes w)%Z
    /\ (forall w' : MW.t,
           MW.start_next_processes w = Ok w' ->
           (Z.of_nat (List.length (MW.active_processes w'))
            <= Z.max 1 (cpu_count - 1))%Z)
    /\ (forall (index : nat) (return_code : Z) (w' : MW.t),
           MW.process_finished index return_code w = Ok w' ->
           (Z.of_nat (List.length (MW.active_processes w'))
            <= Z.max 1 (cpu_count - 1))%Z).
Proof.
  intros cpu_count evs w Hrun.
  apply run_keeps in Hrun. destruct Hrun as [Hmax Hb].
  assert (Hw : bounded w).
  { apply Hb. unfold bounded. cbn. lia. }
  cbn in Hmax. rewrite Hmax.
  split; [reflexivity|]. split; [lia|]. split; [rewrite <- Hmax; exact Hw|].
  split.
  - intros w' H. apply start_next_processes_keeps in H.
    destruct H as [Hm H]. specialize (H Hw). unfold bounded in H. lia.
  - intros index return_code w' H. apply process_finished_keeps in H.
    destruct H as [Hm H]. specialize (H Hw). unfold bounded in H. lia.
Qed.

(** Five files on a machine with three cores: two run, three wait. *)
Lemma C3_active_bounded_witness :
  let evs := [Scenario.choose Scenario.five;
              MW.start_clicked (Scenario.env_with [])] in
  MW.run evs (MW.__init__ 3) = Ok (Scenario.after 3 evs)
  /\ List.length (MW.active_processes (Scenario.after 3 evs)) = 2%nat
  /\ List.length (MW.conversion_queue (Scenario.after 3 evs)) = 3%nat
  /\ MW.max_concurrent_processes (Scenario.after 3 evs) = 2%Z.
Proof.
  intros evs.
  split; [vm_compute; reflexivity|].
  split; [vm_compute; reflexivity|].
  split; [vm_compute; reflexivity|].
  exact (proj1 (C3_active_bounded 3 evs (Scenario.after 3 evs)
                  ltac:(vm_compute; reflexivity))).
Defined.

(** ** Admission *)

(** C4: [start_next_processes] always returns; it moves the first
    min(N - active, queued) processes of the queue, in queue order, to the
    end of the active list and starts each of them, in that order; it stops
    only with the queue empty or the active list full.  Hence FIFO: when a
    job B of the queue is admitted, every job A queued before it is admitted
    too, earlier, and sits before B in the active list. *)
Theorem C4_admit_fifo :
  forall w : MW.t,
  exists w' : MW.t,
    MW.start_next_processes w = Ok w'
    /\ MW.active_processes w'
       = MW.active_processes w
         ++ map CP.started (firstn (admitted w) (MW.conversion_queue w))
    /\ MW.conversion_queue w' = skipn (admitted w) (MW.conversion_queue w)
    /\ MW.ui w'
       = MW.ui w
         ++ flat_map start_calls (firstn (admitted w) (MW.conversion_queue w))
    /\ (MW.conversion_queue w' = []
        \/ (MW.max_concurrent_processes w
            <= Z.of_nat (List.length (MW.active_processes w')))%Z)
    /\ (forall (i j : nat) (A B : CP.t),
           (i < j)%nat ->
           nth_error (MW.conversion_queue w) i = Some A ->
           nth_error (MW.conversion_queue w) j = Some B ->
           (j < admitted w)%nat ->
           nth_error (MW.active_processes w')
             (List.length (MW.active_processes w) + i) = Some (CP.started A)
           /\ nth_error (MW.active_processes w')
                (List.length (MW.active_processes w) + j)
              = Some (CP.started B))
    /\ (forall (j : nat) (B : CP.t),
           nth_error (MW.conversion_queue w) j = Some B ->
           (admitted w <= j)%nat ->
           nth_error (MW.conversion_queue w') (j - admitted w) = Some B).
Proof.
  intros w. eexists. split.
  { unfold MW.start_next_processes. apply start_next_loop_spec. reflexivity. }
  cbn [MW.active_processes MW.conversion_queue MW.ui
       MW.max_concurrent_processes].
  split; [reflexivity|]. split; [reflexivity|]. split; [reflexivity|].
  split; [|split].
  - destruct (Nat.le_gt_cases (List.length (MW.conversion_queue w))
                (admitted w)) as [Hall|Hsome].
    + left. apply skipn_all2. exact Hall.
    + right. rewrite length_app, length_map, length_firstn.
      unfold admitted in *. lia.
  - intros i j A B Hij HA HB Hj.
    assert (Hnth : forall n p,
               (n < admitted w)%nat ->
               nth_error (MW.conversion_queue w) n = Some p ->
               nth_error
                 (MW.active_processes w
                  ++ map CP.started
                       (firstn (admitted w) (MW.conversion_queue w)))
                 (List.length (MW.active_processes w) + n)
               = Some (CP.started p)).
    { intros n p Hn Hp.
      rewrite nth_error_app2 by lia.
      replace (List.length (MW.active_processes w) + n
               - List.length (MW.active_processes w))%nat with n by lia.
      rewrite nth_error_map, nth_error_firstn.
      destruct (Nat.ltb_spec n (admitted w)); [|lia].
      rewrite Hp. reflexivity. }
    split; apply Hnth; auto; lia.
  - intros j B HB Hj. rewrite nth_error_skipn.
    replace (admitted w + (j - admitted w))%nat with j by lia. exact HB.
Qed.

(** Five jobs queued, one active, limit three: the first two are admitted
    in order and the other three wait. *)
Lemma C4_admit_fifo_witness :
  let p := fun i => Scenario.job i "x.wav" Scenario.ten in
  let w := MW.mk Scenario.five "out" true [p 7%nat]
             [p 0%nat; p 1%nat; p 2%nat; p 3%nat; p 4%nat] 3 6 0 [] [] in
  exists w' : MW.t,
    MW.start_next_processes w = Ok w'
    /\ MW.active_processes w' = [p 7%nat; p 0%nat; p 1%nat]
    /\ MW.conversion_queue w' = [p 2%nat; p 3%nat; p 4%nat].
Proof.
  intros p w.
  destruct (C4_admit_fifo w) as [w' [H1 [H2 [H3 _]]]].
  exists w'. split; [exact H1|]. split.
  - rewrite H2. reflexivity.
  - rewrite H3. reflexivity.
Defined.

(** ** The counters of a run *)

Lemma fired_zero (w : MW.t) : fired 0 w = false.
Proof.
  unfold fired.
  destruct (Z.ltb_spec (MW.completed_files w) (MW.total_files w));
    [|reflexivity].
  destruct (Z.leb_spec (MW.total_files w)
              (MW.completed_files w + Z.of_nat 0)); [cbn in *; lia|].
  reflexivity.
Qed.

Lemma fired_one (w : MW.t) :
  fired 1 w = (MW.completed_files w + 1 =? MW.total_files w)%Z.
Proof.
  unfold fired.
  destruct (Z.ltb_spec (MW.completed_files w) (MW.total_files w));
    destruct (Z.leb_spec (MW.total_files w)
                (MW.completed_files w + Z.of_nat 1));
    destruct (Z.eqb_spec (MW.completed_files w + 1) (MW.total_files w));
    cbn in *; try reflexivity; lia.
Qed.

Lemma fired_below (n : nat) (w : MW.t) :
  (MW.completed_files w + Z.of_nat n < MW.total_files w)%Z ->
  fired n w = false.
Proof.
  intros H. unfold fired.
  destruct (Z.leb_spec (MW.total_files w)
              (MW.completed_files w + Z.of_nat n)); [lia|].
  apply andb_false_r.
Qed.

Lemma counts_refl (w : MW.t) : counts 0 w w.
Proof.
  unfold counts. rewrite fired_zero. repeat split; auto. cbn. lia.
Qed.

Lemma counts_trans (n m : nat) (w1 w2 w3 : MW.t) :
  counts n w1 w2 -> counts m w2 w3 -> counts (n + m) w1 w3.
Proof.
  intros (Ht1 & Hc1 & Hr1 & Hi1 & Hq1) (Ht2 & Hc2 & Hr2 & Hi2 & Hq2).
  assert (Hf : (fired n w1 = true /\ fired m w2 = false
                /\ fired (n + m) w1 = true)
               \/ (fired n w1 = false /\ fired m w2 = true
                   /\ fired (n + m) w1 = true)
               \/ (fired n w1 = false /\ fired m w2 = false
                   /\ fired (n + m) w1 = false)).
  { unfold fired. rewrite Ht1, Hc1.
    destruct (Z.ltb_spec (MW.completed_files w1) (MW.total_files w1));
      destruct (Z.leb_spec (MW.total_files w1)
                  (MW.completed_files w1 + Z.of_nat n));
      destruct (Z.ltb_spec (MW.completed_files w1 + Z.of_nat n)
                  (MW.total_files w1));
      destruct (Z.leb_spec (MW.total_files w1)
                  (MW.completed_files w1 + Z.of_nat n + Z.of_nat m));
      destruct (Z.leb_spec (MW.total_files w1)
                  (MW.completed_files w1 + Z.of_nat (n + m)));
      cbn [andb]; try lia; tauto. }
  unfold counts. split; [congruence|]. split; [lia|].
  destruct Hf as [(F1 & F2 & F3)|[(F1 & F2 & F3)|(F1 & F2 & F3)]];
    rewrite F1 in *; rewrite F2 in *; rewrite F3;
    (split; [lia|]); (split; [congruence|]);
    intros Hq; destruct (Hq1 Hq) as [Ha Hb];
    destruct (Hq2 Ha) as [Hc Hd]; split; congruence.
Qed.

(** A step that only calls widgets other than a launch or a report. *)
Lemma counts_call (c : MW.ui_call) (w : MW.t) :
  MW.is_report c = false -> is_launch c = false ->
  counts 0 w (MW.call c w).
Proof.
  intros Hr Hl. unfold counts. rewrite fired_zero.
  unfold MW.reports, launches. cbn.
  rewrite !filter_app. cbn. rewrite Hr, Hl. cbn. rewrite !app_nil_r.
  repeat split; auto; lia.
Qed.

Lemma start_calls_quiet (l : list CP.t) :
  filter MW.is_report (flat_map start_calls l) = [].
Proof. induction l as [|p l IH]; cbn; auto. Qed.

Lemma process_finished_counts (index : nat) (return_code : Z)
  (w w' : MW.t) :
  MW.process_finished index return_code w = Ok w' -> counts 1 w w'.
Proof.
  unfold MW.process_finished.
  cbn [MW.total_files MW.set_completed_files].
  destruct (MW.total_files w =? 0)%Z; [discriminate|].
  unfold MW.start_next_processes.
  rewrite (start_next_loop_spec _ _ eq_refl). cbn [bind].
  cbn [MW.completed_files MW.total_files MW.failed_files MW.set_completed_files
       MW.call MW.set_active_processes MW.files MW.output_folder
       MW.is_converting MW.active_processes MW.conversion_queue
       MW.max_concurrent_processes MW.ui MW.set_is_converting].
  unfold counts. rewrite fired_one.
  destruct (MW.completed_files w + 1 =? MW.total_files w)%Z eqn:Heq.
  - destruct (MW.failed_files w); intros H; inversion H; subst; clear H;
      unfold MW.reports, launches; cbn;
      (split; [reflexivity|]); (split; [reflexivity|]);
      (split; [rewrite !filter_app, start_calls_quiet; cbn;
               rewrite !app_nil_r, length_app; cbn; lia|]);
      (split; [reflexivity|]); intros Hq; rewrite Hq;
      rewrite firstn_nil, skipn_nil; cbn;
      rewrite !filter_app; cbn; rewrite !app_nil_r; auto.
  - intros H; inversion H; subst; clear H.
    unfold MW.reports, launches; cbn.
    split; [reflexivity|]. split; [reflexivity|]. split.
    + rewrite !filter_app, start_calls_quiet. cbn. rewrite !app_nil_r. lia.
    + split; [reflexivity|].
      intros Hq; rewrite Hq. rewrite firstn_nil, skipn_nil. cbn.
      rewrite !filter_app. cbn. rewrite !app_nil_r. auto.
Qed.

Lemma slot_counts (a : CP.action) (w w' : MW.t) :
  is_launch_action a = false ->
  MW.slot MW.process_finished a w = Ok w' -> counts (finishes [a]) w w'.
Proof.
  destruct a as [[i p|i s|i m|i x|i c]|i prog cmd]; cbn [MW.slot finishes];
    intros Hl.
  - intros H. apply update_progress_ok in H. destruct H as [-> _].
    apply counts_call; reflexivity.
  - intros H; inversion H; subst. apply counts_call; reflexivity.
  - unfold MW.handle_error. cbn [MW.files MW.call].
    destruct (nth_error (MW.files w) i); [|discriminate].
    intros H; inversion H; subst.
    unfold counts. rewrite fired_zero. unfold MW.reports, launches. cbn.
    rewrite !filter_app. cbn. rewrite !app_nil_r.
    repeat split; auto; lia.
  - intros H. apply update_info_ok in H. destruct H as [-> _].
    apply counts_call; reflexivity.
  - apply process_finished_counts.
  - discriminate.
Qed.

(** While the counter stays below the total: no report. *)
Lemma counts_below (n : nat) (w w' : MW.t) :
  counts n w w' ->
  MW.total_files w' = MW.total_files w
  /\ MW.completed_files w' = (MW.completed_files w + Z.of_nat n)%Z
  /\ ((MW.completed_files w + Z.of_nat n < MW.total_files w)%Z ->
      MW.reports w' = MW.reports w
      /\ MW.is_converting w' = MW.is_converting w)
  /\ (MW.conversion_queue w = [] ->
      MW.conversion_queue w' = [] /\ launches w' = launches w).
Proof.
  intros (Ht & Hc & Hr & Hi & Hq).
  split; [exact Ht|]. split; [exact Hc|]. split; [|exact Hq].
  intros Hlt. rewrite (fired_below n w Hlt) in Hr, Hi. split; [lia|exact Hi].
Qed.

Lemma fst_bindM (A B : Type) (c : CP.M A) (k : A -> CP.M B) :
  fst (CP.bindM c k)
  = fst c ++ match snd c with
             | Ok a => fst (k a)
             | Raise _ => []
             end.
Proof.
  destruct c as [done [a|e]]; cbn.
  - destruct (k a); reflexivity.
  - rewrite app_nil_r; reflexivity.
Qed.

Lemma telemetry_bindM (A B : Type) (c : CP.M A) (k : A -> CP.M B) :
  forallb telemetry (fst c) = true ->
  (forall a, forallb telemetry (fst (k a)) = true) ->
  forallb telemetry (fst (CP.bindM c k)) = true.
Proof.
  intros Hc Hk. rewrite fst_bindM, forallb_app, Hc.
  destruct (snd c); [apply Hk|reflexivity].
Qed.

Ltac telemetry_steps :=
  repeat first
    [ reflexivity
    | apply telemetry_bindM; [|intros ?]
    | match goal with
      | |- context [if ?b then _ else _] => destruct b
      end ].

Lemma parse_progress_telemetry (self : CP.t) (elapsed_time : Q)
  (line : string) :
  forallb telemetry (fst (CP.parse_progress self elapsed_time line)) = true.
Proof.
  unfold CP.parse_progress. telemetry_steps.
Qed.

Lemma read_output_telemetry (self : CP.t) (lines : list (Q * string)) :
  forallb telemetry (fst (CP.read_output self lines)) = true.
Proof.
  induction lines as [|[now line] rest IH]; cbn [CP.read_output].
  - reflexivity.
  - apply telemetry_bindM; [apply parse_progress_telemetry|intros _; exact IH].
Qed.

Lemma telemetry_finishes (actions : list CP.action) :
  forallb telemetry actions = true ->
  finishes actions = 0%nat
  /\ forallb (fun a => negb (is_launch_action a)) actions = true.
Proof.
  induction actions as [|a rest IH]; cbn; [auto|].
  intros H. apply andb_prop in H. destruct H as [Ha Hr].
  destruct (IH Hr) as [IH1 IH2].
  destruct a as [[i p|i s|i m|i x|i c]|i prog cmd]; cbn in *;
    try discriminate; auto.
Qed.

Lemma perform_counts (actions : list CP.action) :
  forall w w' : MW.t,
    forallb (fun a => negb (is_launch_action a)) actions = true ->
    MW.perform MW.process_finished actions w = Ok w' ->
    counts (finishes actions) w w'.
Proof.
  induction actions as [|a rest IH]; intros w w' Hl; cbn [MW.perform].
  - intros H; inversion H; subst. apply counts_refl.
  - cbn [forallb] in Hl. apply andb_prop in Hl. destruct Hl as [Ha Hr].
    destruct (MW.slot MW.process_finished a w) as [w1|] eqn:Hs;
      [|discriminate].
    cbn [bind]. intros H.
    apply slot_counts in Hs; [|destruct (is_launch_action a); auto;
                                discriminate].
    apply IH in H; [|exact Hr].
    replace (finishes (a :: rest)) with (finishes [a] + finishes rest)%nat.
    + eapply counts_trans; eassumption.
    + destruct a as [[i p|i s|i m|i x|i c]|i prog cmd]; reflexivity.
Qed.

Lemma step_counts (ev : MW.event) (w w' : MW.t) :
  process_event ev = true ->
  MW.step ev w = Ok w' ->
  counts (if exit_event ev then 1 else 0) w w'.
Proof.
  destruct ev as [v chosen| |e| |p lines|p code err|v join walk folder|rows];
    cbn [process_event];
    try discriminate; intros _; cbn [MW.step exit_event].
  - destruct (CP.read_output p lines) as [actions outcome] eqn:Hr.
    pose proof (read_output_telemetry p lines) as Ht.
    rewrite Hr in Ht. cbn [fst] in Ht.
    apply telemetry_finishes in Ht. destruct Ht as [Hf Hl].
    unfold MW.invoke.
    destruct (MW.perform MW.process_finished actions w) as [w1|] eqn:Hp;
      [|discriminate].
    cbn [bind]. destruct outcome; [|discriminate].
    cbn [bind snd]. intros H; inversion H; subst.
    rewrite <- Hf. apply perform_counts; assumption.
  - unfold MW.invoke, CP.process_finished.
    destruct (code =? 0)%Z; cbn [CP.bindM CP.do app];
      match goal with
      | |- context [MW.perform _ ?l w] =>
          destruct (MW.perform MW.process_finished l w) as [w1|] eqn:Hp;
          [|discriminate];
          cbn [bind snd]; intros H; inversion H; subst;
          apply (perform_counts l) in Hp; [exact Hp|reflexivity]
      end.
Qed.

Lemma run_counts (evs : list MW.event) :
  forall w w' : MW.t,
    forallb process_event evs = true ->
    MW.run evs w = Ok w' ->
    counts (exits evs) w w'.
Proof.
  induction evs as [|ev rest IH]; intros w w' Hp; cbn [MW.run].
  - intros H; inversion H; subst. apply counts_refl.
  - cbn [forallb] in Hp. apply andb_prop in Hp. destruct Hp as [He Hr].
    destruct (MW.step ev w) as [w1|] eqn:Hs; [|discriminate].
    cbn [bind]. intros H.
    apply step_counts in Hs; [|exact He].
    apply IH in H; [|exact Hr].
    replace (exits (ev :: rest))
      with ((if exit_event ev then 1 else 0) + exits rest)%nat.
    + eapply counts_trans; eassumption.
    + unfold exits. cbn [filter]. destruct (exit_event ev); reflexivity.
Qed.

(** ** Starting a run *)

Lemma validate_inputs_spec (e : MW.env) (w : MW.t) :
  let r := MW.validate_inputs e w in
  MW.is_converting (snd r) = MW.is_converting w
  /\ MW.files (snd r) = MW.files w
  /\ MW.reports (snd r) = MW.reports w
  /\ (fst r = true ->
      MW.output_folder (snd r) = MW.output_text e /\ MW.files w <> []).
Proof.
  unfold MW.validate_inputs, MW.reports.
  destruct (MW.files w) eqn:Hf.
  { cbn. rewrite filter_app. cbn. rewrite app_nil_r.
    repeat split; auto; discriminate. }
  destruct (String.eqb _ _).
  { cbn. rewrite filter_app. cbn. rewrite app_nil_r.
    repeat split; auto; discriminate. }
  destruct (negb (MW.path_exists _ _)).
  { cbn. rewrite filter_app. cbn. rewrite app_nil_r.
    repeat split; auto; discriminate. }
  destruct (negb (MW.ffmpeg_found e)); cbn.
  - rewrite filter_app. cbn. rewrite app_nil_r.
    repeat split; auto; discriminate.
  - repeat split; auto. discriminate.
Qed.

Lemma init_never_raises (ffprobe : string -> res string) (index : nat)
  (input_file output_file bitrate format : string) :
  exists duration : pynum,
    CP.get_duration ffprobe input_file = Ok duration
    /\ CP.__init__ ffprobe index input_file output_file bitrate format
       = Ok (CP.mk index input_file output_file bitrate format
               CP.MergedChannels false duration).
Proof.
  unfold CP.__init__, CP.get_duration.
  destruct (ffprobe input_file) as [stdout|x]; cbn [bind except_Exception].
  - destruct (float_of_str (strip stdout)) as [d|x];
      cbn [bind except_Exception]; eexists; split; reflexivity.
  - eexists; split; reflexivity.
Qed.

(** The [for] of [start_conversion]: it always completes, queues the
    files it does not skip and touches nothing else but the table. *)
Lemma enqueue_files_spec (e : MW.env) (inputs : list string) :
  forall (index : nat) (w : MW.t),
  (index + List.length inputs <= List.length (MW.files w))%nat ->
  exists w' : MW.t,
    MW.enqueue_files e index inputs w = Ok w'
    /\ MW.files w' = MW.files w
    /\ MW.is_converting w' = MW.is_converting w
    /\ MW.active_processes w' = MW.active_processes w
    /\ MW.max_concurrent_processes w' = MW.max_concurrent_processes w
    /\ MW.total_files w' = MW.total_files w
    /\ MW.completed_files w' = MW.completed_files w
    /\ MW.reports w' = MW.reports w
    /\ (List.length (MW.conversion_queue w')
        + skips e (MW.output_folder w) inputs
        = List.length (MW.conversion_queue w) + List.length inputs)%nat.
Proof.
  induction inputs as [|input_file rest IH]; intros index w Hrows;
    cbn [MW.enqueue_files].
  - exists w. unfold skips. cbn. repeat split; auto.
  - cbn [List.length] in Hrows.
    unfold skips. cbn [filter]. unfold skipped at 1.
    destruct (MW.path_exists e _ && negb (MW.overwrite_checked e)).
    + rewrite update_progress_100
        by (unfold MW.has_row; cbn [MW.update_status MW.call MW.files];
            apply Nat.ltb_lt; lia).
      cbn [bind].
      match goal with |- context [MW.enqueue_files e (S index) rest ?x] =>
        destruct (IH (S index) x)
          as (w' & H0 & H1 & H2 & H3 & H4 & H5 & H6 & H7 & H8);
        [cbn [MW.update_status MW.call MW.files]; lia|] end.
      exists w'. split; [exact H0|].
      unfold MW.reports in *. cbn in H7, H8.
      rewrite !filter_app in H7. cbn in H7. rewrite !app_nil_r in H7.
      repeat split; auto. cbn [List.length]. unfold skips in H8. lia.
    + destruct (init_never_raises (MW.ffprobe e) index input_file
                  (MW.output_path e (MW.output_folder w) input_file
                     (MW.format_text e))
                  (MW.bitrate_text e) (MW.format_text e))
        as (duration & _ & Hinit).
      rewrite Hinit. cbn [bind].
      match goal with |- context [MW.enqueue_files e (S index) rest ?x] =>
        destruct (IH (S index) x)
          as (w' & H0 & H1 & H2 & H3 & H4 & H5 & H6 & H7 & H8);
        [cbn [MW.set_conversion_queue MW.files]; lia|] end.
      exists w'. split; [exact H0|].
      cbn in H8. rewrite length_app in H8. cbn in H8.
      repeat split; auto. unfold skips in H8. cbn [List.length]. lia.
Qed.

(** A run that did start: the counters and the jobs it submitted. *)
Lemma start_conversion_started (e : MW.env) (w w1 : MW.t) :
  MW.is_converting w = false ->
  MW.start_conversion e w = Ok w1 ->
  MW.is_converting w1 = true ->
  MW.total_files w1 = Z.of_nat (List.length (MW.files w))
  /\ MW.completed_files w1 = 0%Z
  /\ MW.reports w1 = MW.reports w
  /\ MW.files w1 = MW.files w
  /\ (List.length (MW.active_processes w1)
      + List.length (MW.conversion_queue w1)
      + skips e (MW.output_text e) (MW.files w)
      = List.length (MW.files w))%nat
  /\ (0 < List.length (MW.files w))%nat.
Proof.
  intros Hidle. unfold MW.start_conversion. rewrite Hidle.
  pose proof (validate_inputs_spec e w) as (Hc & Hf & Hr & Ho).
  destruct (MW.validate_inputs e w) as [valid w0]. cbn [fst snd] in *.
  destruct valid; cbn [negb].
  2:{ intros H; inversion H; subst. congruence. }
  destruct (Ho eq_refl) as [Hout Hne]. clear Ho. rename Hout into Ho.
  match goal with |- context [MW.enqueue_files e 0 ?fs ?x] =>
    destruct (enqueue_files_spec e fs 0 x)
      as (w2 & H0 & H1 & H2 & H3 & H4 & H5 & H6 & H7 & H8);
    [apply Nat.le_refl|] end.
  rewrite H0. cbn [bind]. unfold MW.start_next_processes.
  rewrite (start_next_loop_spec _ _ eq_refl).
  intros H; inversion H; subst; clear H. intros _.
  cbn in H1, H3, H5, H6, H7, H8.
  unfold MW.reports in *. cbn [MW.ui MW.total_files MW.completed_files
    MW.files MW.active_processes MW.conversion_queue].
  rewrite filter_app, start_calls_quiet, app_nil_r.
  rewrite filter_app in H7. cbn in H7. rewrite app_nil_r in H7.
  rewrite H3. cbn [app]. rewrite length_map.
  rewrite Ho, Hf in *.
  split; [congruence|]. split; [assumption|]. split; [congruence|].
  split; [congruence|].
  pose proof (firstn_skipn (admitted w2) (MW.conversion_queue w2)) as Hsplit.
  apply (f_equal (@List.length _)) in Hsplit. rewrite length_app in Hsplit.
  split; [unfold skips in *; lia|].
  destruct (MW.files w); [congruence|cbn; lia].
Qed.

(** ** The batch report *)

(** A run in which no file is skipped: the report is made once, by the
    exit that brings the completed counter to the number of submitted
    jobs, and by no exit before it. *)
Lemma report_once_without_skips
  (e : MW.env) (w w1 w2 : MW.t) (evs : list MW.event) :
  MW.is_converting w = false ->
  MW.start_conversion e w = Ok w1 ->
  MW.is_converting w1 = true ->
  skips e (MW.output_text e) (MW.files w) = 0%nat ->
  forallb process_event evs = true ->
  MW.run evs w1 = Ok w2 ->
  ((exits evs < List.length (MW.active_processes w1)
                + List.length (MW.conversion_queue w1))%nat ->
   MW.reports w2 = MW.reports w /\ MW.is_converting w2 = true)
  /\ (exits evs = (List.length (MW.active_processes w1)
                   + List.length (MW.conversion_queue w1))%nat ->
      MW.reports w2 = S (MW.reports w) /\ MW.is_converting w2 = false).
Proof.
  intros Hidle Hstart Hconv Hskip Hevs Hrun.
  destruct (start_conversion_started e w w1 Hidle Hstart Hconv)
    as (Ht & Hc & Hr & _ & Hlen & Hpos).
  destruct (run_counts evs w1 w2 Hevs Hrun) as (_ & _ & Hr2 & Hi2 & _).
  split; intros Hn.
  - rewrite fired_below in Hr2, Hi2 by lia.
    split; [lia|congruence].
  - assert (Hf : fired (exits evs) w1 = true).
    { unfold fired. rewrite Hc, Ht.
      apply andb_true_intro. split; [apply Z.ltb_lt|apply Z.leb_le]; lia. }
    rewrite Hf in Hr2, Hi2. split; [lia|exact Hi2].
Qed.

(** C1: the report of a run with a skipped file.  [start_conversion] takes
    the number of listed files as the total and submits only the files it
    does not skip; the completed counter moves on job-finished events alone.
    So once a run has started with at least one file skipped, no exit of its
    submitted jobs, each exiting at most once, brings the report: the number
    of reports stays what it was, the completed counter stays below the total
    and the window stays in its converting state. *)
Theorem C1_skipped_file_blocks_report :
  forall (e : MW.env) (w w1 w2 : MW.t) (evs : list MW.event),
    MW.is_converting w = false ->
    MW.start_conversion e w = Ok w1 ->
    MW.is_converting w1 = true ->
    (0 < skips e (MW.output_text e) (MW.files w))%nat ->
    forallb process_event evs = true ->
    (exits evs <= List.length (MW.active_processes w1)
                  + List.length (MW.conversion_queue w1))%nat ->
    MW.run evs w1 = Ok w2 ->
    MW.reports w2 = MW.reports w
    /\ MW.is_converting w2 = true
    /\ (MW.completed_files w2 < MW.total_files w2)%Z.
Proof.
  intros e w w1 w2 evs Hidle Hstart Hconv Hskip Hevs Hexits Hrun.
  destruct (start_conversion_started e w w1 Hidle Hstart Hconv)
    as (Ht & Hc & Hr & _ & Hlen & _).
  destruct (counts_below _ _ _ (run_counts evs w1 w2 Hevs Hrun))
    as (Ht2 & Hc2 & Hr2 & _).
  assert (Hlt : (MW.completed_files w1 + Z.of_nat (exits evs)
                 < MW.total_files w1)%Z) by lia.
  destruct (Hr2 Hlt) as [Ha Hb].
  split; [congruence|]. split; [congruence|]. lia.
Qed.

(** Two files, the output of the first exists, overwrite is off: the second
    is converted and exits with code 0; nothing is left to run, no report
    has been made and the window is still converting. *)
Lemma C1_skipped_file_blocks_report_witness :
  let e := Scenario.env_with ["out/a.mp3"] in
  let w := Scenario.after 4 [Scenario.choose ["a.wav"; "b.wav"]] in
  let w1 := Scenario.value (MW.start_conversion e w) in
  let evs := [MW.process_exited (Scenario.job 1 "b.wav" Scenario.ten) 0 ""] in
  let w2 := Scenario.value (MW.run evs w1) in
  MW.start_conversion e w = Ok w1
  /\ MW.active_processes w1 = [Scenario.job 1 "b.wav" Scenario.ten]
  /\ MW.run evs w1 = Ok w2
  /\ MW.active_processes w2 = [] /\ MW.conversion_queue w2 = []
  /\ MW.reports w2 = 0%nat
  /\ MW.is_converting w2 = true
  /\ (MW.completed_files w2 < MW.total_files w2)%Z.
Proof.
  intros e w w1 evs w2.
  assert (Hstart : MW.start_conversion e w = Ok w1)
    by (vm_compute; reflexivity).
  assert (Hrun : MW.run evs w1 = Ok w2) by (vm_compute; reflexivity).
  split; [exact Hstart|]. split; [vm_compute; reflexivity|].
  split; [exact Hrun|].
  split; [vm_compute; reflexivity|]. split; [vm_compute; reflexivity|].
  exact (C1_skipped_file_blocks_report e w w1 w2 evs
           ltac:(vm_compute; reflexivity) Hstart
           ltac:(vm_compute; reflexivity)
           ltac:(vm_compute; lia)
           ltac:(vm_compute; reflexivity)
           ltac:(vm_compute; lia) Hrun).
Defined.

(** ** Stopping *)

Lemma kills_no_launch (l : list CP.t) :
  filter is_launch (map (fun p => MW.killed (CP.index p)) l) = [].
Proof. induction l as [|p l IH]; cbn; auto. Qed.

(** C2, as the code has it: [stop_conversion] kills every active process
    that is running, empties the queue, leaves the converting state and
    shows the stopped message, without a report and without a progress call;
    it leaves the active list and the counters as they are.  In what the
    processes make happen afterwards, the queue stays empty and nothing is
    launched, so a discarded job never runs and is never counted; the
    completed counter moves by one for each exit that still arrives, and no
    report is made while it stays below the total. *)
Theorem C2_stop_discards_queue :
  forall w : MW.t,
    MW.conversion_queue (MW.stop_conversion w) = []
    /\ MW.is_converting (MW.stop_conversion w) = false
    /\ MW.active_processes (MW.stop_conversion w) = MW.active_processes w
    /\ MW.completed_files (MW.stop_conversion w) = MW.completed_files w
    /\ MW.total_files (MW.stop_conversion w) = MW.total_files w
    /\ MW.failed_files (MW.stop_conversion w) = MW.failed_files w
    /\ MW.ui (MW.stop_conversion w)
       = MW.ui w
         ++ map (fun p => MW.killed (CP.index p))
              (filter CP.running (MW.active_processes w))
         ++ [MW.message_box MW.stopped_by_user]
    /\ (forall (evs : list MW.event) (w' : MW.t),
           forallb process_event evs = true ->
           MW.run evs (MW.stop_conversion w) = Ok w' ->
           MW.conversion_queue w' = []
           /\ launches w' = launches w
           /\ MW.total_files w' = MW.total_files w
           /\ MW.completed_files w'
              = (MW.completed_files w + Z.of_nat (exits evs))%Z
           /\ ((MW.completed_files w + Z.of_nat (exits evs)
                < MW.total_files w)%Z ->
               MW.reports w' = MW.reports w
               /\ MW.is_converting w' = false)).
Proof.
  intros w. rewrite stop_conversion_spec.
  cbn [MW.conversion_queue MW.is_converting MW.active_processes
       MW.completed_files MW.total_files MW.failed_files MW.ui].
  repeat (split; [reflexivity|]).
  intros evs w' Hevs Hrun.
  destruct (counts_below _ _ _ (run_counts evs _ _ Hevs Hrun))
    as (Ht & Hc & Hr & Hq).
  cbn [MW.conversion_queue MW.is_converting MW.active_processes
       MW.completed_files MW.total_files MW.failed_files MW.ui] in *.
  destruct (Hq eq_refl) as [Hq1 Hq2].
  split; [exact Hq1|]. split.
  - rewrite Hq2. unfold launches. cbn [MW.ui].
    rewrite !filter_app, kills_no_launch. cbn. rewrite app_nil_r.
    reflexivity.
  - split; [exact Ht|]. split; [exact Hc|].
    intros Hlt. destruct (Hr Hlt) as [Ha Hb]. split; [|exact Hb].
    rewrite Ha. unfold MW.reports. cbn [MW.ui].
    rewrite !filter_app.
    assert (Hk : forall l,
               filter MW.is_report
                 (map (fun p => MW.killed (CP.index p)) l) = []).
    { induction l; cbn; auto. }
    rewrite Hk. cbn. rewrite app_nil_r. reflexivity.
Qed.

(** Five files on four cores, stopped with three active and two queued;
    the three killed processes then report their exit: the two queued jobs
    were never launched, three exits were counted and no report was made. *)
Lemma C2_stop_discards_queue_witness :
  let w := Scenario.after 4 [Scenario.choose Scenario.five;
                             MW.start_clicked (Scenario.env_with [])] in
  let evs := [MW.process_exited (Scenario.job 0 "a.wav" Scenario.ten) 9 "";
              MW.process_exited (Scenario.job 1 "b.wav" Scenario.ten) 9 "";
              MW.process_exited (Scenario.job 2 "c.wav" Scenario.ten) 9 ""] in
  let w' := Scenario.value (MW.run evs (MW.stop_conversion w)) in
  List.length (MW.active_processes w) = 3%nat
  /\ List.length (MW.conversion_queue w) = 2%nat
  /\ MW.run evs (MW.stop_conversion w) = Ok w'
  /\ launches w' = launches w
  /\ MW.completed_files w' = 3%Z
  /\ MW.reports w' = 0%nat
  /\ MW.is_converting w' = false.
Proof.
  intros w evs w'.
  assert (Hrun : MW.run evs (MW.stop_conversion w) = Ok w')
    by (vm_compute; reflexivity).
  split; [vm_compute; reflexivity|]. split; [vm_compute; reflexivity|].
  split; [exact Hrun|].
  destruct (C2_stop_discards_queue w)
    as (_ & _ & _ & _ & _ & _ & _ & Hafter).
  destruct (Hafter evs w' ltac:(vm_compute; reflexivity) Hrun)
    as (_ & Hl & _ & Hc & Hr).
  split; [exact Hl|]. split; [exact Hc|].
  exact (Hr ltac:(vm_compute; reflexivity)).
Defined.

(** C2 as stated fails: a job that ends on its own while the user clicks
    stop has its exit handled after the stop.  One file, started, stopped,
    then the exit with code 0: after the stopped message come a progress
    call of 100 and the batch report. *)
Lemma C2_report_after_stop :
  let evs := [Scenario.choose ["a.wav"];
              MW.start_clicked (Scenario.env_with []);
              MW.stop_clicked;
              MW.process_exited (Scenario.job 0 "a.wav" Scenario.ten) 0 ""] in
  MW.active_processes
    (Scenario.after 4 [Scenario.choose ["a.wav"];
                       MW.start_clicked (Scenario.env_with [])])
  = [Scenario.job 0 "a.wav" Scenario.ten]
  /\ MW.run evs (MW.__init__ 4) = Ok (Scenario.after 4 evs)
  /\ MW.ui (Scenario.after 4 evs)
     = [MW.table_row "a.wav"; MW.overall_reset;
        MW.launched 0 "ffmpeg"
          ["-i"; "a.wav"; "-b:a"; "192k"; "-progress"; "pipe:1"; "-y";
           "out/a.mp3"];
        MW.table_status 0 "En proceso";
        MW.killed 0;
        MW.message_box MW.stopped_by_user;
        MW.table_status 0 "Completado";
        MW.bar_value 0 (Fin 100);
        MW.overall_value 1 1;
        MW.conversion_logged;
        MW.message_box MW.all_converted]
  /\ MW.reports (Scenario.after 4 evs) = 1%nat.
Proof.
  intros evs. split; [vm_compute; reflexivity|].
  split; [vm_compute; reflexivity|].
  split; vm_compute; reflexivity.
Qed.

(** ** Characters and strings *)

Lemma digit_cases (c : ascii) :
  is_digit c = true ->
  In c ["0"; "1"; "2"; "3"; "4"; "5"; "6"; "7"; "8"; "9"]%char.
Proof.
  destruct c as [[] [] [] [] [] [] [] []]; intros H;
    try discriminate H; cbn; tauto.
Qed.

Ltac digit_case c H :=
  apply digit_cases in H; cbn [In] in H;
  repeat (destruct H as [H|H]; [subst c|]); [..|contradiction].

Lemma digit_value_some (c : ascii) :
  is_digit c = true -> exists d, digit_value c = Some d /\ (0 <= d <= 9)%Z.
Proof.
  intros H. digit_case c H; eexists; (split; [vm_compute; reflexivity|lia]).
Qed.

Lemma field_char_plain (c : ascii) :
  field_char c = true ->
  is_space c = false
  /\ Ascii.eqb c ":" = false /\ Ascii.eqb c "." = false
  /\ Ascii.eqb c "=" = false /\ Ascii.eqb c "_" = false.
Proof.
  unfold field_char. intros H. apply orb_prop in H. destruct H as [H|H].
  - digit_case c H; repeat split; reflexivity.
  - apply Ascii.eqb_eq in H. subst c. repeat split; reflexivity.
Qed.

Lemma every_impl (P Q : ascii -> bool) (s : string) :
  (forall c, P c = true -> Q c = true) ->
  every P s = true -> every Q s = true.
Proof.
  intros HPQ. induction s as [|a s IH]; cbn; [auto|].
  intros H. apply andb_prop in H. destruct H as [Ha Hs].
  rewrite (HPQ a Ha), (IH Hs). reflexivity.
Qed.

Lemma every_append (P : ascii -> bool) (s t : string) :
  every P (s ++ t)%string = every P s && every P t.
Proof.
  induction s as [|a s IH]; cbn; [reflexivity|].
  rewrite IH, andb_assoc. reflexivity.
Qed.

Lemma digits_field (s : string) :
  all_digits s = true -> every field_char s = true.
Proof.
  apply every_impl. intros c H. unfold field_char. rewrite H. reflexivity.
Qed.

Lemma signed_field (negative : bool) (d : string) :
  all_digits d = true -> every field_char (signed negative d) = true.
Proof.
  intros H. unfold signed. destruct negative; cbn; apply digits_field, H.
Qed.

Lemma contains_none (x : ascii) (s : string) :
  every (fun c => negb (Ascii.eqb c x)) s = true -> contains x s = false.
Proof.
  induction s as [|a s IH]; cbn; [reflexivity|].
  intros H. apply andb_prop in H. destruct H as [Ha Hs].
  destruct (Ascii.eqb a x); [discriminate|]. apply IH, Hs.
Qed.

Lemma field_contains (s : string) :
  every field_char s = true ->
  contains ":" s = false /\ contains "." s = false
  /\ contains "=" s = false /\ contains "_" s = false.
Proof.
  intros H. repeat split; apply contains_none;
    (eapply every_impl; [|exact H]); intros c Hc;
    destruct (field_char_plain c Hc) as (_ & H1 & H2 & H3 & H4);
    rewrite ?H1, ?H2, ?H3, ?H4; reflexivity.
Qed.

(** *** [split] *)

Lemma split_none (sep : ascii) (s : string) :
  contains sep s = false -> split sep s = [s].
Proof.
  induction s as [|a s IH]; cbn; [reflexivity|].
  destruct (Ascii.eqb a sep); [discriminate|].
  intros H. rewrite (IH H). reflexivity.
Qed.

Lemma split_append (sep : ascii) (s t : string) :
  contains sep s = false ->
  split sep (s ++ String sep t)%string = s :: split sep t.
Proof.
  induction s as [|a s IH]; cbn.
  - rewrite Ascii.eqb_refl. reflexivity.
  - destruct (Ascii.eqb a sep); [discriminate|].
    intros H. rewrite (IH H). reflexivity.
Qed.

Lemma contains_append (x : ascii) (s t : string) :
  contains x (s ++ t)%string = contains x s || contains x t.
Proof.
  induction s as [|a s IH]; cbn; [reflexivity|].
  destruct (Ascii.eqb a x); [reflexivity|exact IH].
Qed.

(** *** [strip] *)

Lemma field_no_space (s : string) :
  every field_char s = true -> every (fun c => negb (is_space c)) s = true.
Proof.
  apply every_impl. intros c Hc.
  destruct (field_char_plain c Hc) as (H & _). rewrite H. reflexivity.
Qed.

(** The blanks of the numbers are blanks of [strip]. *)
Lemma num_space_space (c : ascii) : num_space c = true -> is_space c = true.
Proof.
  destruct c as [[] [] [] [] [] [] [] []]; intros H;
    try discriminate H; reflexivity.
Qed.

Lemma no_space_no_num_space (s : string) :
  every (fun c => negb (is_space c)) s = true ->
  every (fun c => negb (num_space c)) s = true.
Proof.
  apply every_impl. intros c Hc. destruct (num_space c) eqn:Hn;
    [|reflexivity].
  rewrite (num_space_space c Hn) in Hc. discriminate.
Qed.

Lemma rstrip_num_plain (s : string) :
  every (fun c => negb (num_space c)) s = true -> rstrip_num s = s.
Proof.
  induction s as [|a s IH]; cbn [rstrip_num every]; [reflexivity|].
  intros H. apply andb_prop in H. destruct H as [Ha Hs].
  rewrite (IH Hs). destruct s; [|reflexivity].
  destruct (num_space a); [discriminate|reflexivity].
Qed.

Lemma strip_num_plain (s : string) :
  every (fun c => negb (is_space c)) s = true -> strip_num s = s.
Proof.
  intros H. apply no_space_no_num_space in H. unfold strip_num.
  assert (Hl : lstrip_num s = s).
  { destruct s as [|a s]; cbn in *; [reflexivity|].
    destruct (num_space a); [discriminate|reflexivity]. }
  rewrite Hl. apply rstrip_num_plain, H.
Qed.

(** *** [int] on digits *)

Lemma int_digits_decimal (s : string) :
  forall acc : Z,
    all_digits s = true ->
    int_digits acc false s = Some (decimal_from acc s).
Proof.
  induction s as [|a s IH]; intros acc; cbn; [reflexivity|].
  intros H. apply andb_prop in H. destruct H as [Ha Hs].
  destruct (digit_value_some a Ha) as (d & Hd & _). rewrite Hd.
  apply IH, Hs.
Qed.

Lemma int_literal_decimal (s : string) :
  digits s -> int_literal s = Some (decimal s).
Proof.
  intros [Hall Hne]. destruct s as [|a s]; [congruence|].
  cbn in Hall. apply andb_prop in Hall. destruct Hall as [Ha Hs].
  unfold int_literal, decimal. cbn [decimal_from].
  destruct (digit_value_some a Ha) as (d & Hd & _). rewrite Hd.
  cbn. apply int_digits_decimal, Hs.
Qed.

Lemma int_of_str_signed (negative : bool) (d : string) :
  digits d -> int_of_str (signed negative d) = Ok (signed_value negative d).
Proof.
  intros Hd. pose proof Hd as [Hall Hne].
  unfold int_of_str.
  rewrite strip_num_plain by (apply field_no_space, signed_field, Hall).
  unfold signed, signed_value. destruct negative.
  - cbn. rewrite (int_literal_decimal _ Hd). reflexivity.
  - destruct d as [|a s]; [congruence|].
    assert (Ha : is_digit a = true).
    { cbn in Hall. apply andb_prop in Hall. tauto. }
    assert (Hlit : int_literal (String a s) = Some (decimal (String a s)))
      by (apply int_literal_decimal, Hd).
    revert Hlit. generalize (decimal (String a s)) as z. intros z Hlit.
    digit_case a Ha; rewrite Hlit; reflexivity.
Qed.

(** *** Decimal values *)

Lemma decimal_from_shift (s : string) :
  forall acc : Z,
    all_digits s = true ->
    decimal_from acc s
    = (acc * 10 ^ Z.of_nat (String.length s) + decimal s)%Z.
Proof.
  unfold decimal.
  induction s as [|a s IH]; intros acc; cbn [decimal_from String.length].
  - intros _. cbn. lia.
  - intros H. cbn in H. apply andb_prop in H. destruct H as [Ha Hs].
    destruct (digit_value_some a Ha) as (d & Hd & _). rewrite Hd.
    rewrite (IH (acc * 10 + d)%Z Hs), (IH (0 * 10 + d)%Z Hs).
    rewrite Nat2Z.inj_succ, Z.pow_succ_r by lia. ring.
Qed.

Lemma decimal_bounds (s : string) :
  all_digits s = true ->
  (0 <= decimal s < 10 ^ Z.of_nat (String.length s))%Z.
Proof.
  unfold decimal.
  induction s as [|a s IH]; cbn [decimal_from String.length].
  - intros _. cbn. lia.
  - intros H. cbn in H. apply andb_prop in H. destruct H as [Ha Hs].
    destruct (digit_value_some a Ha) as (d & Hd & Hr). rewrite Hd.
    rewrite (decimal_from_shift s _ Hs).
    specialize (IH Hs). unfold decimal in *.
    rewrite Nat2Z.inj_succ, Z.pow_succ_r by lia.
    assert (0 < 10 ^ Z.of_nat (String.length s))%Z
      by (apply Z.pow_pos_nonneg; lia).
    nia.
Qed.

Lemma fraction_bounds (f : string) :
  all_digits f = true -> 0 <= fraction f /\ fraction f < 1.
Proof.
  intros H. destruct (decimal_bounds f H) as [H0 H1].
  assert (Hp : (0 < 10 ^ Z.of_nat (String.length f))%Z)
    by (apply Z.pow_pos_nonneg; lia).
  unfold fraction, Qle, Qlt. cbn [Qnum Qden].
  rewrite Z2Pos.id by exact Hp. lia.
Qed.

(** *** The range of the floats *)

Lemma DBL_OVER_large : (1000 <= DBL_OVER)%Z.
Proof. vm_compute. discriminate. Qed.

(** *** Rounding to the nearest double *)

Lemma rint_cases (x : Q) :
  (rint x = Qfloor x /\ x - inject_Z (Qfloor x) <= 1 # 2)
  \/ (rint x = (Qfloor x + 1)%Z /\ 1 # 2 <= x - inject_Z (Qfloor x)).
Proof.
  unfold rint.
  destruct (Qcompare_spec (x - inject_Z (Qfloor x)) (1 # 2)) as [H|H|H].
  - destruct (Z.even (Qfloor x)); [left|right]; split; try reflexivity;
      rewrite H; apply Qle_refl.
  - left. split; [reflexivity|apply Qlt_le_weak, H].
  - right. split; [reflexivity|apply Qlt_le_weak, H].
Qed.

Lemma floor_bounds (x : Q) :
  inject_Z (Qfloor x) <= x /\ x < inject_Z (Qfloor x) + 1.
Proof.
  split; [apply Qfloor_le|].
  pose proof (Qlt_floor x) as H. rewrite inject_Z_plus in H. exact H.
Qed.

Lemma rint_half (x : Q) : Qabs (inject_Z (rint x) - x) <= 1 # 2.
Proof.
  destruct (floor_bounds x) as [H1 H2].
  apply Qabs_Qle_condition.
  destruct (rint_cases x) as [[-> H]|[-> H]];
    [|rewrite inject_Z_plus; change (inject_Z 1) with 1];
    split; lra.
Qed.

Lemma rint_comp (x y : Q) : x == y -> rint x = rint y.
Proof.
  intros H. unfold rint. rewrite (Qfloor_comp x y H).
  assert (Hc : Qcompare (x - inject_Z (Qfloor y)) (1 # 2)
               = Qcompare (y - inject_Z (Qfloor y)) (1 # 2)).
  { apply Qcompare_comp; [rewrite H|]; reflexivity. }
  rewrite Hc. reflexivity.
Qed.

Lemma rint_Z (k : Z) : rint (inject_Z k) = k.
Proof.
  unfold rint. rewrite Qfloor_Z.
  assert (H : Qcompare (inject_Z k - inject_Z k) (1 # 2) = Lt).
  { rewrite <- Qlt_alt. lra. }
  rewrite H. reflexivity.
Qed.

Lemma rint_mono (x y : Q) : x <= y -> (rint x <= rint y)%Z.
Proof.
  intros H. pose proof (Qfloor_resp_le x y H) as Hf.
  destruct (floor_bounds x) as [Hx1 Hx2].
  destruct (floor_bounds y) as [Hy1 Hy2].
  destruct (Z.eq_dec (Qfloor x) (Qfloor y)) as [He|Hne].
  - unfold rint. rewrite <- He.
    destruct (Qcompare_spec (x - inject_Z (Qfloor x)) (1 # 2)) as [H1|H1|H1];
      destruct (Qcompare_spec (y - inject_Z (Qfloor x)) (1 # 2)) as [H2|H2|H2];
      try (destruct (Z.even (Qfloor x))); try lia; exfalso; lra.
  - assert (Hlt : (Qfloor x + 1 <= Qfloor y)%Z) by lia.
    destruct (rint_cases x) as [[-> _]|[-> _]];
      destruct (rint_cases y) as [[-> _]|[-> _]]; lia.
Qed.

Lemma pow2_pos (e : Z) : 0 < 2 ^ e.
Proof. apply Qpower_0_lt. reflexivity. Qed.

Lemma pow2_succ (e : Z) : 2 ^ (e + 1) == 2 * 2 ^ e.
Proof.
  rewrite Qpower_plus by discriminate. rewrite Qmult_comm. reflexivity.
Qed.

Lemma pow2_le (a b : Z) : (a <= b)%Z -> 2 ^ a <= 2 ^ b.
Proof. intros H. apply Qpower_le_compat_l; [exact H|discriminate]. Qed.

Lemma pow2_lt_inv (a b : Z) : 2 ^ a < 2 ^ b -> (a < b)%Z.
Proof. intros H. apply (Qpower_lt_compat_l_inv 2); [exact H|reflexivity]. Qed.

Lemma log2_bounds (n : Z) :
  (0 < n)%Z ->
  2 ^ Z.log2 n <= inject_Z n /\ inject_Z n < 2 ^ (Z.log2 n + 1).
Proof.
  intros Hn. destruct (Z.log2_spec n Hn) as [H1 H2].
  pose proof (Z.log2_nonneg n) as H0.
  split.
  - rewrite <- (Zpower_Qpower 2) by exact H0.
    rewrite <- Zle_Qle. exact H1.
  - rewrite <- (Zpower_Qpower 2) by lia.
    rewrite <- Zlt_Qlt.
    replace (Z.log2 n + 1)%Z with (Z.succ (Z.log2 n)) by lia.
    exact H2.
Qed.

Lemma binade_spec (q : Q) :
  0 < q -> 2 ^ binade q <= q /\ q < 2 ^ (binade q + 1).
Proof.
  intros Hq. destruct q as [n d].
  assert (Hn : (0 < n)%Z).
  { unfold Qlt in Hq. cbn in Hq. lia. }
  destruct (log2_bounds n Hn) as [Hn1 Hn2].
  destruct (log2_bounds (Zpos d) eq_refl) as [Hd1 Hd2].
  unfold binade. cbn [Qnum Qden].
  set (a := Z.log2 n) in *. set (b := Z.log2 (Zpos d)) in *.
  assert (Hq' : n # d == inject_Z n / inject_Z (Zpos d)).
  { rewrite (Qmake_Qdiv n d). reflexivity. }
  assert (Hdpos : 0 < inject_Z (Zpos d)) by reflexivity.
  pose proof (pow2_pos a) as Pa. pose proof (pow2_pos b) as Pb.
  pose proof (pow2_pos (a - b)) as Pab.
  assert (Hsplit : 2 ^ a == 2 ^ (a - b) * 2 ^ b).
  { rewrite <- Qpower_plus by discriminate.
    replace (a - b + b)%Z with a by lia. reflexivity. }
  assert (Hmul : (n # d) * inject_Z (Zpos d) == inject_Z n).
  { rewrite Hq'. field. discriminate. }
  destruct (Qle_bool (2 ^ (a - b)) (n # d)) eqn:Ht.
  - apply Qle_bool_iff in Ht. split; [exact Ht|].
    rewrite pow2_succ.
    (* n < 2^(a+1) = 2 * 2^(a-b) * 2^b <= 2 * 2^(a-b) * d *)
    apply (Qmult_lt_r _ _ (inject_Z (Zpos d)) Hdpos).
    rewrite Hmul. rewrite pow2_succ in Hn2.
    eapply Qlt_le_trans; [exact Hn2|].
    rewrite Hsplit.
    rewrite <- !Qmult_assoc.
    apply Qmult_le_l; [reflexivity|].
    apply Qmult_le_l; [exact Pab|]. exact Hd1.
  - assert (Hlt : n # d < 2 ^ (a - b)).
    { apply Qnot_le_lt. intros H. apply Qle_bool_iff in H. congruence. }
    replace (a - b - 1 + 1)%Z with (a - b)%Z by lia.
    split; [|exact Hlt].
    (* 2^(a-b-1) * d < 2^(a-b-1) * 2^(b+1) = 2^a <= n *)
    apply (Qmult_le_r _ _ (inject_Z (Zpos d)) Hdpos).
    rewrite Hmul.
    eapply Qle_trans; [|exact Hn1].
    assert (Hs2 : 2 ^ a == 2 ^ (a - b - 1) * 2 ^ (b + 1)).
    { rewrite <- Qpower_plus by discriminate.
      replace (a - b - 1 + (b + 1))%Z with a by lia. reflexivity. }
    rewrite Hs2. apply Qmult_le_l; [apply pow2_pos|].
    apply Qlt_le_weak. exact Hd2.
Qed.

Lemma binade_unique (q : Q) (e : Z) :
  2 ^ e <= q -> q < 2 ^ (e + 1) -> binade q = e.
Proof.
  intros H1 H2.
  assert (Hq : 0 < q) by (eapply Qlt_le_trans; [apply (pow2_pos e)|exact H1]).
  destruct (binade_spec q Hq) as [B1 B2].
  assert ((e < binade q + 1)%Z).
  { apply pow2_lt_inv. eapply Qle_lt_trans; eassumption. }
  assert ((binade q < e + 1)%Z).
  { apply pow2_lt_inv. eapply Qle_lt_trans; eassumption. }
  lia.
Qed.

Lemma binade_comp (x y : Q) : 0 < x -> x == y -> binade x = binade y.
Proof.
  intros Hx H. destruct (binade_spec x Hx) as [B1 B2].
  symmetry. apply binade_unique; rewrite <- H; assumption.
Qed.

Lemma binade_mono (x y : Q) : 0 < x -> x <= y -> (binade x <= binade y)%Z.
Proof.
  intros Hx H. destruct (binade_spec x Hx) as [B1 _].
  destruct (binade_spec y) as [_ C2]; [lra|].
  assert ((binade x < binade y + 1)%Z); [|lia].
  apply pow2_lt_inv. lra.
Qed.

(** The positive case in closed form. *)
Lemma nearest_pos (q : Q) :
  0 < q ->
  nearest q == inject_Z (rint (q / 2 ^ (binade q - 52))) * 2 ^ (binade q - 52).
Proof.
  intros Hq. unfold nearest, Qzero, Qneg.
  assert (H0 : Qeq_bool q 0 = false).
  { destruct (Qeq_bool q 0) eqn:He; [|reflexivity].
    apply Qeq_bool_iff in He. lra. }
  assert (H1 : Qle_bool 0 q = true) by (apply Qle_bool_iff; lra).
  rewrite H0, H1. cbn [negb]. rewrite Qred_correct.
  assert (Ha : Qabs q == q) by (apply Qabs_pos; lra).
  rewrite (binade_comp (Qabs q) q) by (rewrite ?Ha; lra).
  rewrite (rint_comp (Qabs q / 2 ^ (binade q - 52)) (q / 2 ^ (binade q - 52)))
    by (rewrite Ha; reflexivity).
  reflexivity.
Qed.

Lemma nearest_zero (q : Q) : q == 0 -> nearest q == 0.
Proof.
  intros H. unfold nearest, Qzero.
  assert (H0 : Qeq_bool q 0 = true) by (apply Qeq_bool_iff; exact H).
  rewrite H0. reflexivity.
Qed.

Lemma nearest_neg (q : Q) : q < 0 -> nearest q == - nearest (- q).
Proof.
  intros Hq. rewrite (nearest_pos (- q)) by lra.
  unfold nearest, Qzero, Qneg.
  assert (H0 : Qeq_bool q 0 = false).
  { destruct (Qeq_bool q 0) eqn:He; [|reflexivity].
    apply Qeq_bool_iff in He. lra. }
  assert (H1 : Qle_bool 0 q = false).
  { destruct (Qle_bool 0 q) eqn:He; [|reflexivity].
    apply Qle_bool_iff in He. lra. }
  rewrite H0, H1. cbn [negb]. rewrite Qred_correct.
  assert (Ha : Qabs q == - q) by (apply Qabs_neg; lra).
  rewrite (binade_comp (Qabs q) (- q)) by (rewrite ?Ha; lra).
  rewrite (rint_comp (Qabs q / 2 ^ (binade (- q) - 52))
             (- q / 2 ^ (binade (- q) - 52)))
    by (rewrite Ha; reflexivity).
  reflexivity.
Qed.

(** Where the scaled value and its rounding lie. *)
Lemma scaled_bounds (q : Q) :
  0 < q ->
  let s := (binade q - 52)%Z in
  2 ^ 52 <= q / 2 ^ s /\ q / 2 ^ s < 2 ^ 53
  /\ (2 ^ 52 <= rint (q / 2 ^ s) <= 2 ^ 53)%Z.
Proof.
  intros Hq s. destruct (binade_spec q Hq) as [B1 B2].
  pose proof (pow2_pos s) as Ps.
  assert (He : 2 ^ binade q == 2 ^ 52 * 2 ^ s).
  { unfold s. rewrite <- Qpower_plus by discriminate.
    replace (52 + (binade q - 52))%Z with (binade q) by lia. reflexivity. }
  assert (He1 : 2 ^ (binade q + 1) == 2 ^ 53 * 2 ^ s).
  { unfold s. rewrite <- Qpower_plus by discriminate.
    replace (53 + (binade q - 52))%Z with (binade q + 1)%Z by lia.
    reflexivity. }
  assert (H1 : 2 ^ 52 <= q / 2 ^ s).
  { apply Qle_shift_div_l; [exact Ps|]. rewrite <- He. exact B1. }
  assert (H2 : q / 2 ^ s < 2 ^ 53).
  { apply Qlt_shift_div_r; [exact Ps|]. rewrite <- He1. exact B2. }
  split; [exact H1|]. split; [exact H2|].
  split.
  - rewrite <- (rint_Z (2 ^ 52)). apply rint_mono.
    rewrite (Zpower_Qpower 2 52) by lia. exact H1.
  - rewrite <- (rint_Z (2 ^ 53)). apply rint_mono.
    rewrite (Zpower_Qpower 2 53) by lia. apply Qlt_le_weak. exact H2.
Qed.

Lemma nearest_binade (q : Q) :
  0 < q -> 2 ^ binade q <= nearest q /\ nearest q <= 2 ^ (binade q + 1).
Proof.
  intros Hq. rewrite (nearest_pos q Hq).
  destruct (scaled_bounds q Hq) as (_ & _ & M1 & M2).
  set (s := (binade q - 52)%Z) in *.
  pose proof (pow2_pos s) as Ps.
  assert (He : 2 ^ binade q == 2 ^ 52 * 2 ^ s).
  { unfold s. rewrite <- Qpower_plus by discriminate.
    replace (52 + (binade q - 52))%Z with (binade q) by lia. reflexivity. }
  assert (He1 : 2 ^ (binade q + 1) == 2 ^ 53 * 2 ^ s).
  { unfold s. rewrite <- Qpower_plus by discriminate.
    replace (53 + (binade q - 52))%Z with (binade q + 1)%Z by lia.
    reflexivity. }
  rewrite He, He1. split; apply Qmult_le_r; try exact Ps.
  - rewrite <- (Zpower_Qpower 2 52) by lia. rewrite <- Zle_Qle. exact M1.
  - rewrite <- (Zpower_Qpower 2 53) by lia. rewrite <- Zle_Qle. exact M2.
Qed.

Lemma nearest_positive (q : Q) : 0 < q -> 0 < nearest q.
Proof.
  intros Hq. destruct (nearest_binade q Hq) as [H _].
  eapply Qlt_le_trans; [apply (pow2_pos (binade q))|exact H].
Qed.

Lemma nearest_negative (q : Q) : q < 0 -> nearest q < 0.
Proof.
  intros Hq. rewrite (nearest_neg q Hq).
  pose proof (nearest_positive (- q)) as H. lra.
Qed.

Lemma nearest_mono_pos (x y : Q) :
  0 < x -> x <= y -> nearest x <= nearest y.
Proof.
  intros Hx H. assert (Hy : 0 < y) by lra.
  pose proof (binade_mono x y Hx H) as He.
  destruct (Z.eq_dec (binade x) (binade y)) as [Heq|Hne].
  - rewrite (nearest_pos x Hx), (nearest_pos y Hy), Heq.
    apply Qmult_le_r; [apply pow2_pos|].
    rewrite <- Zle_Qle. apply rint_mono.
    apply Qmult_le_r; [apply Qinv_lt_0_compat, pow2_pos|exact H].
  - destruct (nearest_binade x Hx) as [_ U].
    destruct (nearest_binade y Hy) as [L _].
    eapply Qle_trans; [exact U|]. eapply Qle_trans; [|exact L].
    apply pow2_le. lia.
Qed.

Lemma nearest_comp (x y : Q) : x == y -> nearest x == nearest y.
Proof.
  intros H. destruct (Q_dec x 0) as [[Hx|Hx]|Hx].
  - rewrite (nearest_neg x Hx), (nearest_neg y) by lra.
    apply Qopp_comp. apply Qle_antisym; apply nearest_mono_pos; lra.
  - apply Qle_antisym; apply nearest_mono_pos; lra.
  - rewrite (nearest_zero x Hx), (nearest_zero y) by lra. reflexivity.
Qed.

Lemma nearest_mono (x y : Q) : x <= y -> nearest x <= nearest y.
Proof.
  intros H. destruct (Q_dec x 0) as [[Hx|Hx]|Hx].
  - destruct (Q_dec y 0) as [[Hy|Hy]|Hy].
    + rewrite (nearest_neg x Hx), (nearest_neg y Hy).
      assert (nearest (- y) <= nearest (- x)); [|lra].
      apply nearest_mono_pos; lra.
    + pose proof (nearest_negative x Hx). pose proof (nearest_positive y Hy).
      lra.
    + pose proof (nearest_negative x Hx). rewrite (nearest_zero y Hy). lra.
  - apply nearest_mono_pos; assumption.
  - rewrite (nearest_zero x Hx).
    destruct (Q_dec y 0) as [[Hy|Hy]|Hy]; [lra| |].
    + pose proof (nearest_positive y Hy). lra.
    + rewrite (nearest_zero y Hy). lra.
Qed.

(** The relative error of one rounding is at most 2 ^ -53. *)
Lemma nearest_error (q : Q) :
  Qabs (nearest q - q) <= Qabs q * (1 # 2 ^ 53).
Proof.
  assert (Hpos : forall x, 0 < x -> Qabs (nearest x - x) <= x * (1 # 2 ^ 53)).
  { intros x Hx. rewrite (nearest_pos x Hx).
    destruct (binade_spec x Hx) as [B1 _].
    set (s := (binade x - 52)%Z) in *.
    pose proof (pow2_pos s) as Ps.
    pose proof (rint_half (x / 2 ^ s)) as Hh.
    assert (He : 2 ^ binade x == 2 ^ 52 * 2 ^ s).
    { unfold s. rewrite <- Qpower_plus by discriminate.
      replace (52 + (binade x - 52))%Z with (binade x) by lia. reflexivity. }
    assert (Hd : inject_Z (rint (x / 2 ^ s)) * 2 ^ s - x
                 == (inject_Z (rint (x / 2 ^ s)) - x / 2 ^ s) * 2 ^ s).
    { field. lra. }
    rewrite Hd, Qabs_Qmult, (Qabs_pos (2 ^ s)) by lra.
    eapply Qle_trans.
    { apply Qmult_le_r; [exact Ps|exact Hh]. }
    rewrite He in B1.
    assert (H52 : (2:Q) ^ 52 == inject_Z (2 ^ 52)).
    { rewrite (Zpower_Qpower 2 52) by lia. reflexivity. }
    rewrite H52 in B1.
    assert (Hc : (1 # 2) * 2 ^ s == inject_Z (2 ^ 52) * 2 ^ s * (1 # 2 ^ 53)).
    { assert (Hk : inject_Z (2 ^ 52) * (1 # 2 ^ 53) == 1 # 2)
        by (vm_compute; reflexivity).
      rewrite <- Hk. ring. }
    rewrite Hc. apply Qmult_le_r; [reflexivity|exact B1]. }
  destruct (Q_dec q 0) as [[Hq|Hq]|Hq].
  - rewrite (nearest_neg q Hq), (Qabs_neg q) by lra.
    specialize (Hpos (- q)). 
    assert (Hs : - nearest (- q) - q == - (nearest (- q) - - q)) by ring.
    rewrite Hs, Qabs_opp. apply Hpos. lra.
  - rewrite (Qabs_pos q) by lra. apply Hpos, Hq.
  - rewrite (nearest_zero q Hq).
    assert (Hz : 0 - q == 0) by lra.
    rewrite Hz, Hq. cbn. discriminate.
Qed.

Lemma rint_below (x : Q) (k : Z) :
  x < inject_Z k + (1 # 2) -> (rint x <= k)%Z.
Proof.
  intros H. pose proof (rint_half x) as Hh.
  apply Qabs_Qle_condition in Hh. destruct Hh as [_ Hh].
  assert (Hlt : inject_Z (rint x) < inject_Z (k + 1)).
  { rewrite inject_Z_plus. change (inject_Z 1) with 1. lra. }
  rewrite <- Zlt_Qlt in Hlt. lia.
Qed.

Lemma pow2_Z (n : Z) : (0 <= n)%Z -> 2 ^ n == inject_Z (2 ^ n).
Proof. intros H. rewrite (Zpower_Qpower 2 n H). reflexivity. Qed.

(** A result below [DBL_OVER] rounds to the largest double at most. *)
Lemma nearest_below_over (q : Q) :
  0 < q -> q < inject_Z DBL_OVER -> nearest q <= inject_Z DBL_MAX.
Proof.
  intros Hq Hover.
  destruct (binade_spec q Hq) as [B1 B2].
  assert (He : (binade q < 1024)%Z).
  { apply pow2_lt_inv. eapply Qle_lt_trans; [exact B1|].
    eapply Qlt_le_trans; [exact Hover|].
    rewrite (pow2_Z 1024) by lia. rewrite <- Zle_Qle.
    vm_compute. discriminate. }
  destruct (Z.eq_dec (binade q) 1023) as [H1023|Hne].
  - rewrite (nearest_pos q Hq), H1023.
    change (1023 - 52)%Z with 971%Z.
    assert (Hx : q / 2 ^ 971 < inject_Z (2 ^ 53 - 1) + (1 # 2)).
    { apply Qlt_shift_div_r; [apply pow2_pos|].
      eapply Qlt_le_trans; [exact Hover|].
      rewrite (pow2_Z 971) by lia. vm_compute. discriminate. }
    apply rint_below in Hx.
    apply Qle_trans with (inject_Z (2 ^ 53 - 1) * 2 ^ 971).
    + apply Qmult_le_r; [apply pow2_pos|]. rewrite <- Zle_Qle. exact Hx.
    + rewrite (pow2_Z 971) by lia. vm_compute. discriminate.
  - destruct (nearest_binade q Hq) as [_ U].
    eapply Qle_trans; [exact U|].
    apply Qle_trans with (2 ^ 1023).
    + apply pow2_le. lia.
    + rewrite (pow2_Z 1023) by lia. rewrite <- Zle_Qle.
      vm_compute. discriminate.
Qed.

Lemma nearest_nonneg (q : Q) : 0 <= q -> 0 <= nearest q.
Proof.
  intros H. apply nearest_mono in H. rewrite (nearest_zero 0) in H;
    [exact H|reflexivity].
Qed.

Lemma nearest_one : nearest 1 == 1.
Proof. vm_compute. reflexivity. Qed.

Lemma nearest_hundred : nearest 100 == 100.
Proof. vm_compute. reflexivity. Qed.

(** A finite float of a result in range is the largest double at most. *)
Lemma nearest_range (q : Q) :
  Qabs q < inject_Z DBL_OVER -> Qabs (nearest q) <= inject_Z DBL_MAX.
Proof.
  intros H. destruct (Q_dec q 0) as [[Hq|Hq]|Hq].
  - rewrite (Qabs_neg q) in H by lra.
    rewrite (nearest_neg q Hq), Qabs_opp.
    pose proof (nearest_positive (- q)) as Hp.
    rewrite Qabs_pos by lra. apply nearest_below_over; lra.
  - rewrite (Qabs_pos q) in H by lra.
    pose proof (nearest_positive q Hq) as Hp.
    rewrite Qabs_pos by lra. apply nearest_below_over; lra.
  - rewrite (nearest_zero q Hq). vm_compute. discriminate.
Qed.

(** *** Finite results *)

Lemma round_float_finite (q : Q) :
  inject_Z (- DBL_OVER) < q -> q < inject_Z DBL_OVER ->
  round_float q = Fin (nearest q).
Proof.
  intros Hlo Hhi. unfold round_float.
  destruct (Qle_bool (inject_Z DBL_OVER) q) eqn:H1.
  { apply Qle_bool_iff in H1. exfalso.
    apply (Qlt_irrefl q). eapply Qlt_le_trans; eassumption. }
  destruct (Qle_bool q (inject_Z (- DBL_OVER))) eqn:H2.
  { apply Qle_bool_iff in H2. exfalso.
    apply (Qlt_irrefl q). eapply Qle_lt_trans; eassumption. }
  reflexivity.
Qed.

Lemma round_literal_finite (q : Q) :
  inject_Z (- DBL_OVER) < q -> q < inject_Z DBL_OVER ->
  round_literal q = Fin (nearest_double q).
Proof.
  intros Hlo Hhi. unfold round_literal.
  destruct (Qle_bool (inject_Z DBL_OVER) q) eqn:H1.
  { apply Qle_bool_iff in H1. exfalso.
    apply (Qlt_irrefl q). eapply Qlt_le_trans; eassumption. }
  destruct (Qle_bool q (inject_Z (- DBL_OVER))) eqn:H2.
  { apply Qle_bool_iff in H2. exfalso.
    apply (Qlt_irrefl q). eapply Qle_lt_trans; eassumption. }
  reflexivity.
Qed.

Lemma nearest_double_comp (x y : Q) :
  x == y -> nearest_double x == nearest_double y.
Proof.
  intros H. unfold nearest_double.
  assert (Hb : Qle_bool (2 ^ (-1022)) (Qabs x)
               = Qle_bool (2 ^ (-1022)) (Qabs y)).
  { destruct (Qle_bool (2 ^ (-1022)) (Qabs y)) eqn:Hy.
    - apply Qle_bool_iff. apply Qle_bool_iff in Hy. rewrite H. exact Hy.
    - destruct (Qle_bool (2 ^ (-1022)) (Qabs x)) eqn:Hx; [|reflexivity].
      apply Qle_bool_iff in Hx. rewrite H in Hx.
      apply Qle_bool_iff in Hx. congruence. }
  rewrite Hb. destruct (Qle_bool (2 ^ (-1022)) (Qabs y)).
  - apply nearest_comp, H.
  - rewrite !Qred_correct.
    rewrite (rint_comp (x * 2 ^ 1074) (y * 2 ^ 1074))
      by (rewrite H; reflexivity).
    reflexivity.
Qed.

(** Between 0 and 1 the nearest double stays between 0 and 1. *)
Lemma nearest_double_unit (q : Q) :
  0 <= q -> q <= 1 -> 0 <= nearest_double q /\ nearest_double q <= 1.
Proof.
  intros H0 H1. unfold nearest_double.
  destruct (Qle_bool (2 ^ (-1022)) (Qabs q)).
  - split; [apply nearest_nonneg, H0|].
    rewrite <- nearest_one. apply nearest_mono, H1.
  - rewrite Qred_correct.
    assert (Hp : 0 < 2 ^ 1074) by apply pow2_pos.
    assert (Hk : 2 ^ 1074 == inject_Z (2 ^ 1074)) by (apply pow2_Z; lia).
    assert (Hlo : (0 <= rint (q * 2 ^ 1074))%Z).
    { rewrite <- (rint_Z 0). apply rint_mono.
      change (inject_Z 0) with 0. nra. }
    assert (Hhi : (rint (q * 2 ^ 1074) <= 2 ^ 1074)%Z).
    { rewrite <- (rint_Z (2 ^ 1074)). apply rint_mono.
      rewrite <- Hk. nra. }
    rewrite Zle_Qle in Hlo, Hhi. change (inject_Z 0) with 0 in Hlo.
    rewrite <- Hk in Hhi.
    split.
    + apply Qle_shift_div_l; [exact Hp|]. rewrite Qmult_0_l. exact Hlo.
    + apply Qle_shift_div_r; [exact Hp|]. rewrite Qmult_1_l. exact Hhi.
Qed.

Lemma float_of_int_finite (z : Z) :
  (Z.abs z < DBL_OVER)%Z ->
  float_of_int z = Ok (Fin (nearest (inject_Z z))).
Proof.
  intros H. unfold float_of_int.
  destruct (DBL_OVER <=? Z.abs z)%Z eqn:Hle; [|reflexivity].
  apply Z.leb_le in Hle. lia.
Qed.

Lemma inject_Z_lt (a b : Z) : (a < b)%Z -> inject_Z a < inject_Z b.
Proof. intros H. rewrite <- Zlt_Qlt. exact H. Qed.

Lemma inject_Z_le (a b : Z) : (a <= b)%Z -> inject_Z a <= inject_Z b.
Proof. intros H. rewrite <- Zle_Qle. exact H. Qed.

(** An integer plus a fraction below one is in range with the integer. *)
Lemma int_plus_fraction_range (z : Z) (q : Q) :
  (Z.abs z + 1 <= DBL_OVER)%Z -> 0 <= q -> q < 1 ->
  inject_Z (- DBL_OVER) < inject_Z z + q
  /\ inject_Z z + q < inject_Z DBL_OVER.
Proof.
  intros Hz H0 H1. split.
  - apply Qlt_le_trans with (inject_Z z + 0).
    + rewrite Qplus_0_r. apply inject_Z_lt. lia.
    + apply Qplus_le_r. exact H0.
  - apply Qlt_le_trans with (inject_Z z + 1).
    + apply Qplus_lt_r. exact H1.
    + replace 1 with (inject_Z 1) by reflexivity.
      rewrite <- inject_Z_plus. apply inject_Z_le. lia.
Qed.

(** *** [float] on digits *)

Lemma span_digits_append (i : string) (c : ascii) (r : string) :
  forall (acc : Z) (n : nat),
    all_digits i = true -> digit_value c = None ->
    span_digits acc n (i ++ String c r)%string
    = (decimal_from acc i, (n + String.length i)%nat, String c r).
Proof.
  induction i as [|a i IH]; intros acc n; cbn [append span_digits
    decimal_from String.length].
  - intros _ Hc. rewrite Hc, Nat.add_0_r. reflexivity.
  - intros H Hc. cbn in H. apply andb_prop in H. destruct H as [Ha Hi].
    destruct (digit_value_some a Ha) as (d & Hd & _). rewrite Hd.
    rewrite (IH _ _ Hi Hc). f_equal. f_equal. lia.
Qed.

Lemma span_digits_all (f : string) :
  forall (acc : Z) (n : nat),
    all_digits f = true ->
    span_digits acc n f
    = (decimal_from acc f, (n + String.length f)%nat, EmptyString).
Proof.
  induction f as [|a f IH]; intros acc n; cbn [span_digits decimal_from
    String.length].
  - intros _. rewrite Nat.add_0_r. reflexivity.
  - intros H. cbn in H. apply andb_prop in H. destruct H as [Ha Hf].
    destruct (digit_value_some a Ha) as (d & Hd & _). rewrite Hd.
    rewrite (IH _ _ Hf). f_equal. f_equal. lia.
Qed.

Lemma underscores_ok_none (s : string) :
  forall prev : ascii,
    Ascii.eqb prev "_" = false -> contains "_" s = false ->
    underscores_ok prev s = true.
Proof.
  induction s as [|a s IH]; intros prev Hp; cbn [underscores_ok contains].
  - intros _. rewrite Hp. reflexivity.
  - destruct (Ascii.eqb a "_") eqn:Ha; [discriminate|].
    intros Hs. rewrite Hp. cbn. apply IH; assumption.
Qed.

Lemma remove_underscores_none (s : string) :
  contains "_" s = false -> remove_underscores s = s.
Proof.
  induction s as [|a s IH]; cbn [remove_underscores contains];
    [reflexivity|].
  destruct (Ascii.eqb a "_"); [discriminate|].
  intros H. rewrite (IH H). reflexivity.
Qed.

(** The literal [i.f]: the mantissa the parser builds and its scale. *)
Lemma float_literal_decimal (i f : string) :
  digits i -> all_digits f = true ->
  float_literal (i ++ String "." f)%string
  = Some (float_value false (decimal_from (decimal i) f)
            (- Z.of_nat (String.length f))).
Proof.
  intros [Hi Hne] Hf. unfold float_literal.
  assert (Hsign : take_sign (i ++ String "." f)%string
                  = (false, (i ++ String "." f)%string)
                  /\ (String.eqb (lower_str (i ++ String "." f)%string) "inf"
                      || String.eqb (lower_str (i ++ String "." f)%string)
                           "infinity")%bool = false
                  /\ String.eqb (lower_str (i ++ String "." f)%string) "nan"
                     = false).
  { destruct i as [|a i]; [congruence|].
    cbn in Hi. apply andb_prop in Hi. destruct Hi as [Ha _].
    digit_case a Ha; repeat split; reflexivity. }
  destruct Hsign as (Hs & Hinf & Hnan). rewrite Hs, Hinf, Hnan.
  rewrite (span_digits_append i "." f 0 0 Hi eq_refl).
  rewrite (span_digits_all f _ _ Hf).
  cbn [Nat.add].
  destruct (String.length i) eqn:Hlen.
  { destruct i; [congruence|discriminate]. }
  reflexivity.
Qed.

Lemma float_value_decimal (i f : string) :
  all_digits i = true -> all_digits f = true ->
  scale10 (decimal_from (decimal i) f) (- Z.of_nat (String.length f))
  == inject_Z (decimal i) + fraction f.
Proof.
  intros Hi Hf.
  assert (Hp : (0 < 10 ^ Z.of_nat (String.length f))%Z)
    by (apply Z.pow_pos_nonneg; lia).
  rewrite (decimal_from_shift f _ Hf).
  unfold scale10, fraction.
  destruct (0 <=? - Z.of_nat (String.length f))%Z eqn:Hz.
  - apply Z.leb_le in Hz.
    assert (Hl : Z.of_nat (String.length f) = 0%Z) by lia.
    rewrite Hl. cbn [Z.opp Z.pow Z.pow_pos Pos.iter Z.to_pos].
    unfold Qeq, Qplus. cbn [Qnum Qden inject_Z]. cbn. lia.
  - rewrite Z.opp_involutive.
    unfold Qeq, Qplus. cbn [Qnum Qden inject_Z].
    rewrite Pos2Z.inj_mul. rewrite !Z2Pos.id by exact Hp.
    ring.
Qed.

Lemma float_of_str_decimal (i f : string) :
  digits i -> all_digits f = true ->
  (Z.abs (decimal i) + 1 <= DBL_OVER)%Z ->
  exists q : Q,
    float_of_str (i ++ String "." f)%string = Ok (Fin q)
    /\ q == nearest_double (inject_Z (decimal i) + fraction f).
Proof.
  intros Hi Hf Hrange. pose proof Hi as [Hall _].
  assert (Hplain : every (fun c => negb (is_space c))
                     (i ++ String "." f)%string = true).
  { rewrite every_append. cbn [every].
    rewrite (field_no_space _ (digits_field _ Hall)),
            (field_no_space _ (digits_field _ Hf)). reflexivity. }
  assert (Hus : contains "_" (i ++ String "." f)%string = false).
  { rewrite contains_append. cbn [contains].
    destruct (field_contains _ (digits_field _ Hall)) as (_ & _ & _ & H1).
    destruct (field_contains _ (digits_field _ Hf)) as (_ & _ & _ & H2).
    rewrite H1, H2. reflexivity. }
  unfold float_of_str. rewrite (strip_num_plain _ Hplain).
  rewrite (underscores_ok_none _ "000" eq_refl Hus).
  rewrite (remove_underscores_none _ Hus).
  rewrite (float_literal_decimal i f Hi Hf).
  unfold float_value.
  pose proof (float_value_decimal _ _ Hall Hf) as Hq.
  destruct (fraction_bounds f Hf) as [H0 H1].
  destruct (int_plus_fraction_range (decimal i) _ Hrange H0 H1) as [Hlo Hhi].
  rewrite <- Hq in Hlo, Hhi.
  rewrite (round_literal_finite _ Hlo Hhi).
  eexists. split; [reflexivity|apply nearest_double_comp, Hq].
Qed.

(** ** Timestamps *)

Lemma int_of_str_raises (s : string) (x : exn) :
  int_of_str s = Raise x -> x = ValueError.
Proof.
  unfold int_of_str.
  match goal with |- match ?m with _ => _ end = _ -> _ => destruct m end;
    congruence.
Qed.

Lemma float_of_str_raises (s : string) (x : exn) :
  float_of_str s = Raise x -> x = ValueError.
Proof.
  unfold float_of_str. destruct (underscores_ok _ _); [|congruence].
  destruct (float_literal _); congruence.
Qed.

Lemma string_append_assoc (a b c : string) :
  ((a ++ b) ++ c)%string = (a ++ (b ++ c))%string.
Proof.
  induction a as [|x a IH]; cbn [append]; [reflexivity|].
  rewrite IH. reflexivity.
Qed.

Lemma split_fields (f1 f2 f3 : string) :
  every field_char f1 = true -> every field_char f2 = true ->
  every field_char f3 = true ->
  split ":" (f1 ++ ":" ++ f2 ++ ":" ++ f3)%string = [f1; f2; f3].
Proof.
  intros H1 H2 H3.
  destruct (field_contains f1 H1) as (C1 & _).
  destruct (field_contains f2 H2) as (C2 & _).
  destruct (field_contains f3 H3) as (C3 & _).
  cbn [append].
  rewrite (split_append ":" f1 _ C1), (split_append ":" f2 _ C2),
          (split_none ":" f3 C3).
  reflexivity.
Qed.

Lemma fields_no_dot (f1 f2 f3 : string) :
  every field_char f1 = true -> every field_char f2 = true ->
  every field_char f3 = true ->
  contains "." (f1 ++ ":" ++ f2 ++ ":" ++ f3)%string = false
  /\ contains "=" (f1 ++ ":" ++ f2 ++ ":" ++ f3)%string = false.
Proof.
  intros H1 H2 H3.
  destruct (field_contains f1 H1) as (_ & D1 & E1 & _).
  destruct (field_contains f2 H2) as (_ & D2 & E2 & _).
  destruct (field_contains f3 H3) as (_ & D3 & E3 & _).
  cbn [append]. rewrite !contains_append. cbn [contains].
  rewrite !contains_append. cbn [contains].
  rewrite D1, D2, D3, E1, E2, E3. split; reflexivity.
Qed.

(** Three optionally negative integer fields: the arithmetic sum. *)
Lemma seconds_of_signed_fields (n1 n2 n3 : bool) (d1 d2 d3 : string) :
  digits d1 -> digits d2 -> digits d3 ->
  CP.ffmpeg_time_to_seconds
    (signed n1 d1 ++ ":" ++ signed n2 d2 ++ ":" ++ signed n3 d3)%string
  = Ok (PInt (signed_value n1 d1 * 3600 + signed_value n2 d2 * 60
              + signed_value n3 d3)).
Proof.
  intros H1 H2 H3.
  pose proof (signed_field n1 d1 (proj1 H1)) as F1.
  pose proof (signed_field n2 d2 (proj1 H2)) as F2.
  pose proof (signed_field n3 d3 (proj1 H3)) as F3.
  destruct (fields_no_dot _ _ _ F1 F2 F3) as [Hdot _].
  unfold CP.ffmpeg_time_to_seconds. rewrite Hdot. cbn [bind].
  rewrite (split_fields _ _ _ F1 F2 F3).
  rewrite (int_of_str_signed n1 d1 H1), (int_of_str_signed n2 d2 H2),
          (int_of_str_signed n3 d3 H3).
  cbn [bind add except_ValueError]. rewrite Z.add_0_r. reflexivity.
Qed.

(** The same with a fraction of digits after a dot. *)
Lemma seconds_with_fraction (d1 d2 d3 f : string) :
  digits d1 -> digits d2 -> digits d3 -> all_digits f = true ->
  (decimal d1 * 3600 + decimal d2 * 60 + decimal d3 + 1 <= DBL_OVER)%Z ->
  exists q : Q,
    CP.ffmpeg_time_to_seconds
      (d1 ++ ":" ++ d2 ++ ":" ++ d3 ++ "." ++ f)%string
    = Ok (PFloat (Fin q))
    /\ q == nearest
              (nearest
                 (inject_Z
                    (decimal d1 * 3600 + decimal d2 * 60 + decimal d3))
               + nearest_double (fraction f)).
Proof.
  intros H1 H2 H3 Hf Hrange.
  pose proof (digits_field d1 (proj1 H1)) as F1.
  pose proof (digits_field d2 (proj1 H2)) as F2.
  pose proof (digits_field d3 (proj1 H3)) as F3.
  destruct (fields_no_dot _ _ _ F1 F2 F3) as [Hdot _].
  destruct (field_contains f (digits_field f Hf)) as (_ & Hfdot & _).
  set (hms := (d1 ++ ":" ++ d2 ++ ":" ++ d3)%string) in *.
  assert (Hs : (d1 ++ ":" ++ d2 ++ ":" ++ d3 ++ "." ++ f)%string
               = (hms ++ String "." f)%string).
  { subst hms. cbn [append].
    rewrite string_append_assoc. cbn [append].
    rewrite string_append_assoc. reflexivity. }
  rewrite Hs. unfold CP.ffmpeg_time_to_seconds.
  rewrite contains_append. cbn [contains Ascii.eqb Bool.eqb].
  rewrite orb_true_r.
  rewrite (split_append "." hms f Hdot), (split_none "." f Hfdot).
  destruct (float_of_str_decimal "0" f) as (qf & Hfloat & Hqf);
    [split; [reflexivity|discriminate] | exact Hf
    | change (decimal "0") with 0%Z; pose proof DBL_OVER_large; lia |].
  cbn [append] in Hfloat. cbn [append]. rewrite Hfloat. cbn [bind].
  subst hms. rewrite (split_fields _ _ _ F1 F2 F3).
  pose proof (int_of_str_signed false d1 H1) as I1.
  pose proof (int_of_str_signed false d2 H2) as I2.
  pose proof (int_of_str_signed false d3 H3) as I3.
  unfold signed, signed_value in I1, I2, I3. rewrite I1, I2, I3.
  cbn [bind add lift2 to_float].
  destruct (decimal_bounds d1 (proj1 H1)) as [B1 _].
  destruct (decimal_bounds d2 (proj1 H2)) as [B2 _].
  destruct (decimal_bounds d3 (proj1 H3)) as [B3 _].
  set (n := (decimal d1 * 3600 + decimal d2 * 60 + decimal d3)%Z) in *.
  unfold lift2, to_float.
  rewrite (float_of_int_finite n) by lia. cbn [bind fadd].
  destruct (fraction_bounds f Hf) as [Q0 Q1].
  assert (Hqf' : qf == nearest_double (fraction f)).
  { rewrite Hqf. apply nearest_double_comp. change (decimal "0") with 0%Z.
    change (inject_Z 0) with 0. apply Qplus_0_l. }
  assert (Hunit : 0 <= qf /\ qf <= 1).
  { rewrite Hqf'. apply nearest_double_unit; [exact Q0|lra]. }
  destruct Hunit as [Hq0 Hq1].
  assert (Hn0 : 0 <= nearest (inject_Z n)).
  { apply nearest_nonneg. change 0 with (inject_Z 0). apply inject_Z_le.
    lia. }
  assert (Hn1 : nearest (inject_Z n) <= inject_Z DBL_MAX).
  { pose proof (nearest_range (inject_Z n)) as Hr.
    rewrite !Qabs_pos in Hr; [apply Hr, inject_Z_lt; lia|exact Hn0|].
    change 0 with (inject_Z 0). apply inject_Z_le. lia. }
  assert (Hgap : inject_Z DBL_MAX + 1 < inject_Z DBL_OVER)
    by (vm_compute; reflexivity).
  assert (Hneg : inject_Z (- DBL_OVER) < 0) by (vm_compute; reflexivity).
  rewrite (round_float_finite (nearest (inject_Z n) + qf)) by lra.
  cbn [except_ValueError].
  eexists. split; [reflexivity|]. apply nearest_comp. rewrite Hqf'.
  reflexivity.
Qed.

(** No [ValueError] leaves the function; what can leave it is the
    [OverflowError] of an int too large for a float, with a fraction. *)
Lemma seconds_raises (time_str : string) (x : exn) :
  CP.ffmpeg_time_to_seconds time_str = Raise x ->
  x = OverflowError /\ contains "." time_str = true.
Proof.
  unfold CP.ffmpeg_time_to_seconds.
  destruct (contains "." time_str) eqn:Hdot.
  - destruct (split "." time_str) as [|hms [|ms [|]]];
      cbn [bind except_ValueError]; try discriminate.
    destruct (float_of_str _) as [frac|y] eqn:Hfl; cbn [bind].
    2:{ apply float_of_str_raises in Hfl. subst y. discriminate. }
    destruct (split ":" hms) as [|h [|m [|s [|]]]];
      cbn [except_ValueError]; try discriminate.
    destruct (int_of_str h) as [zh|y] eqn:Hh; cbn [bind].
    2:{ apply int_of_str_raises in Hh. subst y. discriminate. }
    destruct (int_of_str m) as [zm|y] eqn:Hm; cbn [bind].
    2:{ apply int_of_str_raises in Hm. subst y. discriminate. }
    destruct (int_of_str s) as [zs|y] eqn:Hs; cbn [bind].
    2:{ apply int_of_str_raises in Hs. subst y. discriminate. }
    cbn [add]. unfold lift2, to_float, float_of_int.
    destruct (DBL_OVER <=? _)%Z; cbn [bind except_ValueError].
    + intros H; inversion H; subst. auto.
    + discriminate.
  - cbn [bind].
    destruct (split ":" time_str) as [|h [|m [|s [|]]]];
      cbn [except_ValueError]; try discriminate.
    destruct (int_of_str h) as [zh|y] eqn:Hh; cbn [bind].
    2:{ apply int_of_str_raises in Hh. subst y. discriminate. }
    destruct (int_of_str m) as [zm|y] eqn:Hm; cbn [bind].
    2:{ apply int_of_str_raises in Hm. subst y. discriminate. }
    destruct (int_of_str s) as [zs|y] eqn:Hs; cbn [bind].
    2:{ apply int_of_str_raises in Hs. subst y. discriminate. }
    cbn [add except_ValueError]. discriminate.
Qed.

Lemma length_split (sep : ascii) (s : string) :
  List.length (split sep s) = S (count sep s).
Proof.
  induction s as [|a s IH]; cbn [split count]; [reflexivity|].
  destruct (Ascii.eqb a sep); cbn [List.length Nat.add].
  - rewrite IH. reflexivity.
  - destruct (split sep s); cbn in *; lia.
Qed.

Lemma count_contains (sep : ascii) (s : string) :
  (0 < count sep s)%nat -> contains sep s = true.
Proof.
  induction s as [|a s IH]; cbn [count contains]; [lia|].
  destruct (Ascii.eqb a sep); [reflexivity|]. cbn. exact IH.
Qed.

(** More than one dot: rejected, so 0. *)
Lemma seconds_two_dots (time_str : string) :
  (2 <= count "." time_str)%nat ->
  CP.ffmpeg_time_to_seconds time_str = Ok (PInt 0).
Proof.
  intros H. unfold CP.ffmpeg_time_to_seconds.
  rewrite (count_contains "." time_str) by lia.
  pose proof (length_split "." time_str) as Hl.
  destruct (split "." time_str) as [|hms [|ms [|]]]; cbn in Hl; try lia;
    reflexivity.
Qed.

(** The conversion is 0, or what the three fields before the dot give with
    some fraction [ms]. *)
Lemma seconds_by_fields (time_str : string) :
  CP.ffmpeg_time_to_seconds time_str = Ok (PInt 0)
  \/ exists ms : pynum,
       CP.ffmpeg_time_to_seconds time_str
       = except_ValueError
           match split ":" (before_dot time_str) with
           | [h; m; s] =>
               bind (int_of_str h) (fun h =>
               bind (int_of_str m) (fun m =>
               bind (int_of_str s) (fun s =>
               add (PInt (h * 3600 + m * 60 + s)) ms)))
           | _ => Raise ValueError
           end (Ok (PInt 0)).
Proof.
  unfold CP.ffmpeg_time_to_seconds, before_dot.
  destruct (contains "." time_str) eqn:Hdot.
  - destruct (split "." time_str) as [|hms [|ms [|]]]; try (left; reflexivity).
    cbn [hd].
    destruct (float_of_str ("0." ++ ms)) as [frac|x] eqn:Hfl; cbn [bind].
    + right. exists (PFloat frac). reflexivity.
    + apply float_of_str_raises in Hfl. subst x. left. reflexivity.
  - rewrite (split_none "." time_str Hdot). cbn [hd bind].
    right. exists (PInt 0). reflexivity.
Qed.

(** Anything but three colon-separated fields before the dot: rejected. *)
Lemma seconds_wrong_fields (time_str : string) :
  count ":" (before_dot time_str) <> 2%nat ->
  CP.ffmpeg_time_to_seconds time_str = Ok (PInt 0).
Proof.
  intros H. destruct (seconds_by_fields time_str) as [H0|[ms Hms]];
    [exact H0|].
  rewrite Hms. pose proof (length_split ":" (before_dot time_str)) as Hl.
  destruct (split ":" (before_dot time_str)) as [|h [|m [|s [|]]]];
    cbn in Hl; try lia; reflexivity.
Qed.

(** Three fields of which one is no integer literal: rejected. *)
Lemma seconds_bad_field (time_str h m s : string) :
  split ":" (before_dot time_str) = [h; m; s] ->
  int_of_str h = Raise ValueError \/ int_of_str m = Raise ValueError
  \/ int_of_str s = Raise ValueError ->
  CP.ffmpeg_time_to_seconds time_str = Ok (PInt 0).
Proof.
  intros Hsplit H. destruct (seconds_by_fields time_str) as [H0|[ms Hms]];
    [exact H0|].
  rewrite Hms, Hsplit.
  destruct (int_of_str h) as [zh|y] eqn:Hh; cbn [bind].
  2:{ apply int_of_str_raises in Hh. subst y. reflexivity. }
  destruct (int_of_str m) as [zm|y] eqn:Hm; cbn [bind].
  2:{ apply int_of_str_raises in Hm. subst y. reflexivity. }
  destruct (int_of_str s) as [zs|y] eqn:Hs; cbn [bind].
  2:{ apply int_of_str_raises in Hs. subst y. reflexivity. }
  destruct H as [H|[H|H]]; discriminate.
Qed.

Lemma split_two_contains (sep : ascii) (s a b : string) :
  split sep s = [a; b] -> contains sep s = true.
Proof.
  intros H. apply count_contains. pose proof (length_split sep s) as Hl.
  rewrite H in Hl. cbn in Hl. lia.
Qed.

(** What follows the dot is no fraction for [float]: rejected. *)
Lemma seconds_bad_fraction (time_str hms ms : string) :
  split "." time_str = [hms; ms] ->
  float_of_str ("0." ++ ms) = Raise ValueError ->
  CP.ffmpeg_time_to_seconds time_str = Ok (PInt 0).
Proof.
  intros Hsplit Hfl. unfold CP.ffmpeg_time_to_seconds.
  rewrite (split_two_contains _ _ _ _ Hsplit), Hsplit, Hfl. reflexivity.
Qed.

(** Three fields that [int] accepts, no dot: the arithmetic sum. *)
Lemma seconds_of_ints (time_str h m s : string) (zh zm zs : Z) :
  contains "." time_str = false ->
  split ":" time_str = [h; m; s] ->
  int_of_str h = Ok zh -> int_of_str m = Ok zm -> int_of_str s = Ok zs ->
  CP.ffmpeg_time_to_seconds time_str
  = Ok (PInt (zh * 3600 + zm * 60 + zs)).
Proof.
  intros Hdot Hsplit Hh Hm Hs. unfold CP.ffmpeg_time_to_seconds.
  rewrite Hdot. cbn [bind]. rewrite Hsplit, Hh, Hm, Hs.
  cbn [bind add except_ValueError]. rewrite Z.add_0_r. reflexivity.
Qed.

Lemma add_float_raises (z : Z) (f : pyfloat) (x : exn) :
  add (PInt z) (PFloat f) = Raise x -> x = OverflowError.
Proof.
  cbn [add]. unfold lift2, to_float, float_of_int.
  destruct (DBL_OVER <=? Z.abs z)%Z; cbn [bind]; congruence.
Qed.

(** The same with a fraction that [float] accepts: the sum as the addition
    of an int and a float gives it. *)
Lemma seconds_of_ints_fraction (time_str hms ms h m s : string)
    (zh zm zs : Z) (frac : pyfloat) :
  split "." time_str = [hms; ms] ->
  float_of_str ("0." ++ ms) = Ok frac ->
  split ":" hms = [h; m; s] ->
  int_of_str h = Ok zh -> int_of_str m = Ok zm -> int_of_str s = Ok zs ->
  CP.ffmpeg_time_to_seconds time_str
  = add (PInt (zh * 3600 + zm * 60 + zs)) (PFloat frac).
Proof.
  intros Hsplit Hfl Hhms Hh Hm Hs.
  pose proof (split_two_contains _ _ _ _ Hsplit) as Hdot.
  unfold CP.ffmpeg_time_to_seconds.
  rewrite Hdot, Hsplit, Hfl. cbn [bind]. rewrite Hhms, Hh, Hm, Hs.
  cbn [bind].
  destruct (add (PInt (zh * 3600 + zm * 60 + zs)) (PFloat frac))
    as [v|x] eqn:Hadd; [reflexivity|].
  apply add_float_raises in Hadd. subst x. reflexivity.
Qed.

(** ** What [int] refuses *)

Lemma contains_lstrip_num (c : ascii) (s : string) :
  num_space c = false -> contains c (lstrip_num s) = contains c s.
Proof.
  intros Hc. induction s as [|a s IH]; cbn [lstrip_num]; [reflexivity|].
  destruct (num_space a) eqn:Ha; [|reflexivity].
  cbn [contains]. destruct (Ascii.eqb a c) eqn:Hac; [|exact IH].
  apply Ascii.eqb_eq in Hac. congruence.
Qed.

Lemma contains_rstrip_num (c : ascii) (s : string) :
  num_space c = false -> contains c (rstrip_num s) = contains c s.
Proof.
  intros Hc. induction s as [|a s IH]; cbn [rstrip_num]; [reflexivity|].
  destruct (rstrip_num s) as [|b r] eqn:Hr.
  - cbn [contains] in *. rewrite <- IH.
    destruct (num_space a) eqn:Ha; cbn [contains]; [|reflexivity].
    destruct (Ascii.eqb a c) eqn:Hac; [|reflexivity].
    apply Ascii.eqb_eq in Hac. congruence.
  - cbn [contains] in *. rewrite IH. reflexivity.
Qed.

Lemma contains_strip_num (c : ascii) (s : string) :
  num_space c = false -> contains c (strip_num s) = contains c s.
Proof.
  intros Hc. unfold strip_num.
  rewrite (contains_rstrip_num c _ Hc). apply contains_lstrip_num, Hc.
Qed.

Lemma int_digits_bad_char (c : ascii) (s : string) :
  forall (acc : Z) (after_underscore : bool),
    contains c s = true -> is_digit c = false -> Ascii.eqb c "_" = false ->
    int_digits acc after_underscore s = None.
Proof.
  induction s as [|a s IH]; intros acc b; cbn [contains int_digits];
    [discriminate|].
  intros Hin Hd Hu. destruct (Ascii.eqb a c) eqn:Hac.
  - apply Ascii.eqb_eq in Hac. subst a.
    unfold is_digit in Hd. destruct (digit_value c); [discriminate|].
    rewrite Hu. reflexivity.
  - destruct (digit_value a); [apply IH; assumption|].
    destruct (Ascii.eqb a "_"); [|reflexivity].
    destruct b; [reflexivity|apply IH; assumption].
Qed.

Lemma int_literal_bad_char (c : ascii) (s : string) :
  contains c s = true -> is_digit c = false -> Ascii.eqb c "_" = false ->
  int_literal s = None.
Proof.
  destruct s as [|a s]; cbn [contains int_literal]; [discriminate|].
  intros Hin Hd Hu. destruct (Ascii.eqb a c) eqn:Hac.
  - apply Ascii.eqb_eq in Hac. subst a.
    unfold is_digit in Hd. destruct (digit_value c); [discriminate|].
    reflexivity.
  - destruct (digit_value a); [|reflexivity].
    apply (int_digits_bad_char c); assumption.
Qed.

(** The sign dispatch of [int_of_str], by comparison of characters. *)
Lemma int_of_str_sign (s : string) :
  int_of_str s
  = match
      match strip_num s with
      | EmptyString => None
      | String a r =>
          if Ascii.eqb a "+" then int_literal r
          else if Ascii.eqb a "-" then option_map Z.opp (int_literal r)
          else int_literal (String a r)
      end
    with
    | Some z => Ok z
    | None => Raise ValueError
    end.
Proof.
  unfold int_of_str. destruct (strip_num s) as [|a r]; [reflexivity|].
  destruct a as [[] [] [] [] [] [] [] []]; reflexivity.
Qed.

Lemma int_of_str_bad_char (c : ascii) (s : string) :
  contains c s = true -> int_char c = false ->
  int_of_str s = Raise ValueError.
Proof.
  intros Hin Hc. unfold int_char in Hc.
  apply orb_false_elim in Hc. destruct Hc as [Hc Hsp].
  apply orb_false_elim in Hc. destruct Hc as [Hd Hsign].
  cbn [existsb] in Hsign.
  apply orb_false_elim in Hsign. destruct Hsign as [Hplus Hsign].
  apply orb_false_elim in Hsign. destruct Hsign as [Hminus Hsign].
  apply orb_false_elim in Hsign. destruct Hsign as [Hus _].
  rewrite int_of_str_sign.
  rewrite <- (contains_strip_num c s Hsp) in Hin.
  destruct (strip_num s) as [|a r]; [reflexivity|].
  cbn [contains] in Hin.
  destruct (Ascii.eqb a "+") eqn:Ha1.
  { apply Ascii.eqb_eq in Ha1. subst a. rewrite Ascii.eqb_sym, Hplus in Hin.
    rewrite (int_literal_bad_char c r Hin Hd Hus). reflexivity. }
  destruct (Ascii.eqb a "-") eqn:Ha2.
  { apply Ascii.eqb_eq in Ha2. subst a. rewrite Ascii.eqb_sym, Hminus in Hin.
    rewrite (int_literal_bad_char c r Hin Hd Hus). reflexivity. }
  rewrite (int_literal_bad_char c (String a r)); [reflexivity| |exact Hd
                                                   |exact Hus].
  cbn [contains]. exact Hin.
Qed.

Lemma contains_split (c sep : ascii) (s : string) :
  contains c s = true -> Ascii.eqb sep c = false ->
  existsb (contains c) (split sep s) = true.
Proof.
  intros Hin Hsep. induction s as [|a s IH]; cbn [contains] in Hin;
    [discriminate|].
  cbn [split]. destruct (Ascii.eqb a sep) eqn:Has.
  - apply Ascii.eqb_eq in Has. subst a. rewrite Hsep in Hin.
    cbn [existsb contains]. apply IH, Hin.
  - destruct (Ascii.eqb a c) eqn:Hac.
    + destruct (split sep s); cbn [existsb contains]; rewrite Hac;
        reflexivity.
    + specialize (IH Hin). destruct (split sep s) as [|hd tl];
        [discriminate|].
      cbn [existsb contains] in *. rewrite Hac. exact IH.
Qed.

(** A character before the dot that neither [int] nor the colon accounts
    for: rejected, so 0. *)
Lemma seconds_bad_char (time_str : string) (c : ascii) :
  contains c (before_dot time_str) = true ->
  int_char c = false -> Ascii.eqb ":" c = false ->
  CP.ffmpeg_time_to_seconds time_str = Ok (PInt 0).
Proof.
  intros Hin Hc Hcolon.
  assert (Hints : forall hms (ms : pynum),
             contains c hms = true ->
             except_ValueError
               match split ":" hms with
               | [h; m; s] =>
                   bind (int_of_str h) (fun h =>
                   bind (int_of_str m) (fun m =>
                   bind (int_of_str s) (fun s =>
                   add (PInt (h * 3600 + m * 60 + s)) ms)))
               | _ => Raise ValueError
               end (Ok (PInt 0)) = Ok (PInt 0)).
  { intros hms ms Hhms.
    pose proof (contains_split c ":" hms Hhms Hcolon) as Hex.
    destruct (split ":" hms) as [|h [|m [|s [|]]]]; try reflexivity.
    cbn [existsb] in Hex. rewrite orb_false_r in Hex.
    destruct (int_of_str h) as [zh|x] eqn:Hh; cbn [bind].
    2:{ apply int_of_str_raises in Hh. subst x. reflexivity. }
    destruct (int_of_str m) as [zm|x] eqn:Hm; cbn [bind].
    2:{ apply int_of_str_raises in Hm. subst x. reflexivity. }
    destruct (int_of_str s) as [zs|x] eqn:Hs; cbn [bind].
    2:{ apply int_of_str_raises in Hs. subst x. reflexivity. }
    exfalso.
    apply orb_prop in Hex. destruct Hex as [Hex|Hex].
    - rewrite (int_of_str_bad_char c h Hex Hc) in Hh. discriminate.
    - apply orb_prop in Hex. destruct Hex as [Hex|Hex].
      + rewrite (int_of_str_bad_char c m Hex Hc) in Hm. discriminate.
      + rewrite (int_of_str_bad_char c s Hex Hc) in Hs. discriminate. }
  unfold CP.ffmpeg_time_to_seconds, before_dot in *.
  destruct (contains "." time_str) eqn:Hdot.
  - destruct (split "." time_str) as [|hms [|ms [|]]]; try reflexivity.
    cbn [hd] in Hin.
    destruct (float_of_str ("0." ++ ms)) as [frac|x] eqn:Hfl; cbn [bind].
    + apply Hints, Hin.
    + apply float_of_str_raises in Hfl. subst x. reflexivity.
  - rewrite (split_none "." time_str Hdot) in Hin. cbn [hd] in Hin.
    cbn [bind]. apply Hints, Hin.
Qed.

(** ** What [int] accepts *)

Lemma rstrip_num_blank (r : string) :
  every num_space r = true -> rstrip_num r = "".
Proof.
  induction r as [|a r IH]; cbn [every rstrip_num]; [reflexivity|].
  intros H. apply andb_prop in H. destruct H as [Ha Hr].
  rewrite (IH Hr), Ha. reflexivity.
Qed.

Lemma rstrip_num_blanks (x r : string) :
  every num_space r = true -> rstrip_num (x ++ r) = rstrip_num x.
Proof.
  intros Hr. induction x as [|a x IH]; cbn [append rstrip_num].
  - apply rstrip_num_blank, Hr.
  - rewrite IH. reflexivity.
Qed.

Lemma lstrip_num_blanks (l x : string) :
  every num_space l = true -> lstrip_num (l ++ x) = lstrip_num x.
Proof.
  induction l as [|a l IH]; cbn [every append lstrip_num]; [reflexivity|].
  intros H. apply andb_prop in H. destruct H as [Ha Hl].
  rewrite Ha. apply IH, Hl.
Qed.

(** Blanks around a text that begins with none are stripped. *)
Lemma strip_num_blanks (l x r : string) (a : ascii) :
  every num_space l = true -> every num_space r = true ->
  every (fun c => negb (num_space c)) (String a x) = true ->
  strip_num (l ++ String a x ++ r) = String a x.
Proof.
  intros Hl Hr Hx. unfold strip_num. rewrite (lstrip_num_blanks l _ Hl).
  assert (Ha : num_space a = false).
  { cbn [every] in Hx. apply andb_prop in Hx. destruct Hx as [Ha _].
    destruct (num_space a); [discriminate|reflexivity]. }
  cbn [append lstrip_num]. rewrite Ha.
  change (String a (x ++ r)) with (String a x ++ r)%string.
  rewrite (rstrip_num_blanks _ r Hr). apply rstrip_num_plain, Hx.
Qed.

Lemma int_char_plain (c : ascii) :
  int_char c = true -> Ascii.eqb c ":" = false /\ Ascii.eqb c "." = false.
Proof.
  destruct c as [[] [] [] [] [] [] [] []]; intros H;
    try discriminate H; split; reflexivity.
Qed.

Lemma digit_int_char (c : ascii) :
  is_digit c = true ->
  int_char c = true /\ num_space c = false
  /\ Ascii.eqb c "+" = false /\ Ascii.eqb c "-" = false.
Proof.
  intros H. digit_case c H; repeat split; reflexivity.
Qed.

Lemma groups_text_cons (a : ascii) (g : string) (gs : list string) :
  groups_text (String a g) gs = String a (groups_text g gs).
Proof. destruct gs; reflexivity. Qed.

Lemma groups_digits_cons (a : ascii) (g : string) (gs : list string) :
  groups_digits (String a g) gs = String a (groups_digits g gs).
Proof. destruct gs; reflexivity. Qed.

Lemma every_groups_text (P : ascii -> bool) (gs : list string) :
  P "_"%char = true ->
  (forall c : ascii, is_digit c = true -> P c = true) ->
  Forall digits gs ->
  forall g : string,
    all_digits g = true -> every P (groups_text g gs) = true.
Proof.
  intros Hu Hd Hgs. induction Hgs as [|g' gs [Hg' _] _ IH];
    intros g Hg; cbn [groups_text].
  - exact (every_impl _ _ g Hd Hg).
  - rewrite every_append. cbn [append every].
    rewrite (every_impl _ _ g Hd Hg), Hu, (IH g' Hg'). reflexivity.
Qed.

Lemma decimal_from_append (g t : string) :
  forall acc : Z,
    all_digits g = true ->
    decimal_from acc (g ++ t) = decimal_from (decimal_from acc g) t.
Proof.
  induction g as [|a g IH]; intros acc; cbn [append decimal_from];
    [reflexivity|].
  intros H. cbn in H. apply andb_prop in H. destruct H as [Ha Hg].
  destruct (digit_value_some a Ha) as (d & Hd & _). rewrite Hd.
  apply IH, Hg.
Qed.

Lemma int_digits_prefix (g t : string) :
  forall acc : Z,
    all_digits g = true ->
    int_digits acc false (g ++ t) = int_digits (decimal_from acc g) false t.
Proof.
  induction g as [|a g IH]; intros acc;
    cbn [append int_digits decimal_from]; [reflexivity|].
  intros H. cbn in H. apply andb_prop in H. destruct H as [Ha Hg].
  destruct (digit_value_some a Ha) as (d & Hd & _). rewrite Hd.
  apply IH, Hg.
Qed.

(** Groups of digits joined by underscores: the value of their digits. *)
Lemma int_digits_groups (gs : list string) :
  Forall digits gs ->
  forall (g : string) (acc : Z),
    all_digits g = true ->
    int_digits acc false (groups_text g gs)
    = Some (decimal_from acc (groups_digits g gs)).
Proof.
  intros Hgs. induction Hgs as [|g' gs [Hall Hne] _ IH]; intros g acc Hg;
    cbn [groups_text groups_digits].
  - apply int_digits_decimal, Hg.
  - rewrite (int_digits_prefix g _ acc Hg),
            (decimal_from_append g _ acc Hg).
    destruct g' as [|a g']; [congruence|].
    cbn in Hall. apply andb_prop in Hall. destruct Hall as [Ha Hg'].
    destruct (digit_value_some a Ha) as (d & Hd & _).
    rewrite groups_text_cons, groups_digits_cons.
    change (int_digits (decimal_from acc g) false
              ("_" ++ String a (groups_text g' gs)))
      with (int_digits (decimal_from acc g) true
              (String a (groups_text g' gs))).
    cbn [int_digits decimal_from]. rewrite Hd. apply IH, Hg'.
Qed.

Lemma int_literal_groups (g : string) (gs : list string) :
  digits g -> Forall digits gs ->
  int_literal (groups_text g gs) = Some (decimal (groups_digits g gs)).
Proof.
  intros [Hall Hne] Hgs. destruct g as [|a g]; [congruence|].
  cbn in Hall. apply andb_prop in Hall. destruct Hall as [Ha Hg].
  destruct (digit_value_some a Ha) as (d & Hd & _).
  rewrite groups_text_cons, groups_digits_cons.
  unfold int_literal, decimal. cbn [decimal_from]. rewrite Hd.
  change (0 * 10 + d)%Z with d. apply (int_digits_groups gs Hgs), Hg.
Qed.

(** [int] reads every such text, to its value. *)
Lemma int_of_str_field (f : string) (z : Z) :
  int_field f z -> int_of_str f = Ok z.
Proof.
  intros [l r sg g gs Hl Hr Hg Hgs].
  pose proof (int_literal_groups g gs Hg Hgs) as Hlit.
  destruct Hg as [Hall Hne].
  assert (Hplain : every (fun c => negb (num_space c)) (groups_text g gs)
                   = true).
  { apply every_groups_text; [reflexivity| |exact Hgs|exact Hall].
    intros c Hc. destruct (digit_int_char c Hc) as (_ & Hn & _).
    rewrite Hn. reflexivity. }
  rewrite int_of_str_sign. unfold int_value.
  destruct g as [|a g]; [congruence|].
  cbn in Hall. apply andb_prop in Hall. destruct Hall as [Ha _].
  destruct (digit_int_char a Ha) as (_ & _ & Hplus & Hminus).
  rewrite groups_text_cons in *.
  set (G := groups_text g gs) in *.
  destruct sg.
  - change (l ++ sign_text no_sign ++ String a G ++ r)%string
      with (l ++ String a G ++ r)%string.
    rewrite (strip_num_blanks l _ r a Hl Hr Hplain).
    rewrite Hplus, Hminus, Hlit. reflexivity.
  - change (l ++ sign_text plus_sign ++ String a G ++ r)%string
      with (l ++ String "+" (String a G) ++ r)%string.
    rewrite (strip_num_blanks l _ r "+" Hl Hr)
      by (cbn [every]; cbn [every] in Hplain; rewrite Hplain; reflexivity).
    cbn [Ascii.eqb Bool.eqb]. rewrite Hlit. reflexivity.
  - change (l ++ sign_text minus_sign ++ String a G ++ r)%string
      with (l ++ String "-" (String a G) ++ r)%string.
    rewrite (strip_num_blanks l _ r "-" Hl Hr)
      by (cbn [every]; cbn [every] in Hplain; rewrite Hplain; reflexivity).
    cbn [Ascii.eqb Bool.eqb]. rewrite Hlit. reflexivity.
Qed.

Lemma int_field_chars (f : string) (z : Z) :
  int_field f z -> contains ":" f = false /\ contains "." f = false.
Proof.
  intros [l r sg g gs Hl Hr [Hall _] Hgs].
  assert (Hblank : forall c : ascii, num_space c = true -> int_char c = true).
  { intros c Hc. unfold int_char. rewrite Hc. apply orb_true_r. }
  assert (H : every int_char
                (l ++ sign_text sg ++ groups_text g gs ++ r)%string = true).
  { rewrite !every_append.
    rewrite (every_impl _ _ l Hblank Hl), (every_impl _ _ r Hblank Hr).
    rewrite (every_groups_text int_char gs eq_refl
               (fun c Hc => proj1 (digit_int_char c Hc)) Hgs g Hall).
    destruct sg; reflexivity. }
  split; apply contains_none; (eapply every_impl; [|exact H]);
    intros c Hc; destruct (int_char_plain c Hc) as [H1 H2];
    rewrite ?H1, ?H2; reflexivity.
Qed.

Lemma split_three (f1 f2 f3 : string) :
  contains ":" f1 = false -> contains ":" f2 = false ->
  contains ":" f3 = false ->
  split ":" (f1 ++ ":" ++ f2 ++ ":" ++ f3)%string = [f1; f2; f3].
Proof.
  intros C1 C2 C3. cbn [append].
  rewrite (split_append ":" f1 _ C1), (split_append ":" f2 _ C2),
          (split_none ":" f3 C3).
  reflexivity.
Qed.

(** Three texts that [int] reads, with colons between: the arithmetic sum
    of their values. *)
Lemma seconds_of_int_fields (f1 f2 f3 : string) (z1 z2 z3 : Z) :
  int_field f1 z1 -> int_field f2 z2 -> int_field f3 z3 ->
  CP.ffmpeg_time_to_seconds (f1 ++ ":" ++ f2 ++ ":" ++ f3)%string
  = Ok (PInt (z1 * 3600 + z2 * 60 + z3)).
Proof.
  intros H1 H2 H3.
  destruct (int_field_chars f1 z1 H1) as [C1 D1].
  destruct (int_field_chars f2 z2 H2) as [C2 D2].
  destruct (int_field_chars f3 z3 H3) as [C3 D3].
  apply (seconds_of_ints _ f1 f2 f3).
  - cbn [append]. rewrite !contains_append. cbn [contains].
    rewrite !contains_append. cbn [contains].
    rewrite D1, D2, D3. reflexivity.
  - apply split_three; assumption.
  - apply int_of_str_field, H1.
  - apply int_of_str_field, H2.
  - apply int_of_str_field, H3.
Qed.

(** C6, as the code has it.  On [H:MM:SS] written with digits the conversion
    is the int H*3600 + MM*60 + SS; with a fraction [.f] of digits it is the
    float sum of that int and of the double nearest to 0.f, as long as the
    int is in the range of the floats.  The fields are read by [int]: three
    fields with blanks around them, a sign, or underscores between digits
    are converted arithmetically as well, and so is every string whose
    fields [int] accepts and whose fraction [float] accepts.  No
    [ValueError] leaves the function, and without a dot it always returns an
    int.  What it rejects yields 0, with or without a fraction: more than
    one dot, other than three colon-separated fields before the dot, a
    field that [int] refuses, a fraction that [float] refuses, and so any
    string with a character before the dot that is no digit, sign,
    underscore, blank or colon. *)
Theorem C6_timestamp_seconds :
  (forall H MM SS : string,
      digits H -> digits MM -> digits SS ->
      CP.ffmpeg_time_to_seconds (H ++ ":" ++ MM ++ ":" ++ SS)%string
      = Ok (PInt (decimal H * 3600 + decimal MM * 60 + decimal SS)))
  /\ (forall H MM SS f : string,
         digits H -> digits MM -> digits SS -> all_digits f = true ->
         (decimal H * 3600 + decimal MM * 60 + decimal SS + 1
          <= DBL_OVER)%Z ->
         exists q : Q,
           CP.ffmpeg_time_to_seconds
             (H ++ ":" ++ MM ++ ":" ++ SS ++ "." ++ f)%string
           = Ok (PFloat (Fin q))
           /\ q == nearest
                     (nearest
                        (inject_Z
                           (decimal H * 3600 + decimal MM * 60 + decimal SS))
                      + nearest_double (fraction f)))
  /\ (forall (f1 f2 f3 : string) (z1 z2 z3 : Z),
         int_field f1 z1 -> int_field f2 z2 -> int_field f3 z3 ->
         CP.ffmpeg_time_to_seconds (f1 ++ ":" ++ f2 ++ ":" ++ f3)%string
         = Ok (PInt (z1 * 3600 + z2 * 60 + z3)))
  /\ (forall (time_str h m s : string) (zh zm zs : Z),
         contains "." time_str = false ->
         split ":" time_str = [h; m; s] ->
         int_of_str h = Ok zh -> int_of_str m = Ok zm ->
         int_of_str s = Ok zs ->
         CP.ffmpeg_time_to_seconds time_str
         = Ok (PInt (zh * 3600 + zm * 60 + zs)))
  /\ (forall (time_str hms ms h m s : string) (zh zm zs : Z)
             (frac : pyfloat),
         split "." time_str = [hms; ms] ->
         float_of_str ("0." ++ ms) = Ok frac ->
         split ":" hms = [h; m; s] ->
         int_of_str h = Ok zh -> int_of_str m = Ok zm ->
         int_of_str s = Ok zs ->
         CP.ffmpeg_time_to_seconds time_str
         = add (PInt (zh * 3600 + zm * 60 + zs)) (PFloat frac))
  /\ (forall time_str : string,
         CP.ffmpeg_time_to_seconds time_str <> Raise ValueError)
  /\ (forall time_str : string,
         contains "." time_str = false ->
         exists z : Z, CP.ffmpeg_time_to_seconds time_str = Ok (PInt z))
  /\ (forall time_str : string,
         (2 <= count "." time_str)%nat ->
         CP.ffmpeg_time_to_seconds time_str = Ok (PInt 0))
  /\ (forall time_str : string,
         count ":" (before_dot time_str) <> 2%nat ->
         CP.ffmpeg_time_to_seconds time_str = Ok (PInt 0))
  /\ (forall time_str h m s : string,
         split ":" (before_dot time_str) = [h; m; s] ->
         int_of_str h = Raise ValueError \/ int_of_str m = Raise ValueError
         \/ int_of_str s = Raise ValueError ->
         CP.ffmpeg_time_to_seconds time_str = Ok (PInt 0))
  /\ (forall time_str hms ms : string,
         split "." time_str = [hms; ms] ->
         float_of_str ("0." ++ ms) = Raise ValueError ->
         CP.ffmpeg_time_to_seconds time_str = Ok (PInt 0))
  /\ (forall (time_str : string) (c : ascii),
         contains c (before_dot time_str) = true ->
         int_char c = false -> Ascii.eqb ":" c = false ->
         CP.ffmpeg_time_to_seconds time_str = Ok (PInt 0)).
Proof.
  split.
  { intros H MM SS H1 H2 H3.
    exact (seconds_of_signed_fields false false false H MM SS H1 H2 H3). }
  split; [exact seconds_with_fraction|].
  split; [exact seconds_of_int_fields|].
  split; [exact seconds_of_ints|].
  split; [exact seconds_of_ints_fraction|].
  split.
  { intros time_str Hr. apply seconds_raises in Hr.
    destruct Hr as [Hr _]. discriminate. }
  split.
  { intros time_str Hdot.
    destruct (CP.ffmpeg_time_to_seconds time_str) as [v|x] eqn:Hv.
    - revert Hv. unfold CP.ffmpeg_time_to_seconds. rewrite Hdot.
      cbn [bind].
      destruct (split ":" time_str) as [|h [|m [|s [|]]]];
        cbn [except_ValueError];
        try (intros Hv; inversion Hv; subst; eexists; reflexivity).
      destruct (int_of_str h) as [zh|[]]; cbn [bind except_ValueError];
        try (intros Hv; inversion Hv; subst; eexists; reflexivity).
      destruct (int_of_str m) as [zm|[]]; cbn [bind except_ValueError];
        try (intros Hv; inversion Hv; subst; eexists; reflexivity).
      destruct (int_of_str s) as [zs|[]]; cbn [bind except_ValueError add];
        intros Hv; inversion Hv; subst; eexists; reflexivity.
    - apply seconds_raises in Hv. destruct Hv as [_ Hv]. congruence. }
  split; [exact seconds_two_dots|].
  split; [exact seconds_wrong_fields|].
  split; [exact seconds_bad_field|].
  split; [exact seconds_bad_fraction|exact seconds_bad_char].
Qed.

(** [N/A], [1:30.5], [1::3.5] and [1:02:03.x] give 0; [1:02:03] and
    [ 1:+2:0_3] give 3723; [00:01:30.50] gives 90.5. *)
Lemma C6_timestamp_seconds_witness :
  CP.ffmpeg_time_to_seconds "N/A" = Ok (PInt 0)
  /\ CP.ffmpeg_time_to_seconds "1:30.5" = Ok (PInt 0)
  /\ CP.ffmpeg_time_to_seconds "1::3.5" = Ok (PInt 0)
  /\ CP.ffmpeg_time_to_seconds "1:02:03.x" = Ok (PInt 0)
  /\ CP.ffmpeg_time_to_seconds "1:02:03" = Ok (PInt 3723)
  /\ CP.ffmpeg_time_to_seconds " 1:+2:0_3" = Ok (PInt 3723)
  /\ exists q : Q,
       CP.ffmpeg_time_to_seconds "00:01:30.50" = Ok (PFloat (Fin q))
       /\ q == 90.5.
Proof.
  destruct C6_timestamp_seconds
    as (Hint & Hfrac & Hfields & _ & _ & _ & _ & _ & Hcount & Hfield
        & Hfraction & Hbad).
  split; [exact (Hbad "N/A" "N"%char eq_refl eq_refl eq_refl)|].
  split; [apply (Hcount "1:30.5"); vm_compute; discriminate|].
  split.
  { apply (Hfield "1::3.5" "1" "" "3"); [reflexivity|].
    right. left. reflexivity. }
  split; [exact (Hfraction "1:02:03.x" "1:02:03" "x" eq_refl eq_refl)|].
  split.
  - exact (Hint "1" "02" "03"
             ltac:(split; [reflexivity|discriminate])
             ltac:(split; [reflexivity|discriminate])
             ltac:(split; [reflexivity|discriminate])).
  - split.
    + apply (Hfields " 1" "+2" "0_3" 1%Z 2%Z 3%Z).
      * apply (@int_field_intro " " "" no_sign "1" []);
          [reflexivity|reflexivity|split; [reflexivity|discriminate]
          |constructor].
      * apply (@int_field_intro "" "" plus_sign "2" []);
          [reflexivity|reflexivity|split; [reflexivity|discriminate]
          |constructor].
      * apply (@int_field_intro "" "" no_sign "0" ["3"]);
          [reflexivity|reflexivity|split; [reflexivity|discriminate]|].
        constructor; [split; [reflexivity|discriminate]|constructor].
    + destruct (Hfrac "00" "01" "30" "50"
                  ltac:(split; [reflexivity|discriminate])
                  ltac:(split; [reflexivity|discriminate])
                  ltac:(split; [reflexivity|discriminate])
                  ltac:(reflexivity)
                  ltac:(vm_compute; discriminate)) as (q & Hq & Hv).
      exists q. split; [exact Hq|]. rewrite Hv. vm_compute. reflexivity.
Defined.

(** C6 as stated fails twice.  A string that is not of the shape
    [H:MM:SS[.f]] is converted, not answered by 0: [int] reads the signed
    field.  And a string of that shape makes the function raise: with 10^309
    hours and a fraction, the sum is an int too large for a float. *)
Lemma C6_malformed_not_zero :
  timestamp_form "1:-30:00" = false
  /\ CP.ffmpeg_time_to_seconds "1:-30:00" = Ok (PInt 1800)
  /\ timestamp_form (Scenario.huge_hours ++ ":00:00.5")%string = true
  /\ CP.ffmpeg_time_to_seconds (Scenario.huge_hours ++ ":00:00.5")%string
     = Raise OverflowError.
Proof.
  split; [vm_compute; reflexivity|].
  split; [vm_compute; reflexivity|].
  split; vm_compute; reflexivity.
Qed.

(** ** Negative timestamps *)

Lemma round_float_negative (q : Q) :
  q < 0 -> negative (round_float q) = true.
Proof.
  intros Hq. unfold round_float.
  destruct (Qle_bool (inject_Z DBL_OVER) q) eqn:H1.
  { apply Qle_bool_iff in H1. exfalso.
    pose proof (inject_Z_le 0 DBL_OVER) as H0.
    pose proof DBL_OVER_large.
    assert (0 <= inject_Z DBL_OVER) by (apply H0; lia). lra. }
  destruct (Qle_bool q (inject_Z (- DBL_OVER))); [reflexivity|].
  cbn [negative]. unfold Qneg.
  destruct (Qle_bool 0 (nearest q)) eqn:H2; [|reflexivity].
  apply Qle_bool_iff in H2. pose proof (nearest_negative q Hq). lra.
Qed.

Lemma negative_not_positive (p : pyfloat) :
  negative p = true -> gt_zero (PFloat p) = false.
Proof.
  destruct p as [q|s|]; cbn [negative gt_zero].
  - unfold Qneg. destruct (Qle_bool 0 q) eqn:H0; [discriminate|].
    intros _. destruct (Qle_bool q 0) eqn:H1; [reflexivity|].
    exfalso.
    assert (~ 0 <= q) by (intros A; apply Qle_bool_iff in A; congruence).
    assert (~ q <= 0) by (intros A; apply Qle_bool_iff in A; congruence).
    lra.
  - intros ->. reflexivity.
  - discriminate.
Qed.

Lemma positive_divisor (d : Q) :
  0 < d -> Qzero d = false /\ negb (Qle_bool d 0) = true.
Proof.
  intros Hd. unfold Qzero. split.
  - destruct (Qeq_bool d 0) eqn:H; [|reflexivity].
    apply Qeq_bool_iff in H. lra.
  - destruct (Qle_bool d 0) eqn:H; [|reflexivity].
    apply Qle_bool_iff in H. lra.
Qed.

Lemma negative_quotient (t : Z) (d : Q) :
  (t < 0)%Z -> 0 < d -> nearest (inject_Z t) / d < 0.
Proof.
  intros Ht Hd.
  assert (Hi : nearest (inject_Z t) < 0).
  { apply nearest_negative. change 0 with (inject_Z 0).
    apply inject_Z_lt. exact Ht. }
  assert (Hinv : 0 < / d) by (apply Qinv_lt_0_compat; exact Hd).
  unfold Qdiv. nra.
Qed.

Lemma after_equals_out_time (time_str : string) :
  contains "=" time_str = false ->
  startswith ("out_time=" ++ time_str) "out_time=" = true
  /\ CP.after_equals ("out_time=" ++ time_str) = Ok time_str.
Proof.
  intros H. split.
  - unfold startswith. cbn. destruct time_str; reflexivity.
  - unfold CP.after_equals. cbn [append split Ascii.eqb Bool.eqb].
    rewrite (split_none "=" time_str H). reflexivity.
Qed.

(** C10: a timestamp whose colon-separated fields are integers with an
    optional minus sign is converted to the arithmetic sum of the signed
    fields, not to 0; when that sum is negative (and still in the range of
    the floats) and the duration of the job is a positive number, the
    out_time line makes the parser emit a progress event with a negative
    percentage, followed by its info event. *)
Theorem C10_negative_components :
  forall (n1 n2 n3 : bool) (d1 d2 d3 : string),
    digits d1 -> digits d2 -> digits d3 ->
    let total := (signed_value n1 d1 * 3600 + signed_value n2 d2 * 60
                  + signed_value n3 d3)%Z in
    let time_str :=
      (signed n1 d1 ++ ":" ++ signed n2 d2 ++ ":" ++ signed n3 d3)%string in
    CP.ffmpeg_time_to_seconds time_str = Ok (PInt total)
    /\ forall (self : CP.t) (elapsed_time duration : Q),
         CP.duration self = PFloat (Fin duration) ->
         0 < duration ->
         (- DBL_OVER < total < 0)%Z ->
         exists (p : pyfloat) (speed : pynum),
           CP.parse_progress self elapsed_time
             ("out_time=" ++ time_str)%string
           = ([CP.emit (CP.progress_update (CP.index self) p);
               CP.emit (CP.info_update (CP.index self)
                          (CP.speed_and_remaining speed 0))],
              Ok tt)
           /\ negative p = true.
Proof.
  intros n1 n2 n3 d1 d2 d3 H1 H2 H3 total time_str.
  pose proof (seconds_of_signed_fields n1 n2 n3 d1 d2 d3 H1 H2 H3) as Hsec.
  fold total time_str in Hsec. split; [exact Hsec|].
  intros self elapsed_time duration Hdur Hpos Htotal.
  pose proof (signed_field n1 d1 (proj1 H1)) as F1.
  pose proof (signed_field n2 d2 (proj1 H2)) as F2.
  pose proof (signed_field n3 d3 (proj1 H3)) as F3.
  destruct (fields_no_dot _ _ _ F1 F2 F3) as [_ Heq].
  fold time_str in Heq.
  destruct (after_equals_out_time time_str Heq) as [Hstart Hafter].
  destruct (positive_divisor duration Hpos) as [Hz Hgt].
  unfold CP.parse_progress. rewrite Hstart, Hafter.
  cbn [CP.lift CP.bindM app]. rewrite Hsec. cbn [CP.bindM app].
  rewrite Hdur. cbn [gt_zero]. rewrite Hgt.
  unfold truediv at 1. unfold lift2, to_float.
  rewrite (float_of_int_finite total) by lia. cbn [bind fdiv].
  rewrite Hz. cbn [bind CP.bindM app].
  pose proof (negative_quotient total duration (proj2 Htotal) Hpos) as Hneg.
  set (ratio := round_float (nearest (inject_Z total) / duration)).
  assert (Hratio : negative ratio = true)
    by (apply round_float_negative; exact Hneg).
  assert (H100 : float_of_int 100 = Ok (Fin (nearest (inject_Z 100)))).
  { apply float_of_int_finite. pose proof DBL_OVER_large. cbn. lia. }
  unfold mul, lift2, to_float. rewrite H100. cbn [bind].
  set (p := fmul ratio (Fin (nearest (inject_Z 100)))).
  assert (Hp : negative p = true).
  { subst p. destruct ratio as [x|s|]; cbn [fmul negative] in *.
    - apply round_float_negative.
      unfold Qneg in Hratio.
      destruct (Qle_bool 0 x) eqn:Hx; [discriminate|].
      assert (~ 0 <= x) by (intros A; apply Qle_bool_iff in A; congruence).
      pose proof nearest_hundred as Hh.
      change (inject_Z 100) with 100. nra.
    - subst s.
      assert (Hz100 : Qzero (nearest (inject_Z 100)) = false)
        by (vm_compute; reflexivity).
      assert (Hn100 : Qneg (nearest (inject_Z 100)) = false)
        by (vm_compute; reflexivity).
      rewrite Hz100, Hn100. reflexivity.
    - discriminate. }
  cbn [CP.bindM CP.lift CP.do app].
  assert (Hspeed : exists speed : pynum,
             (if gt_zero (PFloat (Fin elapsed_time))
              then truediv (PInt total) (PFloat (Fin elapsed_time))
              else Ok (PInt 0)) = Ok speed
             /\ gt_zero speed = false).
  { cbn [gt_zero]. destruct (Qle_bool elapsed_time 0) eqn:He; cbn [negb].
    - exists (PInt 0). split; reflexivity.
    - assert (Hel : 0 < elapsed_time).
      { assert (~ elapsed_time <= 0)
          by (intros A; apply Qle_bool_iff in A; congruence). lra. }
      destruct (positive_divisor elapsed_time Hel) as [Hz' _].
      unfold truediv, lift2, to_float.
      rewrite (float_of_int_finite total) by lia. cbn [bind fdiv].
      rewrite Hz'. cbn [bind]. eexists. split; [reflexivity|].
      apply negative_not_positive, round_float_negative.
      apply negative_quotient; [lia|exact Hel]. }
  destruct Hspeed as (speed & Hs & Hns). cbn [gt_zero] in Hs.
  rewrite Hs. cbn beta iota. rewrite Hns.
  cbn. exists p, speed. split; [reflexivity|exact Hp].
Qed.

(** [out_time=-1:00:00] for a job of ten seconds. *)
Lemma C10_negative_components_witness :
  CP.ffmpeg_time_to_seconds "-1:00:00" = Ok (PInt (-3600))
  /\ exists (p : pyfloat) (speed : pynum),
       CP.parse_progress (Scenario.job 0 "a.wav" Scenario.ten) 2
         "out_time=-1:00:00"
       = ([CP.emit (CP.progress_update 0 p);
           CP.emit (CP.info_update 0 (CP.speed_and_remaining speed 0))],
          Ok tt)
       /\ negative p = true.
Proof.
  destruct (C10_negative_components true false false "1" "00" "00"
              ltac:(split; [reflexivity|discriminate])
              ltac:(split; [reflexivity|discriminate])
              ltac:(split; [reflexivity|discriminate])) as [Hsec Hparse].
  split; [exact Hsec|].
  exact (Hparse (Scenario.job 0 "a.wav" Scenario.ten) 2
           10 eq_refl ltac:(reflexivity)
           ltac:(vm_compute; split; reflexivity)).
Defined.

(** ** The percentage *)

Lemma abs_range (x : Q) :
  Qabs x < inject_Z DBL_OVER ->
  inject_Z (- DBL_OVER) < x /\ x < inject_Z DBL_OVER.
Proof.
  intros H. apply Qabs_Qlt_condition in H.
  change (inject_Z (- DBL_OVER)) with (- inject_Z DBL_OVER). exact H.
Qed.

(** The percentage of an elapsed time [E] of a duration [D], as the floats
    give it: the quotient rounded, then its product by 100 rounded. *)
Lemma percentage_error (x : Q) :
  Qabs (nearest (nearest x * 100) - x * 100)
  <= Qabs (x * 100) * (1 # 2 ^ 51).
Proof.
  pose proof (nearest_error x) as H1.
  pose proof (nearest_error (nearest x * 100)) as H2.
  pose proof (Qabs_triangle (nearest x - x) x) as H3.
  assert (E3 : nearest x - x + x == nearest x) by ring.
  rewrite E3 in H3.
  pose proof (Qabs_triangle (nearest (nearest x * 100) - nearest x * 100)
                ((nearest x - x) * 100)) as H4.
  assert (E4 : nearest (nearest x * 100) - nearest x * 100
               + (nearest x - x) * 100
               == nearest (nearest x * 100) - x * 100) by ring.
  rewrite E4 in H4.
  rewrite !Qabs_Qmult in *. change (Qabs 100) with 100 in *.
  pose proof (Qabs_nonneg x) as H5.
  set (X := Qabs x) in *. set (R := Qabs (nearest x)) in *.
  set (B := Qabs (nearest x - x)) in *.
  set (A := Qabs (nearest (nearest x * 100) - nearest x * 100)) in *.
  set (T := Qabs (nearest (nearest x * 100) - x * 100)) in *.
  clearbody X R B A T. clear E3 E4.
  change (2 ^ 53)%positive with 9007199254740992%positive in *.
  change (2 ^ 51)%positive with 2251799813685248%positive in *.
  lra.
Qed.

Lemma percentage_unit (x : Q) :
  0 <= x -> x <= 1 ->
  0 <= nearest (nearest x * 100) /\ nearest (nearest x * 100) <= 100.
Proof.
  intros H0 H1.
  pose proof (nearest_nonneg x H0) as Hlo.
  pose proof (nearest_mono x 1 H1) as Hhi. rewrite nearest_one in Hhi.
  split.
  - apply nearest_nonneg. nra.
  - rewrite <- nearest_hundred at 2. apply nearest_mono. nra.
Qed.

Lemma percentage_negative (x : Q) :
  x < 0 -> nearest (nearest x * 100) < 0.
Proof.
  intros H. pose proof (nearest_negative x H).
  apply nearest_negative. nra.
Qed.

Lemma percentage_above (x : Q) :
  1 + (1 # 2 ^ 52) <= x -> 100 < nearest (nearest x * 100).
Proof.
  intros H.
  pose proof (nearest_mono _ _ H) as H1.
  assert (E1 : nearest (1 + (1 # 2 ^ 52)) == 1 + (1 # 2 ^ 52))
    by (vm_compute; reflexivity).
  rewrite E1 in H1.
  assert (H2 : (1 + (1 # 2 ^ 52)) * 100 <= nearest x * 100) by nra.
  apply nearest_mono in H2.
  assert (E2 : 100 < nearest ((1 + (1 # 2 ^ 52)) * 100))
    by (vm_compute; reflexivity).
  lra.
Qed.

Lemma quotient_unit (E D : Q) :
  0 < D -> 0 <= E -> E <= D -> 0 <= E / D /\ E / D <= 1.
Proof.
  intros HD H0 H1. split.
  - apply Qle_shift_div_l; [exact HD|]. rewrite Qmult_0_l. exact H0.
  - apply Qle_shift_div_r; [exact HD|]. rewrite Qmult_1_l. exact H1.
Qed.

Lemma quotient_negative (E D : Q) : 0 < D -> E < 0 -> E / D < 0.
Proof.
  intros HD HE.
  assert (Hinv : 0 < / D) by (apply Qinv_lt_0_compat; exact HD).
  unfold Qdiv. nra.
Qed.

Lemma quotient_above (E D u : Q) : 0 < D -> u * D <= E -> u <= E / D.
Proof.
  intros HD H. apply Qle_shift_div_l; assumption.
Qed.

(** The only line that makes the parser emit a progress event when the
    duration is not positive is [progress=end]. *)
Lemma progress_without_duration (self : CP.t) (elapsed_time : Q)
    (line : string) :
  gt_zero (CP.duration self) = false ->
  progress_events (fst (CP.parse_progress self elapsed_time line)) <> [] ->
  startswith line "out_time=" = false
  /\ startswith line "progress=" = true
  /\ CP.after_equals line = Ok "end"
  /\ progress_events (fst (CP.parse_progress self elapsed_time line))
     = [Fin 100].
Proof.
  intros Hgt. unfold CP.parse_progress. rewrite Hgt.
  destruct (startswith line "out_time=").
  { destruct (CP.after_equals line) as [time_str|x];
      cbn [CP.lift CP.bindM app fst progress_events]; [|congruence].
    destruct (CP.ffmpeg_time_to_seconds time_str);
      cbn [CP.ret fst progress_events]; congruence. }
  destruct (startswith line "progress=");
    [|cbn [CP.ret fst progress_events]; congruence].
  destruct (CP.after_equals line) as [status|x];
    cbn [CP.lift CP.bindM app fst progress_events]; [|congruence].
  destruct (String.eqb status "end") eqn:Hend;
    [|cbn [CP.ret fst progress_events]; congruence].
  apply String.eqb_eq in Hend. subst status.
  intros _. repeat split; reflexivity.
Qed.

(** C5, as the code has it.  An out_time line whose timestamp converts to a
    number that is E as a float, for a job of known duration D > 0, makes
    the parser emit first, and once, a progress event: the float of
    (E / D) * 100, that is the quotient rounded to the nearest double, times
    100, rounded again (both within the range of the floats, and the
    quotient not below 2^-1022 unless it is 0).  It is within 2^-51 of
    E / D * 100 relatively, and is not clamped: it lies in [0, 100] when
    0 <= E <= D, is negative when E < 0 and exceeds 100 from
    E = D * (1 + 2^-52) on.  When the duration is not positive (0 when
    unknown), an out_time line emits nothing at all, and the only line on
    which the parser emits a progress event is one whose text after the
    first [=] is [end], with progress 100.  The exit of the process with
    code 0 emits progress 100 as well, with or without such a line. *)
Theorem C5_progress_percentage :
  (forall (self : CP.t) (elapsed_time : Q) (line time_str : string)
          (out_time : pynum) (D E : Q),
      startswith line "out_time=" = true ->
      CP.after_equals line = Ok time_str ->
      CP.ffmpeg_time_to_seconds time_str = Ok out_time ->
      to_float out_time = Ok (Fin E) ->
      CP.duration self = PFloat (Fin D) ->
      0 < D ->
      E == 0 \/ 2 ^ (-1022) <= Qabs (E / D) ->
      Qabs (E / D) < inject_Z DBL_OVER ->
      Qabs (nearest (E / D) * 100) < inject_Z DBL_OVER ->
      exists (q : Q) (rest : list CP.action),
        fst (CP.parse_progress self elapsed_time line)
        = CP.emit (CP.progress_update (CP.index self) (Fin q)) :: rest
        /\ progress_events rest = []
        /\ q == nearest (nearest (E / D) * 100)
        /\ Qabs (q - E / D * 100) <= Qabs (E / D * 100) * (1 # 2 ^ 51)
        /\ (0 <= E -> E <= D -> 0 <= q /\ q <= 100)
        /\ (E < 0 -> q < 0)
        /\ ((1 + (1 # 2 ^ 52)) * D <= E -> 100 < q))
  /\ (forall (self : CP.t) (elapsed_time : Q) (line : string),
         startswith line "out_time=" = true ->
         gt_zero (CP.duration self) = false ->
         fst (CP.parse_progress self elapsed_time line) = [])
  /\ (forall (self : CP.t) (elapsed_time : Q) (line : string),
         gt_zero (CP.duration self) = false ->
         progress_events (fst (CP.parse_progress self elapsed_time line))
         <> [] ->
         startswith line "out_time=" = false
         /\ startswith line "progress=" = true
         /\ CP.after_equals line = Ok "end"
         /\ progress_events (fst (CP.parse_progress self elapsed_time line))
            = [Fin 100])
  /\ (forall (self : CP.t) (stderr_written : string),
         progress_events (fst (CP.process_finished self 0 stderr_written))
         = [Fin 100]).
Proof.
  split; [|split; [|split]].
  - intros self elapsed_time line time_str out_time D E
      Hstart Hafter Hsec Hfl Hdur Hpos _ Hratio Hrange.
    destruct (positive_divisor D Hpos) as [Hz Hgt].
    destruct (abs_range (E / D) Hratio) as [Hlo1 Hhi1].
    assert (Heq : nearest (E / D) * nearest (inject_Z 100)
                  == nearest (E / D) * 100).
    { change (inject_Z 100) with 100. rewrite nearest_hundred.
      reflexivity. }
    destruct (abs_range (nearest (E / D) * 100) Hrange) as [Hlo2 Hhi2].
    rewrite <- Heq in Hlo2, Hhi2.
    assert (H100 : float_of_int 100 = Ok (Fin (nearest (inject_Z 100)))).
    { apply float_of_int_finite. pose proof DBL_OVER_large. cbn. lia. }
    unfold CP.parse_progress. rewrite Hstart, Hafter.
    cbn [CP.lift CP.bindM app]. rewrite Hsec. cbn [CP.bindM app].
    rewrite Hdur. cbn [gt_zero]. rewrite Hgt.
    assert (Htd : truediv out_time (PFloat (Fin D))
                  = Ok (PFloat (Fin (nearest (E / D))))).
    { destruct out_time as [z|f]; unfold truediv, lift2;
        rewrite Hfl; cbn [to_float bind fdiv]; rewrite Hz;
        rewrite (round_float_finite _ Hlo1 Hhi1); reflexivity. }
    rewrite Htd. cbn [CP.bindM app].
    unfold mul, lift2, to_float. rewrite H100. cbn [bind fmul].
    rewrite (round_float_finite _ Hlo2 Hhi2).
    exists (nearest (nearest (E / D) * nearest (inject_Z 100))).
    pose proof (nearest_comp _ _ Heq) as Hq.
    cbn [CP.bindM CP.lift CP.do app].
    repeat match goal with
           | |- context [match ?x with Ok _ => _ | Raise _ => _ end] =>
               destruct x; cbn [fst]
           end;
      (eexists; split; [reflexivity|]); (split; [reflexivity|]);
      (split; [exact Hq|]); rewrite Hq;
      (split; [apply percentage_error|]);
      (split; [intros H0 H1; apply percentage_unit;
               apply (quotient_unit E D Hpos H0 H1)|]);
      (split; [intros H0; apply percentage_negative;
               apply (quotient_negative E D Hpos H0)|]);
      intros H0; apply percentage_above;
      apply (quotient_above E D _ Hpos H0).
  - intros self elapsed_time line Hstart Hgt.
    unfold CP.parse_progress. rewrite Hstart, Hgt.
    destruct (CP.after_equals line) as [time_str|x];
      cbn [CP.lift CP.bindM app fst]; [|reflexivity].
    destruct (CP.ffmpeg_time_to_seconds time_str); reflexivity.
  - exact progress_without_duration.
  - intros self stderr_written. reflexivity.
Qed.

(** [out_time=00:01:30.50] for a job of 180 seconds, then for a job of
    unknown duration, for which [progress=end] is what gives 100. *)
Lemma C5_progress_percentage_witness :
  (exists (q : Q) (rest : list CP.action),
      fst (CP.parse_progress (Scenario.job 0 "a.wav" (PFloat (Fin 180))) 3
             "out_time=00:01:30.50")
      = CP.emit (CP.progress_update 0 (Fin q)) :: rest
      /\ progress_events rest = []
      /\ q == nearest (nearest ((181 # 2) / 180) * 100)
      /\ 0 <= q /\ q <= 100)
  /\ CP.parse_progress (Scenario.job 0 "a.wav" (PInt 0)) 3
       "out_time=00:01:30.50" = ([], Ok tt)
  /\ progress_events
       (fst (CP.parse_progress (Scenario.job 0 "a.wav" (PInt 0)) 3
               "progress=end")) = [Fin 100].
Proof.
  destruct C5_progress_percentage as (Hknown & Hunknown & Honly & _).
  split; [|split].
  - destruct (Hknown (Scenario.job 0 "a.wav" (PFloat (Fin 180))) 3
                "out_time=00:01:30.50" "00:01:30.50"
                (PFloat (Fin (181 # 2))) 180 (181 # 2)
                ltac:(reflexivity) ltac:(reflexivity)
                ltac:(vm_compute; reflexivity) ltac:(reflexivity)
                ltac:(reflexivity) ltac:(reflexivity)
                ltac:(right; vm_compute; discriminate)
                ltac:(vm_compute; reflexivity)
                ltac:(vm_compute; reflexivity))
      as (q & rest & Hfst & Hrest & Hq & _ & Hunit & _).
    exists q, rest. split; [exact Hfst|]. split; [exact Hrest|].
    split; [exact Hq|].
    apply Hunit; [discriminate|vm_compute; discriminate].
  - vm_compute. reflexivity.
  - apply (Honly (Scenario.job 0 "a.wav" (PInt 0)) 3 "progress=end");
      [reflexivity|vm_compute; discriminate].
Defined.

(** C5 as stated fails three times.  Nothing clamps: a job of ten seconds
    whose encoder reports twenty seconds of output gets a progress event of
    200.  The percentage is not E/D*100 but its float: 29 seconds of a job
    of 100 seconds give 28.999999999999996, not 29.  And a job of unknown
    duration that exits with code 0 gets a progress event of 100 from
    [process_finished], whether or not a [progress=end] line was read. *)
Lemma C5_progress_above_100 :
  progress_events
    (fst (CP.parse_progress (Scenario.job 0 "a.wav" Scenario.ten) 1
            "out_time=00:00:20"))
  = [Fin 200]
  /\ ~ 200 <= 100
  /\ (exists q : Q,
         progress_events
           (fst (CP.parse_progress
                   (Scenario.job 0 "a.wav" (PFloat (Fin 100))) 1
                   "out_time=00:00:29"))
         = [Fin q]
         /\ q < 29 /\ ~ q == 29 / 100 * 100)
  /\ progress_events
       (fst (CP.process_finished (Scenario.job 0 "a.wav" (PInt 0)) 0 ""))
     = [Fin 100].
Proof.
  split; [vm_compute; reflexivity|].
  split; [intros H; vm_compute in H; apply H; reflexivity|].
  split; [|vm_compute; reflexivity].
  eexists. split; [vm_compute; reflexivity|].
  split; [vm_compute; reflexivity|].
  intros H; vm_compute in H; discriminate H.
Qed.

(** ** The duration probe *)

Lemma float_of_str_bad_start (s : string) (c : ascii) (rest : string) :
  strip_num s = String c rest -> numeric_start c = false ->
  float_of_str s = Raise ValueError.
Proof.
  intros Hs Hc. unfold float_of_str. rewrite Hs.
  destruct c as [[] [] [] [] [] [] [] []]; try discriminate Hc;
    cbn; first [reflexivity | destruct (underscores_ok _ rest); reflexivity].
Qed.

Lemma lstrip_head (s : string) :
  lstrip s = EmptyString
  \/ exists (a : ascii) (r : string),
       lstrip s = String a r /\ is_space a = false.
Proof.
  induction s as [|a s IH]; cbn [lstrip]; [left; reflexivity|].
  destruct (is_space a) eqn:Ha; [exact IH|].
  right. exists a, s. split; [reflexivity|exact Ha].
Qed.

Lemma not_space_not_num_space (a : ascii) :
  is_space a = false -> num_space a = false.
Proof.
  intros H. destruct (num_space a) eqn:Hn; [|reflexivity].
  rewrite (num_space_space a Hn) in H. discriminate.
Qed.

Lemma rstrip_num_rstrip (s : string) : rstrip_num (rstrip s) = rstrip s.
Proof.
  induction s as [|a s IH]; cbn [rstrip]; [reflexivity|].
  destruct (rstrip s) as [|b r] eqn:Hs.
  - destruct (is_space a) eqn:Ha; cbn [rstrip_num]; [reflexivity|].
    rewrite (not_space_not_num_space a Ha). reflexivity.
  - cbn [rstrip_num]. cbn [rstrip_num] in IH. rewrite IH. reflexivity.
Qed.

(** What [strip] returns has no blank left for [float] to skip. *)
Lemma strip_num_strip (s : string) : strip_num (strip s) = strip s.
Proof.
  unfold strip, strip_num.
  assert (Hl : lstrip_num (rstrip (lstrip s)) = rstrip (lstrip s)).
  { destruct (lstrip_head s) as [He|(a & r & He & Ha)]; rewrite He.
    - reflexivity.
    - pose proof (not_space_not_num_space a Ha) as Hn.
      cbn [rstrip]. destruct (rstrip r); [rewrite Ha|];
        cbn [lstrip_num]; rewrite Hn; reflexivity. }
  rewrite Hl. apply rstrip_num_rstrip.
Qed.

Lemma strip_trailing_space (s : string) (c : ascii) :
  every (fun a => negb (is_space a)) s = true -> s <> EmptyString ->
  is_space c = true ->
  strip (s ++ String c EmptyString)%string = s.
Proof.
  intros Hs Hne Hc. unfold strip.
  assert (Hl : lstrip (s ++ String c EmptyString)%string
               = (s ++ String c EmptyString)%string).
  { destruct s as [|a s]; [congruence|]. cbn in *.
    destruct (is_space a); [discriminate|reflexivity]. }
  rewrite Hl. clear Hl Hne.
  induction s as [|a s IH]; cbn [append rstrip].
  - rewrite Hc. reflexivity.
  - cbn in Hs. apply andb_prop in Hs. destruct Hs as [Ha Hs].
    rewrite (IH Hs). destruct s; [|reflexivity].
    destruct (is_space a); [discriminate|reflexivity].
Qed.

(** ** A failing encoder *)

Lemma remove_index_other (index : nat) (q : CP.t) (l : list CP.t) :
  In q l -> CP.index q <> index -> In q (MW.remove_index index l).
Proof.
  intros Hin Hne. induction l as [|p l IH]; cbn [MW.remove_index];
    [contradiction|].
  destruct (CP.index p =? index)%nat eqn:Hp.
  - destruct Hin as [->|Hin]; [|exact Hin].
    apply Nat.eqb_eq in Hp. contradiction.
  - destruct Hin as [->|Hin]; [left; reflexivity|right; exact (IH Hin)].
Qed.

(** C7, what the code does: when the encoder of a process made by
    [__init__] exits with a non-zero code, the process emits the "Error"
    status, an error event whose text is empty whatever the encoder wrote
    on its standard error (the channels are merged), and one finished event
    with its index and the exit code.  In the window this records the input
    file as failed and counts the job; every other active process stays
    active, and queued jobs are admitted into the free slots. *)
Theorem C7_failed_exit :
  forall (ffprobe : string -> res string) (index : nat)
         (input_file output_file bitrate format : string) (self : CP.t)
         (return_code : Z) (stderr_written : string),
    CP.__init__ ffprobe index input_file output_file bitrate format
    = Ok self ->
    return_code <> 0%Z ->
    CP.process_finished (CP.started self) return_code stderr_written
    = ([CP.emit (CP.status_update index "Error");
        CP.emit (CP.error_occurred index "");
        CP.emit (CP.finished index return_code)],
       Ok tt)
    /\ forall (w : MW.t) (file : string),
         nth_error (MW.files w) index = Some file ->
         MW.total_files w <> 0%Z ->
         exists (w' : MW.t) (k : nat),
           MW.step (MW.process_exited (CP.started self) return_code
                      stderr_written) w = Ok w'
           /\ MW.failed_files w' = MW.failed_files w ++ [file]
           /\ MW.completed_files w' = (MW.completed_files w + 1)%Z
           /\ MW.active_processes w'
              = MW.remove_index index (MW.active_processes w)
                ++ map CP.started (firstn k (MW.conversion_queue w))
           /\ MW.conversion_queue w' = skipn k (MW.conversion_queue w)
           /\ k = Nat.min
                    (Z.to_nat
                       (MW.max_concurrent_processes w
                        - Z.of_nat
                            (List.length
                               (MW.remove_index index
                                  (MW.active_processes w)))))
                    (List.length (MW.conversion_queue w))
           /\ (forall q : CP.t,
                  In q (MW.active_processes w) -> CP.index q <> index ->
                  In q (MW.active_processes w')).
Proof.
  intros ffprobe index input_file output_file bitrate format self
    return_code stderr_written Hinit Hcode.
  destruct (init_never_raises ffprobe index input_file output_file bitrate
              format) as (duration & _ & Hmk).
  rewrite Hmk in Hinit. inversion Hinit; subst self; clear Hinit.
  assert (Hneq : (return_code =? 0)%Z = false) by (apply Z.eqb_neq; exact Hcode).
  assert (Hcp : CP.process_finished
                  (CP.started
                     (CP.mk index input_file output_file bitrate format
                        CP.MergedChannels false duration))
                  return_code stderr_written
                = ([CP.emit (CP.status_update index "Error");
                    CP.emit (CP.error_occurred index "");
                    CP.emit (CP.finished index return_code)], Ok tt)).
  { unfold CP.process_finished. rewrite Hneq. reflexivity. }
  split; [exact Hcp|].
  intros w file Hfile Htotal.
  assert (Hz : (MW.total_files w =? 0)%Z = false)
    by (apply Z.eqb_neq; exact Htotal).
  cbn [MW.step]. rewrite Hcp. unfold MW.invoke.
  cbn [MW.perform MW.slot bind].
  unfold MW.handle_error.
  cbn [MW.files MW.call MW.update_status]. rewrite Hfile.
  cbn [bind]. unfold MW.process_finished.
  cbn [MW.total_files MW.set_completed_files MW.update_status MW.call
       MW.set_failed_files].
  rewrite Hz. unfold MW.start_next_processes.
  rewrite (start_next_loop_spec _ _ eq_refl). cbn [bind].
  cbn [MW.completed_files MW.total_files MW.failed_files MW.files
       MW.output_folder MW.is_converting MW.active_processes
       MW.conversion_queue MW.max_concurrent_processes MW.ui
       MW.set_completed_files MW.set_active_processes MW.call
       MW.set_failed_files MW.update_status MW.set_is_converting].
  match goal with |- context [firstn ?n (MW.conversion_queue w)] =>
    set (k := n) end.
  assert (Hin : forall q : CP.t,
             In q (MW.active_processes w) -> CP.index q <> index ->
             In q (MW.remove_index index (MW.active_processes w)
                   ++ map CP.started (firstn k (MW.conversion_queue w)))).
  { intros q Hq Hne. apply in_or_app. left.
    apply remove_index_other; assumption. }
  destruct (MW.completed_files w + 1 =? MW.total_files w)%Z.
  - destruct (MW.failed_files w ++ [file]) eqn:Hf.
    + exfalso. apply (app_cons_not_nil _ _ _ (eq_sym Hf)).
    + rewrite <- Hf. cbn [bind snd].
      eexists; exists k. split; [reflexivity|].
      cbn [MW.failed_files MW.completed_files MW.active_processes
           MW.conversion_queue].
      repeat (split; [reflexivity|]). exact Hin.
  - cbn [bind snd]. eexists; exists k. split; [reflexivity|].
    cbn [MW.failed_files MW.completed_files MW.active_processes
         MW.conversion_queue].
    repeat (split; [reflexivity|]). exact Hin.
Qed.

(** Two of three files run on three cores; the encoder of the first
    writes on its standard error and exits with code 1. *)
Lemma C7_failed_exit_witness :
  let w := Scenario.after 3
             [Scenario.choose ["a.wav"; "b.wav"; "c.wav"];
              MW.start_clicked (Scenario.env_with [])] in
  let self := CP.mk 0 "a.wav" "out/a.mp3" "192k" "mp3"
                CP.MergedChannels false Scenario.ten in
  CP.process_finished (CP.started self) 1 "a.wav: Invalid data"
  = ([CP.emit (CP.status_update 0 "Error");
      CP.emit (CP.error_occurred 0 "");
      CP.emit (CP.finished 0 1)], Ok tt)
  /\ exists w' : MW.t,
       MW.step (MW.process_exited (CP.started self) 1
                  "a.wav: Invalid data") w = Ok w'
       /\ MW.failed_files w' = ["a.wav"]
       /\ List.map CP.index (MW.active_processes w') = [1; 2]%nat.
Proof.
  intros w self.
  destruct (C7_failed_exit Scenario.probe_ten 0 "a.wav" "out/a.mp3"
              "192k" "mp3" self 1 "a.wav: Invalid data"
              ltac:(vm_compute; reflexivity) ltac:(discriminate))
    as [Hcp Hwin].
  split; [exact Hcp|].
  destruct (Hwin w "a.wav" ltac:(vm_compute; reflexivity)
              ltac:(vm_compute; discriminate))
    as (w' & k & Hstep & Hfailed & _ & Hactive & _ & Hk & _).
  exists w'. split; [exact Hstep|]. split.
  - rewrite Hfailed. vm_compute. reflexivity.
  - rewrite Hactive, Hk. vm_compute. reflexivity.
Defined.

(** * Further properties of the code *)

(** ** The list of files *)

Lemma mem_In (file : string) (l : list string) :
  MW.mem file l = true <-> In file l.
Proof.
  unfold MW.mem. rewrite existsb_exists. split.
  - intros (x & Hx & He). apply String.eqb_eq in He. subst x. exact Hx.
  - intros H. exists file. split; [exact H|apply String.eqb_refl].
Qed.

Lemma first_new_In (l : list string) :
  forall (seen : list string) (x : string),
    In x (first_new seen l) <-> In x l /\ ~ In x seen.
Proof.
  induction l as [|a l IH]; intros seen x; cbn [first_new In].
  - split; [intros []|intros [[] _]].
  - destruct (MW.mem a seen) eqn:Hm.
    + apply mem_In in Hm. rewrite IH. split.
      * intros [H1 H2]. split; [right; exact H1|exact H2].
      * intros [[->|H1] H2]; [contradiction|split; assumption].
    + assert (Hnot : ~ In a seen).
      { intros H. apply mem_In in H. congruence. }
      cbn [In]. rewrite IH. split.
      * intros [->|[H1 H2]].
        -- split; [left; reflexivity|exact Hnot].
        -- split; [right; exact H1|].
           intros H. apply H2. apply in_or_app. left. exact H.
      * intros [[->|H1] H2]; [left; reflexivity|].
        destruct (string_dec a x) as [->|Hne]; [left; reflexivity|].
        right. split; [exact H1|].
        intros H. apply in_app_or in H. destruct H as [H|[H|[]]];
          [contradiction|congruence].
Qed.

Lemma first_new_NoDup (l : list string) :
  forall seen : list string, NoDup (first_new seen l).
Proof.
  induction l as [|a l IH]; intros seen; cbn [first_new];
    [constructor|].
  destruct (MW.mem a seen); [apply IH|].
  constructor; [|apply IH].
  rewrite first_new_In. intros [_ H]. apply H.
  apply in_or_app. right. left. reflexivity.
Qed.

Lemma first_new_app (l1 l2 : list string) :
  forall seen : list string,
    first_new seen (l1 ++ l2)
    = first_new seen l1 ++ first_new (seen ++ first_new seen l1) l2.
Proof.
  induction l1 as [|a l1 IH]; intros seen; cbn [app first_new].
  - rewrite app_nil_r. reflexivity.
  - destruct (MW.mem a seen); [apply IH|].
    cbn [app]. rewrite IH, <- app_assoc. reflexivity.
Qed.

(** [add_files] in closed form. *)
Lemma add_files_closed (valid : string -> bool) (chosen : list string) :
  forall w : MW.t,
    MW.add_files valid chosen w
    = MW.mk (MW.files w ++ first_new (MW.files w) (filter valid chosen))
        (MW.output_folder w) (MW.is_converting w)
        (MW.active_processes w) (MW.conversion_queue w)
        (MW.max_concurrent_processes w) (MW.total_files w)
        (MW.completed_files w) (MW.failed_files w)
        (MW.ui w
         ++ map MW.table_row
              (first_new (MW.files w) (filter valid chosen))).
Proof.
  induction chosen as [|file rest IH]; intros w;
    cbn [MW.add_files filter].
  - cbn [first_new map]. rewrite !app_nil_r. apply window_eta.
  - destruct (valid file); [|rewrite andb_false_r; apply IH].
    rewrite andb_true_r. cbn [first_new].
    destruct (MW.mem file (MW.files w)); cbn [negb]; [apply IH|].
    rewrite IH.
    cbn [MW.files MW.output_folder MW.is_converting MW.active_processes
         MW.conversion_queue MW.max_concurrent_processes MW.total_files
         MW.completed_files MW.failed_files MW.ui MW.call MW.set_files map].
    rewrite <- !app_assoc. reflexivity.
Qed.

(** X1: [add_files] appends to the list, each with its table row, the chosen
    files that pass the validity test and are not listed yet, each once, at
    its first occurrence and in the order chosen: files listed before stay
    where they are, a list without duplicates stays without duplicates,
    every chosen valid file is listed afterwards, and neither the jobs nor
    the counters are touched. *)
Theorem add_files_appends_new_valid :
  forall (valid : string -> bool) (chosen : list string) (w : MW.t),
  exists added : list string,
    MW.add_files valid chosen w
    = MW.mk (MW.files w ++ added) (MW.output_folder w) (MW.is_converting w)
        (MW.active_processes w) (MW.conversion_queue w)
        (MW.max_concurrent_processes w) (MW.total_files w)
        (MW.completed_files w) (MW.failed_files w)
        (MW.ui w ++ map MW.table_row added)
    /\ added = first_new (MW.files w) (filter valid chosen)
    /\ NoDup added
    /\ (forall file : string,
           In file added <->
           In file chosen /\ valid file = true /\ ~ In file (MW.files w))
    /\ (NoDup (MW.files w) -> NoDup (MW.files w ++ added))
    /\ (forall file : string,
           In file chosen -> valid file = true ->
           In file (MW.files w ++ added)).
Proof.
  intros valid chosen w.
  exists (first_new (MW.files w) (filter valid chosen)).
  split; [apply add_files_closed|]. split; [reflexivity|].
  split; [apply first_new_NoDup|].
  assert (Hin : forall file : string,
             In file (first_new (MW.files w) (filter valid chosen)) <->
             In file chosen /\ valid file = true /\ ~ In file (MW.files w)).
  { intros file. rewrite first_new_In, filter_In. tauto. }
  split; [exact Hin|]. split.
  - intros Hnd. apply NoDup_app; [exact Hnd|apply first_new_NoDup|].
    intros a Ha Hadded. apply Hin in Hadded. tauto.
  - intros file Hc Hv. rewrite in_app_iff.
    destruct (in_dec string_dec file (MW.files w)) as [H|H];
      [left; exact H|].
    right. apply Hin. auto.
Qed.

(** Chosen: a new file, a listed one, the new one again, an invalid one,
    another new one. *)
Lemma add_files_appends_new_valid_witness :
  MW.files
    (MW.add_files (fun file => negb (String.eqb file "x.txt"))
       ["b.wav"; "a.wav"; "b.wav"; "x.txt"; "c.wav"]
       (MW.set_files ["a.wav"] (MW.__init__ 2)))
  = ["a.wav"; "b.wav"; "c.wav"].
Proof.
  destruct (add_files_appends_new_valid
              (fun file => negb (String.eqb file "x.txt"))
              ["b.wav"; "a.wav"; "b.wav"; "x.txt"; "c.wav"]
              (MW.set_files ["a.wav"] (MW.__init__ 2)))
    as (added & Heq & Hadded & _).
  rewrite Heq, Hadded. reflexivity.
Defined.

Lemma filter_map_join (valid : string -> bool)
  (join : string -> string -> string) (root : string)
  (names : list string) :
  filter valid (map (join root) (filter MW.supported names))
  = match names with
    | [] => []
    | file :: rest =>
        if MW.supported file
        then if valid (join root file)
             then join root file
                  :: filter valid
                       (map (join root) (filter MW.supported rest))
             else filter valid (map (join root) (filter MW.supported rest))
        else filter valid (map (join root) (filter MW.supported rest))
    end.
Proof.
  destruct names as [|file rest]; cbn [filter map]; [reflexivity|].
  destruct (MW.supported file); cbn [filter map]; reflexivity.
Qed.

(** The inner loop of [add_folder] in closed form. *)
Lemma add_folder_files_closed (valid : string -> bool)
  (join : string -> string -> string) (root : string)
  (names : list string) :
  forall (n : Z) (w : MW.t),
    MW.add_folder_files valid join root names n w
    = let added :=
        first_new (MW.files w)
          (filter valid (map (join root) (filter MW.supported names))) in
      ((n + Z.of_nat (List.length added))%Z,
       MW.mk (MW.files w ++ added) (MW.output_folder w)
         (MW.is_converting w) (MW.active_processes w)
         (MW.conversion_queue w) (MW.max_concurrent_processes w)
         (MW.total_files w) (MW.completed_files w) (MW.failed_files w)
         (MW.ui w ++ map MW.table_row added)).
Proof.
  induction names as [|file rest IH]; intros n w;
    rewrite filter_map_join; cbn [MW.add_folder_files].
  - cbn [first_new map List.length]. rewrite !app_nil_r, Z.add_0_r.
    f_equal. apply window_eta.
  - destruct (MW.supported file); [|apply IH].
    destruct (valid (join root file));
      [|rewrite andb_false_r; apply IH].
    rewrite andb_true_r. cbn [first_new].
    destruct (MW.mem (join root file) (MW.files w)); cbn [negb];
      [apply IH|].
    rewrite IH.
    cbn [MW.files MW.output_folder MW.is_converting MW.active_processes
         MW.conversion_queue MW.max_concurrent_processes MW.total_files
         MW.completed_files MW.failed_files MW.ui MW.call MW.set_files
         map List.length].
    rewrite <- !app_assoc. cbn [app]. f_equal. lia.
Qed.

(** The outer loop of [add_folder] in closed form. *)
Lemma add_folder_walk_closed (valid : string -> bool)
  (join : string -> string -> string)
  (walked : list (string * list string)) :
  forall (n : Z) (w : MW.t),
    MW.add_folder_walk valid join walked n w
    = let added :=
        first_new (MW.files w) (filter valid (walked_paths join walked)) in
      ((n + Z.of_nat (List.length added))%Z,
       MW.mk (MW.files w ++ added) (MW.output_folder w)
         (MW.is_converting w) (MW.active_processes w)
         (MW.conversion_queue w) (MW.max_concurrent_processes w)
         (MW.total_files w) (MW.completed_files w) (MW.failed_files w)
         (MW.ui w ++ map MW.table_row added)).
Proof.
  induction walked as [|[root names] rest IH]; intros n w;
    cbn [MW.add_folder_walk walked_paths flat_map fst snd].
  - cbn [filter first_new map List.length]. rewrite !app_nil_r, Z.add_0_r.
    f_equal. apply window_eta.
  - rewrite add_folder_files_closed. cbv beta iota zeta.
    rewrite IH. cbv beta iota zeta.
    cbn [MW.files MW.output_folder MW.is_converting MW.active_processes
         MW.conversion_queue MW.max_concurrent_processes MW.total_files
         MW.completed_files MW.failed_files MW.ui].
    fold (walked_paths join rest).
    rewrite filter_app, first_new_app, map_app, length_app, !app_assoc.
    f_equal. lia.
Qed.

(** X2: [add_folder] appends, each with its table row, the paths of the
    files that the walk finds, directory after directory and name after
    name, whose name ends in a supported format, that pass the validity
    test and are not listed yet, each once; none of them is left out.  The
    count it announces is the number of files it appended; a list without
    duplicates stays without duplicates; a cancelled dialog changes
    nothing and announces nothing. *)
Theorem add_folder_counts_what_it_adds :
  forall (valid : string -> bool) (join : string -> string -> string)
         (walk : string -> list (string * list string))
         (folder : string) (w : MW.t),
    (folder = "" -> MW.add_folder valid join walk folder w = (None, w))
    /\ (folder <> "" ->
        exists added : list string,
          MW.add_folder valid join walk folder w
          = (Some (Z.of_nat (List.length added)),
             MW.mk (MW.files w ++ added) (MW.output_folder w)
               (MW.is_converting w) (MW.active_processes w)
               (MW.conversion_queue w) (MW.max_concurrent_processes w)
               (MW.total_files w) (MW.completed_files w)
               (MW.failed_files w) (MW.ui w ++ map MW.table_row added))
          /\ added
             = first_new (MW.files w)
                 (filter valid (walked_paths join (walk folder)))
          /\ NoDup added
          /\ (forall path : string,
                 In path added <->
                 (exists (root file : string) (names : list string),
                     In (root, names) (walk folder) /\ In file names
                     /\ MW.supported file = true
                     /\ path = join root file)
                 /\ valid path = true /\ ~ In path (MW.files w))
          /\ (NoDup (MW.files w) -> NoDup (MW.files w ++ added))).
Proof.
  intros valid join walk folder w. unfold MW.add_folder. split.
  - intros ->. reflexivity.
  - intros Hne. destruct (String.eqb folder "") eqn:He.
    { apply String.eqb_eq in He. contradiction. }
    rewrite add_folder_walk_closed. cbv zeta.
    exists (first_new (MW.files w)
              (filter valid (walked_paths join (walk folder)))).
    split; [reflexivity|]. split; [reflexivity|].
    split; [apply first_new_NoDup|].
    assert (Hin : forall path : string,
               In path
                 (first_new (MW.files w)
                    (filter valid (walked_paths join (walk folder)))) <->
               (exists (root file : string) (names : list string),
                   In (root, names) (walk folder) /\ In file names
                   /\ MW.supported file = true
                   /\ path = join root file)
               /\ valid path = true /\ ~ In path (MW.files w)).
    { intros path. rewrite first_new_In, filter_In.
      unfold walked_paths. rewrite in_flat_map. split.
      - intros [[([root names] & Hd & Hp) Hv] Hnew].
        cbn [fst snd] in Hp. apply in_map_iff in Hp.
        destruct Hp as (file & <- & Hf). apply filter_In in Hf.
        destruct Hf as [Hf Hs].
        split; [|split; assumption].
        exists root, file, names. auto.
      - intros [(root & file & names & Hd & Hf & Hs & ->) [Hv Hnew]].
        split; [|exact Hnew]. split; [|exact Hv].
        exists (root, names). split; [exact Hd|].
        cbn [fst snd]. apply in_map. apply filter_In. auto. }
    split; [exact Hin|].
    intros Hnd. apply NoDup_app; [exact Hnd|apply first_new_NoDup|].
    intros a Ha Hadded. apply Hin in Hadded. tauto.
Qed.

(** The empty dialog answer, and a folder with one sub-folder, one of its
    files being listed already. *)
Lemma add_folder_counts_what_it_adds_witness :
  MW.add_folder (fun _ => true) Scenario.join Scenario.walk ""
    (MW.__init__ 2)
  = (None, MW.__init__ 2)
  /\ exists added : list string,
       MW.add_folder (fun _ => true) Scenario.join Scenario.walk "d"
         (MW.set_files ["d/c.WAV"] (MW.__init__ 2))
       = (Some 2%Z,
          MW.call (MW.table_row "d/e/a.mp3")
            (MW.call (MW.table_row "d/a.mp3")
               (MW.set_files ("d/c.WAV" :: added) (MW.__init__ 2))))
       /\ added = ["d/a.mp3"; "d/e/a.mp3"].
Proof.
  destruct (add_folder_counts_what_it_adds (fun _ => true) Scenario.join
              Scenario.walk "" (MW.__init__ 2)) as [Hnone _].
  split; [exact (Hnone eq_refl)|].
  destruct (add_folder_counts_what_it_adds (fun _ => true) Scenario.join
              Scenario.walk "d"
              (MW.set_files ["d/c.WAV"] (MW.__init__ 2))) as [_ Hsome].
  assert (Hd : "d" <> "") by discriminate.
  destruct (Hsome Hd) as (added & Heq & Hadded & _).
  exists added. rewrite Heq, Hadded.
  split; vm_compute; reflexivity.
Defined.

(** *** The format filter of [add_folder] *)

Lemma endswith_append (stem suffix : string) :
  MW.endswith (stem ++ suffix)%string suffix = true.
Proof.
  induction stem as [|a stem IH]; cbn [append].
  - destruct suffix; cbn [MW.endswith];
      rewrite String.eqb_refl; reflexivity.
  - cbn [MW.endswith]. rewrite IH. apply orb_true_r.
Qed.

Lemma endswith_split (s suffix : string) :
  MW.endswith s suffix = true ->
  exists stem : string, s = (stem ++ suffix)%string.
Proof.
  induction s as [|a s IH]; cbn [MW.endswith].
  - rewrite orb_false_r. intros H. apply String.eqb_eq in H.
    exists EmptyString. exact H.
  - intros H. apply orb_prop in H. destruct H as [H|H].
    + apply String.eqb_eq in H. exists EmptyString. exact H.
    + destruct (IH H) as (stem & Hs). exists (String a stem).
      cbn [append]. rewrite Hs. reflexivity.
Qed.

(** X3: The filter of [add_folder] looks at the end of the lower-cased name
    only: a name passes exactly when, in lower case, it is some text
    followed by one of the ten format names.  No dot is asked for before
    the format name, and the letter case of the name does not matter. *)
Theorem supported_is_a_suffix_test :
  forall name : string,
    MW.supported name = true
    <-> exists stem ext : string,
          In ext MW.SUPPORTED_FORMATS
          /\ MW.str_lower name = (stem ++ ext)%string.
Proof.
  intros name. unfold MW.supported. rewrite existsb_exists. split.
  - intros (ext & Hin & Hend). destruct (endswith_split _ _ Hend) as (stem & Hs).
    exists stem, ext. split; assumption.
  - intros (stem & ext & Hin & Hs). exists ext. split; [exact Hin|].
    rewrite Hs. apply endswith_append.
Qed.

(** *** Removing rows *)

Lemma insert_reverse_In (r x : nat) (l : list nat) :
  In x (MW.insert_reverse r l) <-> x = r \/ In x l.
Proof.
  induction l as [|y l IH]; cbn [MW.insert_reverse].
  - cbn. intuition.
  - destruct (y <=? r)%nat; cbn [In]; [intuition|].
    rewrite IH. intuition.
Qed.

Lemma sorted_reverse_In (x : nat) (rows : list nat) :
  In x (MW.sorted_reverse rows) <-> In x rows.
Proof.
  induction rows as [|r rows IH]; cbn [MW.sorted_reverse fold_right];
    [reflexivity|].
  fold (MW.sorted_reverse rows). rewrite insert_reverse_In, IH.
  cbn. intuition.
Qed.

Lemma insert_reverse_falling (r : nat) (l : list nat) :
  falling l -> ~ In r l -> falling (MW.insert_reverse r l).
Proof.
  induction l as [|y l IH]; cbn [MW.insert_reverse falling].
  - intros _ _. split; [intros x []|exact I].
  - intros [Hy Hl] Hr. destruct (Nat.leb_spec y r) as [Hle|Hgt].
    + cbn [falling]. split; [|split; assumption].
      intros x [Hx|Hx].
      * subst x. assert (y <> r) by (intros ->; apply Hr; left; reflexivity).
        lia.
      * specialize (Hy x Hx). lia.
    + cbn [falling]. split.
      * intros x Hx. apply insert_reverse_In in Hx.
        destruct Hx as [->|Hx]; [exact Hgt|exact (Hy x Hx)].
      * apply IH; [exact Hl|]. intros H. apply Hr. right. exact H.
Qed.

Lemma sorted_reverse_falling (rows : list nat) :
  NoDup rows -> falling (MW.sorted_reverse rows).
Proof.
  induction 1 as [|r rows Hr Hnd IH]; cbn [MW.sorted_reverse fold_right];
    [exact I|].
  fold (MW.sorted_reverse rows). apply insert_reverse_falling; [exact IH|].
  rewrite sorted_reverse_In. exact Hr.
Qed.

Lemma without_rows_below (rows : list nat) (l : list string) :
  forall i : nat,
    (forall x, In x rows -> (x < i)%nat) -> without_rows rows i l = l.
Proof.
  induction l as [|y l IH]; intros i Hrows; cbn [without_rows];
    [reflexivity|].
  destruct (existsb (Nat.eqb i) rows) eqn:He.
  - apply existsb_exists in He. destruct He as (x & Hx & Heq).
    apply Nat.eqb_eq in Heq. subst x. specialize (Hrows i Hx). lia.
  - rewrite IH; [reflexivity|]. intros x Hx. specialize (Hrows x Hx). lia.
Qed.

(** One [pop] at row [r], seen from the rows below it. *)
Lemma pop_without_rows (rows : list nat) (l : list string) :
  forall i r : nat,
    (r < List.length l)%nat ->
    (forall x, In x rows -> (x < i + r)%nat) ->
    exists remaining : list string,
      MW.pop r l = Ok remaining
      /\ List.length remaining = pred (List.length l)
      /\ without_rows rows i remaining = without_rows ((i + r)%nat :: rows) i l.
Proof.
  induction l as [|y l IH]; intros i r Hr Hrows; cbn [List.length] in Hr;
    [lia|].
  destruct r as [|r]; cbn [MW.pop].
  - exists l. split; [reflexivity|]. split; [reflexivity|].
    cbn [without_rows existsb]. rewrite Nat.add_0_r, Nat.eqb_refl.
    cbn [orb].
    rewrite (without_rows_below rows l i)
      by (intros x Hx; specialize (Hrows x Hx); lia).
    rewrite (without_rows_below (i :: rows) l (S i)); [reflexivity|].
    intros x [Hx|Hx]; [lia|]. specialize (Hrows x Hx). lia.
  - destruct (IH (S i) r) as (remaining & Hpop & Hlen & Hw); [lia| |].
    { intros x Hx. specialize (Hrows x Hx). lia. }
    rewrite Hpop. cbn [bind]. exists (y :: remaining).
    split; [reflexivity|]. split.
    { cbn [List.length]. rewrite Hlen. destruct l; cbn in *; lia. }
    cbn [without_rows existsb].
    assert (Hi : (i =? i + S r)%nat = false) by (apply Nat.eqb_neq; lia).
    rewrite Hi. cbn [orb].
    replace (i + S r)%nat with (S i + r)%nat by lia.
    destruct (existsb (Nat.eqb i) rows); rewrite Hw; reflexivity.
Qed.

Lemma without_rows_same (rows rows' : list nat) (l : list string) :
  (forall x, In x rows <-> In x rows') ->
  forall i : nat, without_rows rows i l = without_rows rows' i l.
Proof.
  intros Hsame. induction l as [|y l IH]; intros i; cbn [without_rows];
    [reflexivity|].
  assert (He : existsb (Nat.eqb i) rows = existsb (Nat.eqb i) rows').
  { destruct (existsb (Nat.eqb i) rows) eqn:H1;
      destruct (existsb (Nat.eqb i) rows') eqn:H2; try reflexivity.
    - apply existsb_exists in H1. destruct H1 as (x & Hx & Heq).
      apply Hsame in Hx.
      assert (existsb (Nat.eqb i) rows' = true)
        by (apply existsb_exists; exists x; auto).
      congruence.
    - apply existsb_exists in H2. destruct H2 as (x & Hx & Heq).
      apply Hsame in Hx.
      assert (existsb (Nat.eqb i) rows = true)
        by (apply existsb_exists; exists x; auto).
      congruence. }
  rewrite He, !IH. reflexivity.
Qed.

Lemma remove_rows_falling (rows : list nat) :
  forall (removed : list nat) (w : MW.t),
    falling rows ->
    (forall x, In x rows -> (x < List.length (MW.files w))%nat) ->
    MW.remove_rows rows removed w
    = Ok (removed ++ rows,
          MW.set_files (without_rows rows 0 (MW.files w)) w).
Proof.
  induction rows as [|r rows IH]; intros removed w Hfall Hin;
    cbn [MW.remove_rows].
  - rewrite app_nil_r.
    rewrite (without_rows_below [] (MW.files w) 0) by (intros x []).
    destruct w; reflexivity.
  - destruct Hfall as [Hr Hfall].
    destruct (pop_without_rows rows (MW.files w) 0 r) as
      (remaining & Hpop & Hlen & Hw); [apply Hin; left; reflexivity| |].
    { intros x Hx. cbn. exact (Hr x Hx). }
    rewrite Hpop. cbn [bind].
    rewrite (IH (removed ++ [r]) (MW.set_files remaining w) Hfall).
    + cbn [MW.files MW.set_files]. rewrite Hw. cbn [Nat.add].
      rewrite <- app_assoc. reflexivity.
    + intros x Hx. cbn [MW.files MW.set_files]. rewrite Hlen.
      specialize (Hr x Hx).
      assert (r < List.length (MW.files w))%nat
        by (apply Hin; left; reflexivity).
      lia.
Qed.

(** X4: [remove_files] takes the selected rows out of the list, whatever the
    order in which the selection names them: it removes them from the
    highest to the lowest, so that the rows still to remove keep their
    numbers, and what is left is the list without the elements at the
    selected positions, in its order. *)
Theorem remove_files_removes_the_selection :
  forall (selected_rows : list nat) (w : MW.t),
    NoDup selected_rows ->
    (forall row : nat,
        In row selected_rows -> (row < List.length (MW.files w))%nat) ->
    MW.remove_files selected_rows w
    = Ok (MW.sorted_reverse selected_rows,
          MW.set_files (without_rows selected_rows 0 (MW.files w)) w)
    /\ (List.length (without_rows selected_rows 0 (MW.files w))
        + List.length selected_rows
        = List.length (MW.files w))%nat
    /\ forall (i : nat) (file : string),
         nth_error (MW.files w) i = Some file ->
         ~ In i selected_rows ->
         In file (without_rows selected_rows 0 (MW.files w)).
Proof.
  intros rows w Hnd Hin. split; [|split].
  - unfold MW.remove_files.
    rewrite (remove_rows_falling (MW.sorted_reverse rows) [] w).
    + cbn [app].
      rewrite (without_rows_same (MW.sorted_reverse rows) rows
                 (MW.files w) (fun x => sorted_reverse_In x rows) 0).
      reflexivity.
    + apply sorted_reverse_falling, Hnd.
    + intros x Hx. apply Hin. apply sorted_reverse_In. exact Hx.
  - revert Hnd Hin. generalize (MW.files w) as l.
    assert (Hgen : forall (l : list string) (i : nat) (rs : list nat),
               NoDup rs ->
               (forall x, In x rs -> (i <= x < i + List.length l)%nat) ->
               (List.length (without_rows rs i l) + List.length rs
                = List.length l)%nat).
    { induction l as [|y l IHl]; intros i rs Hrs Hbound;
        cbn [without_rows List.length].
      - destruct rs as [|x rs]; [reflexivity|].
        specialize (Hbound x (or_introl eq_refl)). cbn in Hbound. lia.
      - destruct (existsb (Nat.eqb i) rs) eqn:He.
        + apply existsb_exists in He. destruct He as (x & Hx & Heq).
          apply Nat.eqb_eq in Heq. subst x.
          destruct (in_split i rs Hx) as (l1 & l2 & Hs). subst rs.
          apply NoDup_remove in Hrs. destruct Hrs as [Hrs Hni].
          rewrite (without_rows_same (l1 ++ i :: l2) (i :: l1 ++ l2) l).
          * assert (Hdrop : without_rows (i :: l1 ++ l2) (S i) l
                            = without_rows (l1 ++ l2) (S i) l).
            { clear -l. revert l.
              assert (Hg : forall (l : list string) (j : nat),
                         (i < j)%nat ->
                         without_rows (i :: l1 ++ l2) j l
                         = without_rows (l1 ++ l2) j l).
              { induction l as [|z l IHz]; intros j Hj;
                  cbn [without_rows existsb]; [reflexivity|].
                assert (Hne : (j =? i)%nat = false)
                  by (apply Nat.eqb_neq; lia).
                rewrite Hne. cbn [orb].
                destruct (existsb (Nat.eqb j) (l1 ++ l2));
                  rewrite IHz by lia; reflexivity. }
              intros l. apply Hg. lia. }
            rewrite Hdrop.
            rewrite length_app. cbn [List.length].
            specialize (IHl (S i) (l1 ++ l2) Hrs).
            rewrite length_app in IHl.
            assert (Hb : forall x, In x (l1 ++ l2) ->
                                   (S i <= x < S i + List.length l)%nat).
            { intros x Hx'.
              assert (In x (l1 ++ i :: l2)).
              { apply in_app_or in Hx'. apply in_or_app.
                destruct Hx'; [left|right; right]; assumption. }
              specialize (Hbound x H). cbn in Hbound.
              assert (x <> i) by (intros ->; contradiction).
              lia. }
            specialize (IHl Hb). lia.
          * intros x. rewrite !in_app_iff. cbn [In]. rewrite in_app_iff.
            intuition.
        + cbn [List.length].
          specialize (IHl (S i) rs Hrs).
          assert (Hb : forall x, In x rs ->
                                 (S i <= x < S i + List.length l)%nat).
          { intros x Hx. specialize (Hbound x Hx). cbn in Hbound.
            assert (x <> i).
            { intros ->.
              assert (existsb (Nat.eqb i) rs = true)
                by (apply existsb_exists; exists i; split;
                    [exact Hx|apply Nat.eqb_refl]).
              congruence. }
            lia. }
          specialize (IHl Hb). lia. }
    intros l Hnd Hin. apply Hgen; [exact Hnd|].
    intros x Hx. specialize (Hin x Hx). lia.
  - assert (Hgen : forall (l : list string) (j i : nat) (file : string),
               nth_error l i = Some file ->
               ~ In (j + i)%nat rows ->
               In file (without_rows rows j l)).
    { induction l as [|y l IHl]; intros j i file Hnth Hni.
      - destruct i; discriminate.
      - cbn [without_rows]. destruct i as [|i]; cbn [nth_error] in Hnth.
        + inversion Hnth; subst y. rewrite Nat.add_0_r in Hni.
          destruct (existsb (Nat.eqb j) rows) eqn:He.
          * apply existsb_exists in He. destruct He as (x & Hx & Heq).
            apply Nat.eqb_eq in Heq. subst x. contradiction.
          * left. reflexivity.
        + assert (Hrec : In file (without_rows rows (S j) l)).
          { apply (IHl (S j) i); [exact Hnth|].
            replace (S j + i)%nat with (j + S i)%nat by lia. exact Hni. }
          destruct (existsb (Nat.eqb j) rows); [|right]; exact Hrec. }
    intros i file Hnth Hni. apply (Hgen (MW.files w) 0%nat i); assumption.
Qed.

(** Rows 2, 0 and 3 of four files, named in that order. *)
Lemma remove_files_removes_the_selection_witness :
  MW.remove_files [2; 0; 3]%nat
    (MW.set_files ["a.wav"; "b.wav"; "c.wav"; "d.wav"] (MW.__init__ 2))
  = Ok ([3; 2; 0]%nat, MW.set_files ["b.wav"] (MW.__init__ 2)).
Proof.
  destruct (remove_files_removes_the_selection [2; 0; 3]%nat
              (MW.set_files ["a.wav"; "b.wav"; "c.wav"; "d.wav"]
                 (MW.__init__ 2))) as [H _].
  - repeat constructor; cbn; intuition discriminate.
  - cbn. intros row [<-|[<-|[<-|[]]]]; lia.
  - exact H.
Defined.

(** ** Starting a conversion *)

(** X5: A start that is refused, because a conversion is running or because an
    input is missing, shows one warning and touches neither the jobs nor
    the counters; the one thing it can change is the output folder, which
    is taken over before the encoder is looked for. *)
Theorem start_refused_changes_nothing :
  forall (e : MW.env) (w : MW.t),
    MW.is_converting w = true \/ MW.files w = []
    \/ MW.output_text e = "" \/ MW.path_exists e (MW.output_text e) = false
    \/ MW.ffmpeg_found e = false ->
    exists (m : MW.message) (folder : string),
      MW.start_conversion e w
      = Ok (MW.mk (MW.files w) folder (MW.is_converting w)
              (MW.active_processes w) (MW.conversion_queue w)
              (MW.max_concurrent_processes w) (MW.total_files w)
              (MW.completed_files w) (MW.failed_files w)
              (MW.ui w ++ [MW.message_box m]))
      /\ In m [MW.already_converting; MW.no_input_files;
               MW.no_output_folder; MW.output_folder_missing;
               MW.ffmpeg_missing]
      /\ (MW.is_converting w = true -> m = MW.already_converting)
      /\ (m <> MW.ffmpeg_missing -> folder = MW.output_folder w)
      /\ (m = MW.ffmpeg_missing -> folder = MW.output_text e).
Proof.
  intros e w H. unfold MW.start_conversion.
  destruct w as [files folder conv act queue mx tot comp failed ui].
  cbn [MW.files MW.is_converting MW.output_folder MW.active_processes
       MW.conversion_queue MW.max_concurrent_processes MW.total_files
       MW.completed_files MW.failed_files MW.ui] in *.
  destruct conv.
  - exists MW.already_converting, folder. cbn.
    split; [reflexivity|]. split; [auto|]. split; [reflexivity|].
    split; [reflexivity|discriminate].
  - destruct H as [H|H]; [discriminate|].
    unfold MW.validate_inputs. cbn [MW.files].
    destruct files as [|file files].
    { exists MW.no_input_files, folder. cbn.
      split; [reflexivity|]. split; [auto|]. split; [discriminate|].
      split; [reflexivity|discriminate]. }
    destruct H as [H|H]; [discriminate|].
    destruct (String.eqb (MW.output_text e) "") eqn:Ht.
    { exists MW.no_output_folder, folder. cbn.
      split; [reflexivity|]. split; [auto|]. split; [discriminate|].
      split; [reflexivity|discriminate]. }
    destruct H as [H|H];
      [subst; rewrite H in Ht; cbn in Ht; discriminate|].
    destruct (MW.path_exists e (MW.output_text e)) eqn:Hp.
    2:{ exists MW.output_folder_missing, folder. cbn.
        split; [reflexivity|]. split; [auto 6|]. split; [discriminate|].
        split; [reflexivity|discriminate]. }
    destruct H as [H|H]; [discriminate|].
    rewrite H. exists MW.ffmpeg_missing, (MW.output_text e). cbn.
    split; [reflexivity|]. split; [auto 6|]. split; [discriminate|].
    split; [intros Hm; contradiction Hm; reflexivity|reflexivity].
Qed.

(** No file in the list: one warning, nothing else. *)
Lemma start_refused_changes_nothing_witness :
  exists (m : MW.message) (folder : string),
    MW.start_conversion (Scenario.env_with []) (MW.__init__ 4)
    = Ok (MW.mk [] folder false [] [] 3 0 0 [] [MW.message_box m]).
Proof.
  destruct (start_refused_changes_nothing (Scenario.env_with [])
              (MW.__init__ 4)) as (m & folder & H & _).
  - right. left. reflexivity.
  - exists m, folder. exact H.
Defined.

Lemma In_taken (A : Type) (x : A) (n : nat) (l : list A) :
  In x (firstn n l) -> In x l.
Proof.
  intros H. rewrite <- (firstn_skipn n l). apply in_or_app. left. exact H.
Qed.

Lemma In_left (A : Type) (x : A) (n : nat) (l : list A) :
  In x (skipn n l) -> In x l.
Proof.
  intros H. rewrite <- (firstn_skipn n l). apply in_or_app. right. exact H.
Qed.

Lemma key_started (p : CP.t) : key (CP.started p) = key p.
Proof. reflexivity. Qed.

Lemma map_key_started (l : list CP.t) :
  map key (map CP.started l) = map key l.
Proof. rewrite map_map. apply map_ext. intros p. reflexivity. Qed.

Lemma map_index_started (l : list CP.t) :
  map CP.index (map CP.started l) = map CP.index l.
Proof. rewrite map_map. apply map_ext. intros p. reflexivity. Qed.

(** The [for] of [start_conversion] in closed form: the rows that are not
    skipped become process objects at the end of the queue, in order. *)
Lemma enqueue_files_jobs (e : MW.env) (inputs : list string) :
  forall (index : nat) (w : MW.t),
  (index + List.length inputs <= List.length (MW.files w))%nat ->
  exists (js : list CP.t) (calls : list MW.ui_call),
    MW.enqueue_files e index inputs w
    = Ok (MW.mk (MW.files w) (MW.output_folder w) (MW.is_converting w)
            (MW.active_processes w) (MW.conversion_queue w ++ js)
            (MW.max_concurrent_processes w) (MW.total_files w)
            (MW.completed_files w) (MW.failed_files w)
            (MW.ui w ++ calls))
    /\ map key js = kept_rows e (MW.output_folder w) index inputs
    /\ Forall (fun p => job_of e (MW.output_folder w) p
                        /\ CP.running p = false) js.
Proof.
  induction inputs as [|input_file rest IH]; intros index w Hrows.
  - exists [], []. cbn [MW.enqueue_files]. rewrite !app_nil_r.
    split; [destruct w; reflexivity|]. split; [reflexivity|constructor].
  - cbn [MW.enqueue_files]. cbn [List.length] in Hrows.
    fold (skipped e (MW.output_folder w) input_file).
    unfold kept_rows. cbn [List.length seq combine filter snd].
    destruct (skipped e (MW.output_folder w) input_file) eqn:Hskip;
      cbn [negb].
    + rewrite update_progress_100
        by (unfold MW.has_row; cbn [MW.update_status MW.call MW.files];
            apply Nat.ltb_lt; lia).
      cbn [bind].
      destruct (IH (S index)
                  (MW.call (MW.bar_value index (Fin 100))
                     (MW.update_status index "Omitido" w)))
        as (js & calls & Heq & Hkeys & Hjobs);
        [cbn [MW.update_status MW.call MW.files]; lia|].
      rewrite Heq.
      exists js, ([MW.table_status index "Omitido";
                   MW.bar_value index (Fin 100)] ++ calls).
      cbn [MW.files MW.output_folder MW.is_converting MW.active_processes
           MW.conversion_queue MW.max_concurrent_processes MW.total_files
           MW.completed_files MW.failed_files MW.ui MW.call
           MW.update_status] in *.
      rewrite <- !app_assoc. cbn [app].
      split; [reflexivity|]. split; [exact Hkeys|exact Hjobs].
    + destruct (init_never_raises (MW.ffprobe e) index input_file
                  (MW.output_path e (MW.output_folder w) input_file
                     (MW.format_text e))
                  (MW.bitrate_text e) (MW.format_text e))
        as (duration & _ & Hinit).
      rewrite Hinit. cbn [bind].
      match goal with
      | |- context [MW.set_conversion_queue (_ ++ [?p]) w] => set (job := p)
      end.
      destruct (IH (S index)
                  (MW.set_conversion_queue
                     (MW.conversion_queue w ++ [job]) w))
        as (js & calls & Heq & Hkeys & Hjobs);
        [cbn [MW.set_conversion_queue MW.files]; lia|].
      rewrite Heq. exists (job :: js), calls.
      cbn [MW.files MW.output_folder MW.is_converting MW.active_processes
           MW.conversion_queue MW.max_concurrent_processes MW.total_files
           MW.completed_files MW.failed_files MW.ui
           MW.set_conversion_queue] in *.
      rewrite <- !app_assoc. cbn [app].
      split; [reflexivity|]. split.
      * cbn [map]. unfold kept_rows in Hkeys. rewrite Hkeys. reflexivity.
      * constructor; [|exact Hjobs].
        split; [|reflexivity]. repeat split.
Qed.

Lemma admitted_busy (w : MW.t) (active queue : list CP.t) :
  active
  = MW.active_processes w
    ++ map CP.started (firstn (admitted w) (MW.conversion_queue w)) ->
  queue = skipn (admitted w) (MW.conversion_queue w) ->
  queue = []
  \/ (MW.max_concurrent_processes w <= Z.of_nat (List.length active))%Z.
Proof.
  intros -> ->. unfold admitted.
  set (room := Z.to_nat (MW.max_concurrent_processes w
                         - Z.of_nat (List.length (MW.active_processes w)))).
  destruct (Nat.le_gt_cases (List.length (MW.conversion_queue w)) room)
    as [Hle|Hgt].
  - left. rewrite Nat.min_r by exact Hle. apply skipn_all.
  - right. rewrite Nat.min_l by lia.
    rewrite length_app, length_map, firstn_length_le by lia.
    subst room. lia.
Qed.

(** An accepted start in closed form. *)
Lemma start_conversion_accepted (e : MW.env) (w : MW.t) :
  MW.is_converting w = false ->
  MW.files w <> [] ->
  MW.output_text e <> "" ->
  MW.path_exists e (MW.output_text e) = true ->
  MW.ffmpeg_found e = true ->
  exists (js : list CP.t) (calls : list MW.ui_call),
    MW.start_conversion e w
    = Ok (MW.mk (MW.files w) (MW.output_text e) true
            (map CP.started
               (firstn (Nat.min (Z.to_nat (MW.max_concurrent_processes w))
                          (List.length js)) js))
            (skipn (Nat.min (Z.to_nat (MW.max_concurrent_processes w))
                      (List.length js)) js)
            (MW.max_concurrent_processes w)
            (Z.of_nat (List.length (MW.files w))) 0 []
            (MW.ui w ++ calls))
    /\ map key js = kept_rows e (MW.output_text e) 0 (MW.files w)
    /\ Forall (fun p => job_of e (MW.output_text e) p
                        /\ CP.running p = false) js.
Proof.
  intros Hconv Hfiles Htext Hpath Hffmpeg.
  unfold MW.start_conversion. rewrite Hconv.
  unfold MW.validate_inputs.
  destruct (MW.files w) as [|file files] eqn:Hf; [contradiction|].
  assert (Ht : String.eqb (MW.output_text e) "" = false)
    by (apply String.eqb_neq; exact Htext).
  rewrite Ht, Hpath, Hffmpeg. cbn [negb].
  match goal with
  | |- context [MW.enqueue_files e 0 ?fs ?w0] =>
      destruct (enqueue_files_jobs e fs 0 w0)
        as (js & calls & Heq & Hkeys & Hjobs);
      [cbn [MW.files MW.call MW.set_is_converting MW.set_failed_files
            MW.set_completed_files MW.set_total_files
            MW.set_active_processes MW.set_conversion_queue
            MW.set_output_folder]; rewrite Hf; apply Nat.le_refl|]
  end.
  cbn [MW.files MW.output_folder MW.is_converting MW.active_processes
       MW.conversion_queue MW.max_concurrent_processes MW.total_files
       MW.completed_files MW.failed_files MW.ui MW.call
       MW.set_is_converting MW.set_failed_files MW.set_completed_files
       MW.set_total_files MW.set_active_processes MW.set_conversion_queue
       MW.set_output_folder app] in Heq, Hkeys, Hjobs |- *.
  rewrite Hf in Heq, Hkeys |- *. rewrite Heq. cbn [bind].
  unfold MW.start_next_processes.
  match goal with
  | |- context [MW.start_next_loop ?q ?w0] =>
      rewrite (start_next_loop_spec q w0 eq_refl)
  end.
  unfold admitted.
  cbn [MW.files MW.output_folder MW.is_converting MW.active_processes
       MW.conversion_queue MW.max_concurrent_processes MW.total_files
       MW.completed_files MW.failed_files MW.ui app List.length].
  replace (MW.max_concurrent_processes w - Z.of_nat 0)%Z
    with (MW.max_concurrent_processes w) by lia.
  exists js. eexists. split; [|split; [exact Hkeys|exact Hjobs]].
  rewrite <- !app_assoc. reflexivity.
Qed.

(** An accepted start returns and submits every row that is not skipped. *)
Lemma start_conversion_submits (e : MW.env) (w : MW.t) :
  MW.is_converting w = false ->
  MW.files w <> [] ->
  MW.output_text e <> "" ->
  MW.path_exists e (MW.output_text e) = true ->
  MW.ffmpeg_found e = true ->
  exists w' : MW.t,
    MW.start_conversion e w = Ok w'
    /\ map key (submitted w')
       = kept_rows e (MW.output_text e) 0 (MW.files w).
Proof.
  intros Hconv Hfiles Htext Hpath Hffmpeg.
  destruct (start_conversion_accepted e w Hconv Hfiles Htext Hpath Hffmpeg)
    as (js & calls & Heq & Hkeys & _).
  rewrite Heq. eexists. split; [reflexivity|].
  unfold submitted. cbn [MW.active_processes MW.conversion_queue].
  rewrite map_app, map_key_started, <- map_app, firstn_skipn.
  exact Hkeys.
Qed.

(** *** The probe in a start *)

(** C9, as the code has it.  The probe never raises.  It returns 0 when
    [ffprobe] could not be run, when it printed nothing, when [float]
    refuses what it printed (in particular when that does not begin like a
    number); it returns what [float] reads otherwise: for seconds printed
    with digits the nearest double, and for the words that [float] accepts
    the float they name, which is no duration.  Making the process object
    never fails, whatever the probe does; and a start that passes the
    checks on its inputs returns normally and submits a job for every row
    that is not skipped, whatever the probe does on each of them. *)
Theorem C9_probe_never_fatal :
  forall (ffprobe : string -> res string) (input_file : string),
    (exists duration : pynum,
        CP.get_duration ffprobe input_file = Ok duration)
    /\ (forall x : exn,
           ffprobe input_file = Raise x ->
           CP.get_duration ffprobe input_file = Ok (PInt 0))
    /\ (forall stdout : string,
           ffprobe input_file = Ok stdout -> strip stdout = "" ->
           CP.get_duration ffprobe input_file = Ok (PInt 0))
    /\ (forall (stdout : string) (x : exn),
           ffprobe input_file = Ok stdout ->
           float_of_str (strip stdout) = Raise x ->
           CP.get_duration ffprobe input_file = Ok (PInt 0))
    /\ (forall (stdout : string) (c : ascii) (rest : string),
           ffprobe input_file = Ok stdout ->
           strip stdout = String c rest -> numeric_start c = false ->
           CP.get_duration ffprobe input_file = Ok (PInt 0))
    /\ (forall (stdout : string) (duration : pyfloat),
           ffprobe input_file = Ok stdout ->
           float_of_str (strip stdout) = Ok duration ->
           CP.get_duration ffprobe input_file = Ok (PFloat duration))
    /\ (forall (i f : string),
           ffprobe input_file = Ok (i ++ "." ++ f ++ String "010" "")%string ->
           digits i -> digits f ->
           (decimal i + 1 <= DBL_OVER)%Z ->
           exists q : Q,
             CP.get_duration ffprobe input_file = Ok (PFloat (Fin q))
             /\ q == nearest_double (inject_Z (decimal i) + fraction f))
    /\ (forall (index : nat) (output_file bitrate format : string),
           exists duration : pynum,
             CP.get_duration ffprobe input_file = Ok duration
             /\ CP.__init__ ffprobe index input_file output_file bitrate
                  format
                = Ok (CP.mk index input_file output_file bitrate format
                        CP.MergedChannels false duration))
    /\ (forall (e : MW.env) (w : MW.t),
           MW.ffprobe e = ffprobe ->
           MW.is_converting w = false ->
           MW.files w <> [] ->
           MW.output_text e <> "" ->
           MW.path_exists e (MW.output_text e) = true ->
           MW.ffmpeg_found e = true ->
           exists w' : MW.t,
             MW.start_conversion e w = Ok w'
             /\ map key (submitted w')
                = kept_rows e (MW.output_text e) 0 (MW.files w)).
Proof.
  intros ffprobe input_file.
  assert (Htotal : exists duration : pynum,
             CP.get_duration ffprobe input_file = Ok duration).
  { unfold CP.get_duration.
    destruct (ffprobe input_file) as [stdout|x];
      cbn [bind except_Exception]; [|eexists; reflexivity].
    destruct (float_of_str (strip stdout)); cbn [bind except_Exception];
      eexists; reflexivity. }
  split; [exact Htotal|].
  split.
  { intros x Hx. unfold CP.get_duration. rewrite Hx. reflexivity. }
  split.
  { intros stdout Hout Hempty. unfold CP.get_duration.
    rewrite Hout. cbn [bind].
    unfold float_of_str. rewrite Hempty. reflexivity. }
  split.
  { intros stdout x Hout Hx. unfold CP.get_duration.
    rewrite Hout. cbn [bind]. rewrite Hx. reflexivity. }
  split.
  { intros stdout c rest Hout Hs Hc. unfold CP.get_duration.
    rewrite Hout. cbn [bind].
    rewrite (float_of_str_bad_start (strip stdout) c rest);
      [reflexivity| |exact Hc].
    rewrite strip_num_strip. exact Hs. }
  split.
  { intros stdout duration Hout Hd. unfold CP.get_duration.
    rewrite Hout. cbn [bind]. rewrite Hd. reflexivity. }
  split.
  { intros i f Hout Hi Hf Hrange. unfold CP.get_duration.
    rewrite Hout. cbn [bind].
    assert (Hplain : every (fun a => negb (is_space a))
                       (i ++ String "." f)%string = true).
    { rewrite every_append. cbn [every].
      rewrite (field_no_space _ (digits_field _ (proj1 Hi))),
              (field_no_space _ (digits_field _ (proj1 Hf))). reflexivity. }
    assert (Hs : strip (i ++ "." ++ f ++ String "010" "")%string
                 = (i ++ String "." f)%string).
    { replace (i ++ "." ++ f ++ String "010" "")%string
        with ((i ++ String "." f) ++ String "010" "")%string.
      - apply strip_trailing_space; [exact Hplain| |reflexivity].
        destruct i; [destruct Hi; congruence|discriminate].
      - cbn [append]. rewrite string_append_assoc. reflexivity. }
    rewrite Hs.
    destruct (decimal_bounds i (proj1 Hi)) as [B0 _].
    destruct (float_of_str_decimal i f Hi (proj1 Hf)) as (q & Hq & Hv);
      [lia|].
    rewrite Hq. cbn [bind except_Exception].
    exists q. split; [reflexivity|exact Hv]. }
  split.
  { intros index output_file bitrate format.
    destruct Htotal as [duration Hd]. exists duration.
    split; [exact Hd|]. unfold CP.__init__. rewrite Hd. reflexivity. }
  intros e w _ Hconv Hfiles Htext Hpath Hffmpeg.
  destruct (start_conversion_submits e w Hconv Hfiles Htext Hpath Hffmpeg)
    as (w' & Hstart & Hkeys).
  exists w'. split; [exact Hstart|exact Hkeys].
Qed.

(** [ffprobe] missing, [N/A] printed, a number printed; then a start in
    which the probe fails on every file. *)
Lemma C9_probe_never_fatal_witness :
  CP.get_duration (fun _ => Raise OSError) "a.wav" = Ok (PInt 0)
  /\ CP.get_duration (fun _ => Ok "N/A") "a.wav" = Ok (PInt 0)
  /\ (exists q : Q,
         CP.get_duration
           (fun _ => Ok ("180" ++ "." ++ "500000" ++ String "010" "")%string)
           "a.wav" = Ok (PFloat (Fin q))
         /\ q == 180.5)
  /\ exists w' : MW.t,
       MW.start_conversion (Scenario.env_failing_probe [])
         (MW.set_files ["a.wav"; "b.wav"] (MW.__init__ 2)) = Ok w'
       /\ map key (submitted w') = [(0%nat, "a.wav"); (1%nat, "b.wav")].
Proof.
  split.
  - destruct (C9_probe_never_fatal (fun _ => Raise OSError) "a.wav")
      as (_ & H & _).
    exact (H OSError eq_refl).
  - split.
    + destruct (C9_probe_never_fatal (fun _ => Ok "N/A") "a.wav")
        as (_ & _ & _ & H & _).
      exact (H "N/A" ValueError eq_refl ltac:(vm_compute; reflexivity)).
    + split.
      * destruct (C9_probe_never_fatal
                    (fun _ => Ok ("180" ++ "." ++ "500000"
                                  ++ String "010" "")%string) "a.wav")
          as (_ & _ & _ & _ & _ & _ & H & _).
        destruct (H "180" "500000" eq_refl
                    ltac:(split; [reflexivity|discriminate])
                    ltac:(split; [reflexivity|discriminate])
                    ltac:(vm_compute; discriminate)) as (q & Hq & Hv).
        exists q. split; [exact Hq|]. rewrite Hv. vm_compute. reflexivity.
      * destruct (C9_probe_never_fatal (fun _ => Raise OSError) "a.wav")
          as (_ & _ & _ & _ & _ & _ & _ & _ & H).
        exact (H (Scenario.env_failing_probe [])
                 (MW.set_files ["a.wav"; "b.wav"] (MW.__init__ 2))
                 eq_refl eq_refl ltac:(discriminate) ltac:(discriminate)
                 eq_refl eq_refl).
Defined.

(** C9 as stated fails: a result that is no number does not always give 0.
    [float] accepts the words [nan], [inf] and [infinity], so a probe that
    prints one of them makes [get_duration] return that float: not 0, and
    no duration in seconds. *)
Lemma C9_not_a_number_returned :
  CP.get_duration (fun _ => Ok "nan") "a.wav" = Ok (PFloat NaN)
  /\ CP.get_duration (fun _ => Ok ("inf" ++ String "010" "")%string) "a.wav"
     = Ok (PFloat (Inf false))
  /\ CP.get_duration (fun _ => Ok "-Infinity") "a.wav"
     = Ok (PFloat (Inf true)).
Proof. repeat split; vm_compute; reflexivity. Qed.

(** X6: A start that is accepted turns the rows that are not skipped into the
    jobs of the run, in the order of the list and each under the number of
    its row: the first ones, as many as the limit allows, are started and
    the others wait; the counters start at zero and the total is the
    length of the list. *)
Theorem start_conversion_submits_kept_rows :
  forall (e : MW.env) (w : MW.t),
    MW.is_converting w = false ->
    MW.files w <> [] ->
    MW.output_text e <> "" ->
    MW.path_exists e (MW.output_text e) = true ->
    MW.ffmpeg_found e = true ->
    exists w1 : MW.t,
      MW.start_conversion e w = Ok w1
      /\ MW.is_converting w1 = true
      /\ MW.files w1 = MW.files w
      /\ MW.output_folder w1 = MW.output_text e
      /\ MW.total_files w1 = Z.of_nat (List.length (MW.files w))
      /\ MW.completed_files w1 = 0%Z
      /\ MW.failed_files w1 = []
      /\ map key (submitted w1)
         = kept_rows e (MW.output_text e) 0 (MW.files w)
      /\ (forall p : CP.t,
             In p (submitted w1) -> job_of e (MW.output_text e) p)
      /\ List.length (MW.active_processes w1)
         = Nat.min (Z.to_nat (MW.max_concurrent_processes w))
             (List.length (kept_rows e (MW.output_text e) 0 (MW.files w)))
      /\ (forall p : CP.t,
             In p (MW.active_processes w1) -> CP.running p = true)
      /\ (forall p : CP.t,
             In p (MW.conversion_queue w1) -> CP.running p = false).
Proof.
  intros e w Hconv Hfiles Htext Hpath Hffmpeg.
  destruct (start_conversion_accepted e w Hconv Hfiles Htext Hpath Hffmpeg)
    as (js & calls & Heq & Hkeys & Hjobs).
  rewrite Heq. eexists. split; [reflexivity|].
  cbn [MW.files MW.output_folder MW.is_converting MW.active_processes
       MW.conversion_queue MW.max_concurrent_processes MW.total_files
       MW.completed_files MW.failed_files MW.ui].
  repeat (split; [reflexivity|]).
  rewrite Forall_forall in Hjobs.
  split; [|split; [|split; [|split]]].
  - unfold submitted.
    cbn [MW.active_processes MW.conversion_queue].
    rewrite map_app, map_key_started, <- map_app, firstn_skipn.
    exact Hkeys.
  - intros p Hp. unfold submitted in Hp.
    cbn [MW.active_processes MW.conversion_queue] in Hp.
    apply in_app_or in Hp. destruct Hp as [Hp|Hp].
    + apply in_map_iff in Hp. destruct Hp as (q & <- & Hq').
      apply In_taken in Hq'. destruct (Hjobs q Hq') as [Hj _].
      exact Hj.
    + apply In_left in Hp. destruct (Hjobs p Hp) as [Hj _]. exact Hj.
  - rewrite length_map, length_firstn, <- Hkeys, length_map.
    apply Nat.min_l, Nat.le_min_r.
  - intros p Hp. apply in_map_iff in Hp. destruct Hp as (q & <- & _).
    reflexivity.
  - intros p Hp. apply In_left in Hp.
    destruct (Hjobs p Hp) as [_ Hr]. exact Hr.
Qed.

(** Five files on a machine that runs two jobs at a time, the output of
    the second one being there already. *)
Lemma start_conversion_submits_kept_rows_witness :
  exists w1 : MW.t,
    MW.start_conversion (Scenario.env_with ["out/b.mp3"])
      (MW.set_files Scenario.five (MW.__init__ 3)) = Ok w1
    /\ map key (submitted w1)
       = [(0, "a.wav"); (2, "c.wav"); (3, "d.wav"); (4, "e.wav")]%nat
    /\ List.length (MW.active_processes w1) = 2%nat.
Proof.
  destruct (start_conversion_submits_kept_rows
              (Scenario.env_with ["out/b.mp3"])
              (MW.set_files Scenario.five (MW.__init__ 3)))
    as (w1 & Hstart & _ & _ & _ & _ & _ & _ & Hkeys & _ & Hlen & _).
  - reflexivity.
  - discriminate.
  - discriminate.
  - reflexivity.
  - reflexivity.
  - exists w1. split; [exact Hstart|]. split; [exact Hkeys|exact Hlen].
Defined.

(** ** What holds in every state the window reaches *)

Lemma remove_index_split (index : nat) (l : list CP.t) :
  (MW.remove_index index l = l /\ ~ In index (map CP.index l))
  \/ exists (l1 : list CP.t) (p : CP.t) (l2 : list CP.t),
       l = l1 ++ p :: l2 /\ CP.index p = index
       /\ MW.remove_index index l = l1 ++ l2
       /\ ~ In index (map CP.index l1).
Proof.
  induction l as [|q l IH]; cbn [MW.remove_index].
  - left. split; [reflexivity|intros []].
  - destruct (Nat.eqb_spec (CP.index q) index) as [He|Hne].
    + right. exists [], q, l. cbn. repeat split; auto.
    + destruct IH as [[Heq Hni]|(l1 & p & l2 & Hl & Hp & Heq & Hni)].
      * left. split; [rewrite Heq; reflexivity|].
        cbn. intros [H|H]; contradiction.
      * right. exists (q :: l1), p, l2. subst l. cbn. rewrite Heq.
        repeat split; auto. intros [H|H]; contradiction.
Qed.

Lemma In_remove_index (index : nat) (p : CP.t) (l : list CP.t) :
  In p (MW.remove_index index l) -> In p l.
Proof.
  destruct (remove_index_split index l)
    as [[Heq _]|(l1 & q & l2 & Hl & _ & Heq & _)]; rewrite Heq.
  - auto.
  - subst l. rewrite !in_app_iff. cbn. tauto.
Qed.

(** The job-finished slot in closed form, as far as the jobs go. *)
Lemma process_finished_jobs (index : nat) (return_code : Z) (w w' : MW.t) :
  MW.process_finished index return_code w = Ok w' ->
  MW.files w' = MW.files w
  /\ MW.max_concurrent_processes w' = MW.max_concurrent_processes w
  /\ MW.total_files w' = MW.total_files w
  /\ MW.completed_files w' = (MW.completed_files w + 1)%Z
  /\ MW.failed_files w' = MW.failed_files w
  /\ MW.output_folder w' = MW.output_folder w
  /\ busy w'
  /\ exists k : nat,
       MW.active_processes w'
       = MW.remove_index index (MW.active_processes w)
         ++ map CP.started (firstn k (MW.conversion_queue w))
       /\ MW.conversion_queue w' = skipn k (MW.conversion_queue w).
Proof.
  unfold MW.process_finished.
  cbn [MW.total_files MW.set_completed_files].
  destruct (MW.total_files w =? 0)%Z; [discriminate|].
  unfold MW.start_next_processes.
  match goal with
  | |- context [MW.start_next_loop ?q ?w0] =>
      rewrite (start_next_loop_spec q w0 eq_refl); set (w1 := w0)
  end.
  cbn [bind].
  assert (Hbusy :
            skipn (admitted w1) (MW.conversion_queue w1) = []
            \/ (MW.max_concurrent_processes w1
                <= Z.of_nat
                     (List.length
                        (MW.active_processes w1
                         ++ map CP.started
                              (firstn (admitted w1)
                                 (MW.conversion_queue w1)))))%Z)
    by (apply (admitted_busy w1); reflexivity).
  remember (admitted w1) as k eqn:Hk. clear Hk.
  cbn [MW.files MW.output_folder MW.is_converting MW.active_processes
       MW.conversion_queue MW.max_concurrent_processes MW.total_files
       MW.completed_files MW.failed_files MW.ui w1 MW.call
       MW.set_active_processes MW.set_is_converting
       MW.set_completed_files] in Hbusy |- *.
  subst w1.
  cbn [MW.files MW.output_folder MW.is_converting MW.active_processes
       MW.conversion_queue MW.max_concurrent_processes MW.total_files
       MW.completed_files MW.failed_files MW.ui MW.call
       MW.set_active_processes MW.set_is_converting
       MW.set_completed_files] in Hbusy |- *.
  destruct (_ =? _)%Z; [destruct (MW.failed_files w)|];
    intros H; inversion H; subst; clear H;
    cbn [MW.files MW.output_folder MW.is_converting MW.active_processes
         MW.conversion_queue MW.max_concurrent_processes MW.total_files
         MW.completed_files MW.failed_files MW.ui MW.call
         MW.set_active_processes MW.set_is_converting
       MW.set_completed_files];
    (repeat (split; [reflexivity|])); (split; [exact Hbusy|]);
    exists k; split; reflexivity.
Qed.

Lemma process_finished_total (index : nat) (return_code : Z) (w : MW.t) :
  MW.total_files w <> 0%Z ->
  exists w' : MW.t, MW.process_finished index return_code w = Ok w'.
Proof.
  intros Htotal. unfold MW.process_finished.
  cbn [MW.total_files MW.set_completed_files].
  apply Z.eqb_neq in Htotal. rewrite Htotal.
  unfold MW.start_next_processes.
  match goal with
  | |- context [MW.start_next_loop ?q ?w0] =>
      rewrite (start_next_loop_spec q w0 eq_refl)
  end.
  cbn [bind MW.files MW.output_folder MW.is_converting MW.active_processes
       MW.conversion_queue MW.max_concurrent_processes MW.total_files
       MW.completed_files MW.failed_files MW.ui MW.call
       MW.set_active_processes MW.set_is_converting
       MW.set_completed_files].
  destruct (MW.completed_files w + 1 =? MW.total_files w)%Z;
    [|eexists; reflexivity].
  destruct (MW.failed_files w); eexists; reflexivity.
Qed.

Lemma job_rows_app (w : MW.t) :
  job_rows w
  = map CP.index (MW.active_processes w)
    ++ map CP.index (MW.conversion_queue w).
Proof. unfold job_rows, submitted. apply map_app. Qed.

(** The rows of the jobs after the job-finished slot: the row that
    finished is taken out, once, if an active job has it. *)
Lemma process_finished_rows (index : nat) (return_code : Z) (w w' : MW.t) :
  MW.process_finished index return_code w = Ok w' ->
  (job_rows w' = job_rows w
   /\ ~ In index (map CP.index (MW.active_processes w)))
  \/ exists l1 l2 : list nat,
       job_rows w = l1 ++ index :: l2 /\ job_rows w' = l1 ++ l2.
Proof.
  intros H. apply process_finished_jobs in H.
  destruct H as (_ & _ & _ & _ & _ & _ & _ & k & Hact & Hq).
  rewrite !job_rows_app, Hact, Hq, map_app, map_index_started.
  rewrite <- app_assoc, <- map_app, firstn_skipn.
  destruct (remove_index_split index (MW.active_processes w))
    as [[Heq Hni]|(l1 & p & l2 & Hl & Hp & Heq & Hni)]; rewrite Heq.
  - left. split; [reflexivity|exact Hni].
  - right. rewrite Hl.
    exists (map CP.index l1),
      (map CP.index l2 ++ map CP.index (MW.conversion_queue w)).
    rewrite !map_app. cbn [map]. rewrite Hp, <- !app_assoc.
    split; reflexivity.
Qed.

Lemma tidy_frame (w w' : MW.t) :
  MW.active_processes w' = MW.active_processes w ->
  MW.conversion_queue w' = MW.conversion_queue w ->
  MW.max_concurrent_processes w' = MW.max_concurrent_processes w ->
  MW.total_files w' = MW.total_files w ->
  tidy w -> tidy w'.
Proof.
  intros Ha Hq Hm Ht. unfold tidy, job_rows, busy, submitted.
  rewrite Ha, Hq, Hm, Ht. auto.
Qed.

Lemma tidy_finished (index : nat) (return_code : Z) (w w' : MW.t) :
  MW.process_finished index return_code w = Ok w' -> tidy w -> tidy w'.
Proof.
  intros H (Hnd & _ & Htotal).
  pose proof (process_finished_rows _ _ _ _ H) as Hrows.
  apply process_finished_jobs in H.
  destruct H as (_ & _ & Ht & _ & _ & _ & Hbusy & k & Hact & Hq).
  split; [|split; [exact Hbusy|]].
  - destruct Hrows as [[Heq _]|(l1 & l2 & Hw & Hw')].
    + rewrite Heq. exact Hnd.
    + rewrite Hw'. rewrite Hw in Hnd. exact (NoDup_remove_1 _ _ _ Hnd).
  - intros Hsub. rewrite Ht. apply Htotal. intros Hnone. apply Hsub.
    unfold submitted in *. apply app_eq_nil in Hnone.
    destruct Hnone as [Ha0 Hq0]. rewrite Hact, Hq, Ha0, Hq0.
    cbn [MW.remove_index]. rewrite firstn_nil, skipn_nil. reflexivity.
Qed.

Lemma rows_valid_frame (w w' : MW.t) (more : list string) :
  MW.files w' = MW.files w ++ more ->
  MW.active_processes w' = MW.active_processes w ->
  MW.conversion_queue w' = MW.conversion_queue w ->
  rows_valid w -> rows_valid w'.
Proof.
  intros Hf Ha Hq Hv p Hp. unfold submitted in Hp. rewrite Ha, Hq in Hp.
  specialize (Hv p Hp). rewrite Hf.
  rewrite nth_error_app1; [exact Hv|].
  apply nth_error_Some. rewrite Hv. discriminate.
Qed.

Lemma rows_valid_finished (index : nat) (return_code : Z) (w w' : MW.t) :
  MW.process_finished index return_code w = Ok w' ->
  rows_valid w -> rows_valid w'.
Proof.
  intros H Hv. apply process_finished_jobs in H.
  destruct H as (Hf & _ & _ & _ & _ & _ & _ & k & Hact & Hq).
  intros p Hp. unfold submitted in Hp. rewrite Hf.
  rewrite Hact, Hq, !in_app_iff in Hp.
  destruct Hp as [[Hp|Hp]|Hp].
  - apply Hv. apply in_or_app. left.
    exact (In_remove_index _ _ _ Hp).
  - apply in_map_iff in Hp. destruct Hp as (q & <- & Hq').
    apply (Hv q). apply in_or_app. right. exact (In_taken _ _ _ _ Hq').
  - apply Hv. apply in_or_app. right. exact (In_left _ _ _ _ Hp).
Qed.

(** The slots of the signals other than [finished], and the launch,
    leave the files and the jobs alone. *)
Lemma slot_same_jobs (f : nat -> Z -> MW.t -> res MW.t) (a : CP.action)
  (w w' : MW.t) :
  finishes [a] = 0%nat ->
  MW.slot f a w = Ok w' ->
  same_jobs w w'
  /\ MW.completed_files w' = MW.completed_files w
  /\ MW.is_converting w' = MW.is_converting w
  /\ MW.output_folder w' = MW.output_folder w.
Proof.
  destruct a as [[i p|i s|i m|i x|i c]|i prog cmd]; cbn [MW.slot finishes];
    intros Hfin; try discriminate.
  - intros H. apply update_progress_ok in H. destruct H as [-> _].
    repeat split.
  - intros H; inversion H; subst. repeat split.
  - unfold MW.handle_error. cbn [MW.files MW.call].
    destruct (nth_error (MW.files w) i); [|discriminate].
    intros H; inversion H; subst. repeat split.
  - intros H. apply update_info_ok in H. destruct H as [-> _].
    repeat split.
  - intros H; inversion H; subst. repeat split.
Qed.

Section Preserved.

Variable P : MW.t -> Prop.
Hypothesis P_same_jobs : forall w w' : MW.t, same_jobs w w' -> P w -> P w'.
Hypothesis P_finished :
  forall (index : nat) (return_code : Z) (w w' : MW.t),
    MW.process_finished index return_code w = Ok w' -> P w -> P w'.

Lemma slot_preserves (a : CP.action) (w w' : MW.t) :
  MW.slot MW.process_finished a w = Ok w' -> P w -> P w'.
Proof.
  destruct (finishes [a]) eqn:Hfin.
  - intros H. apply (P_same_jobs w w').
    exact (proj1 (slot_same_jobs _ _ _ _ Hfin H)).
  - destruct a as [[i p|i s|i m|i x|i c]|i prog cmd]; try discriminate.
    cbn [MW.slot]. apply P_finished.
Qed.

Lemma perform_preserves (actions : list CP.action) :
  forall w w' : MW.t,
    MW.perform MW.process_finished actions w = Ok w' -> P w -> P w'.
Proof.
  induction actions as [|a rest IH]; intros w w'; cbn [MW.perform].
  - intros H; inversion H; subst. auto.
  - destruct (MW.slot MW.process_finished a w) as [w1|] eqn:Hs;
      [|discriminate].
    cbn [bind]. intros H Hw. apply (IH w1 w' H).
    exact (slot_preserves a w w1 Hs Hw).
Qed.

Lemma invoke_preserves (A : Type) (method : CP.M A) (w : MW.t)
  (r : A * MW.t) :
  MW.invoke MW.process_finished method w = Ok r -> P w -> P (snd r).
Proof.
  destruct method as [actions outcome]. unfold MW.invoke.
  destruct (MW.perform MW.process_finished actions w) as [w1|] eqn:Hp;
    [|discriminate].
  cbn [bind]. destruct outcome as [a|]; [|discriminate].
  cbn [bind]. intros H; inversion H; subst. cbn [snd].
  exact (perform_preserves actions w w1 Hp).
Qed.

Lemma process_event_preserves (ev : MW.event) (w w' : MW.t) :
  process_event ev = true -> MW.step ev w = Ok w' -> P w -> P w'.
Proof.
  destruct ev as [v chosen| |e| |p lines|p code err|v join walk folder|rows];
    cbn [process_event];
    try discriminate; intros _; cbn [MW.step].
  - destruct (MW.invoke _ _ w) as [r|] eqn:Hi; [|discriminate].
    cbn [bind]. intros H; inversion H; subst.
    exact (invoke_preserves _ _ _ _ Hi).
  - destruct (MW.invoke _ _ w) as [r|] eqn:Hi; [|discriminate].
    cbn [bind]. intros H; inversion H; subst.
    exact (invoke_preserves _ _ _ _ Hi).
Qed.

End Preserved.

Lemma add_files_frame (valid : string -> bool) (chosen : list string) :
  forall w : MW.t,
    (exists added : list string,
        MW.files (MW.add_files valid chosen w) = MW.files w ++ added)
    /\ MW.active_processes (MW.add_files valid chosen w)
       = MW.active_processes w
    /\ MW.conversion_queue (MW.add_files valid chosen w)
       = MW.conversion_queue w
    /\ MW.max_concurrent_processes (MW.add_files valid chosen w)
       = MW.max_concurrent_processes w
    /\ MW.total_files (MW.add_files valid chosen w) = MW.total_files w.
Proof.
  induction chosen as [|file rest IH]; intros w; cbn [MW.add_files].
  - split; [exists []; rewrite app_nil_r; reflexivity|]. repeat split.
  - destruct (negb (MW.mem file (MW.files w)) && valid file);
      [|apply IH].
    destruct (IH (MW.call (MW.table_row file)
                    (MW.set_files (MW.files w ++ [file]) w)))
      as ((added & Hf) & Ha & Hq & Hm & Ht).
    rewrite Ha, Hq, Hm, Ht, Hf.
    split; [|repeat split].
    exists (file :: added). cbn [MW.files MW.call MW.set_files].
    rewrite <- app_assoc. reflexivity.
Qed.

(** Whether a start is refused. *)
Lemma start_conversion_cases (e : MW.env) (w : MW.t) :
  (MW.is_converting w = true \/ MW.files w = []
   \/ MW.output_text e = "" \/ MW.path_exists e (MW.output_text e) = false
   \/ MW.ffmpeg_found e = false)
  \/ (MW.is_converting w = false /\ MW.files w <> []
      /\ MW.output_text e <> "" /\ MW.path_exists e (MW.output_text e) = true
      /\ MW.ffmpeg_found e = true).
Proof.
  destruct (MW.is_converting w); [auto|].
  destruct (MW.files w); [auto|].
  destruct (String.eqb_spec (MW.output_text e) ""); [auto|].
  destruct (MW.path_exists e (MW.output_text e)); [|auto 6].
  destruct (MW.ffmpeg_found e); [|auto 6].
  right. repeat split; auto. discriminate.
Qed.

Lemma start_conversion_refused (e : MW.env) (w : MW.t) :
  MW.is_converting w = true \/ MW.files w = []
  \/ MW.output_text e = "" \/ MW.path_exists e (MW.output_text e) = false
  \/ MW.ffmpeg_found e = false ->
  exists w' : MW.t,
    MW.start_conversion e w = Ok w' /\ same_jobs w w'
    /\ MW.is_converting w' = MW.is_converting w.
Proof.
  intros H. unfold MW.start_conversion, MW.validate_inputs.
  destruct (MW.is_converting w) eqn:Hconv.
  { eexists. split; [reflexivity|]. repeat split. exact Hconv. }
  destruct H as [H|H]; [discriminate|].
  destruct (MW.files w) as [|file files] eqn:Hf.
  { eexists. split; [reflexivity|]. repeat split; assumption. }
  destruct H as [H|H]; [discriminate|].
  destruct (String.eqb_spec (MW.output_text e) "") as [Ht|Ht].
  { eexists. split; [reflexivity|]. repeat split; assumption. }
  destruct H as [H|H]; [contradiction|].
  destruct (MW.path_exists e (MW.output_text e)).
  2:{ eexists. split; [reflexivity|]. repeat split; assumption. }
  destruct H as [H|H]; [discriminate|]. rewrite H.
  eexists. split; [reflexivity|]. repeat split; assumption.
Qed.

Lemma kept_rows_rows (e : MW.env) (folder : string) (inputs : list string) :
  forall index : nat,
    NoDup (map fst (kept_rows e folder index inputs))
    /\ forall (i : nat) (file : string),
         In (i, file) (kept_rows e folder index inputs) ->
         (index <= i)%nat /\ nth_error inputs (i - index) = Some file.
Proof.
  unfold kept_rows.
  induction inputs as [|x rest IH]; intros index;
    cbn [List.length seq combine filter].
  - split; [constructor|intros i file []].
  - destruct (IH (S index)) as [Hnd Hin].
    assert (Hnew : ~ In index
                     (map fst
                        (filter (fun row => negb (skipped e folder (snd row)))
                           (combine (seq (S index) (List.length rest))
                              rest)))).
    { intros H. apply in_map_iff in H. destruct H as ([i f] & Hi & H).
      cbn [fst] in Hi. subst i. destruct (Hin index f H). lia. }
    assert (Hrest : forall (i : nat) (file : string),
               In (i, file)
                 (filter (fun row => negb (skipped e folder (snd row)))
                    (combine (seq (S index) (List.length rest)) rest)) ->
               (index <= i)%nat
               /\ nth_error (x :: rest) (i - index) = Some file).
    { intros i file H. destruct (Hin i file H) as [Hle Hnth].
      split; [lia|]. replace (i - index)%nat with (S (i - S index)) by lia.
      exact Hnth. }
    cbn [snd]. destruct (negb (skipped e folder x)).
    + split.
      * cbn [map fst]. constructor; assumption.
      * intros i file [H|H]; [|exact (Hrest i file H)].
        inversion H; subst. rewrite Nat.sub_diag. split; [lia|reflexivity].
    + split; assumption.
Qed.

Lemma map_index_key (l : list CP.t) : map CP.index l = map fst (map key l).
Proof. rewrite map_map. reflexivity. Qed.

Lemma busy_start (mx : Z) (js : list CP.t) :
  skipn (Nat.min (Z.to_nat mx) (List.length js)) js = []
  \/ (mx <= Z.of_nat
             (List.length
                (map CP.started
                   (firstn (Nat.min (Z.to_nat mx) (List.length js)) js))))%Z.
Proof.
  destruct (Nat.le_gt_cases (List.length js) (Z.to_nat mx)) as [Hle|Hgt].
  - left. rewrite Nat.min_r by exact Hle. apply skipn_all.
  - right. rewrite Nat.min_l by lia.
    rewrite length_map, firstn_length_le by lia. lia.
Qed.

(** The state an accepted start leaves has the invariants, whatever the
    state it started from. *)
Lemma start_accepted_invariants (e : MW.env) (w w1 : MW.t) :
  MW.is_converting w = false ->
  MW.files w <> [] ->
  MW.output_text e <> "" ->
  MW.path_exists e (MW.output_text e) = true ->
  MW.ffmpeg_found e = true ->
  MW.start_conversion e w = Ok w1 ->
  tidy w1 /\ rows_valid w1.
Proof.
  intros Hconv Hfiles Htext Hpath Hffmpeg.
  destruct (start_conversion_accepted e w Hconv Hfiles Htext Hpath
              Hffmpeg) as (js & calls & Heq & Hkeys & _).
  rewrite Heq. intros H; inversion H; subst; clear H.
  split; [split; [|split]|].
  - rewrite job_rows_app.
    cbn [MW.active_processes MW.conversion_queue].
    rewrite map_index_started, <- map_app, firstn_skipn.
    rewrite map_index_key, Hkeys. apply kept_rows_rows.
  - unfold busy.
    cbn [MW.active_processes MW.conversion_queue
         MW.max_concurrent_processes].
    apply busy_start.
  - intros _. cbn [MW.total_files].
    destruct (MW.files w); [contradiction|]. cbn [List.length]. lia.
  - intros p Hp. unfold submitted in Hp.
    cbn [MW.active_processes MW.conversion_queue MW.files] in Hp |- *.
    assert (Hkey : In (key p) (map key js)).
    { apply in_app_or in Hp. destruct Hp as [Hp|Hp].
      - apply in_map_iff in Hp. destruct Hp as (q & <- & Hq').
        rewrite key_started. apply in_map. exact (In_taken _ _ _ _ Hq').
      - apply in_map. exact (In_left _ _ _ _ Hp). }
    rewrite Hkeys in Hkey.
    destruct (kept_rows_rows e (MW.output_text e) (MW.files w) 0)
      as [_ Hin].
    destruct (Hin (CP.index p) (CP.input_file p) Hkey) as [_ Hnth].
    rewrite Nat.sub_0_r in Hnth. exact Hnth.
Qed.

Lemma step_tidy (ev : MW.event) (w w' : MW.t) :
  MW.step ev w = Ok w' -> tidy w -> tidy w'.
Proof.
  destruct ev as [v chosen| |e| |p lines|p code err|v join walk folder|rows].
  - cbn [MW.step]. intros H; inversion H; subst.
    destruct (add_files_frame v chosen w) as (_ & Ha & Hq & Hm & Ht).
    apply tidy_frame; assumption.
  - cbn [MW.step]. intros H; inversion H; subst.
    apply tidy_frame; reflexivity.
  - cbn [MW.step].
    destruct (start_conversion_cases e w)
      as [Hno|(Hconv & Hfiles & Htext & Hpath & Hffmpeg)].
    + destruct (start_conversion_refused e w Hno)
        as (w1 & Heq & (_ & Ha & Hq & Hm & Ht) & _).
      rewrite Heq. intros H; inversion H; subst.
      apply tidy_frame; assumption.
    + intros H _.
      exact (proj1 (start_accepted_invariants e w w' Hconv Hfiles Htext
                      Hpath Hffmpeg H)).
  - cbn [MW.step]. intros H; inversion H; subst; clear H.
    rewrite stop_conversion_spec. intros (Hnd & _ & Htotal).
    split; [|split].
    + rewrite job_rows_app in *.
      cbn [MW.active_processes MW.conversion_queue map].
      rewrite app_nil_r. exact (NoDup_app_remove_r _ _ Hnd).
    + left. reflexivity.
    + unfold submitted.
      cbn [MW.active_processes MW.conversion_queue MW.total_files].
      rewrite app_nil_r. intros Ha. apply Htotal. unfold submitted.
      intros Hnone. apply app_eq_nil in Hnone. destruct Hnone. auto.
  - apply (process_event_preserves tidy); [|exact tidy_finished|reflexivity].
    intros w0 w1 (_ & Ha & Hq & Hm & Ht). apply tidy_frame; assumption.
  - apply (process_event_preserves tidy); [|exact tidy_finished|reflexivity].
    intros w0 w1 (_ & Ha & Hq & Hm & Ht). apply tidy_frame; assumption.
  - intros H.
    apply (step_edited (MW.folder_chosen v join walk folder) w w' I) in H.
    destruct H as (fs & calls & -> & _). apply tidy_frame; reflexivity.
  - intros H. apply (step_edited (MW.remove_clicked rows) w w' I) in H.
    destruct H as (fs & calls & -> & _). apply tidy_frame; reflexivity.
Qed.

Lemma add_folder_frame (valid : string -> bool)
  (join : string -> string -> string)
  (walk : string -> list (string * list string)) (folder : string)
  (w : MW.t) :
  (exists added : list string,
      MW.files (snd (MW.add_folder valid join walk folder w))
      = MW.files w ++ added)
  /\ MW.active_processes (snd (MW.add_folder valid join walk folder w))
     = MW.active_processes w
  /\ MW.conversion_queue (snd (MW.add_folder valid join walk folder w))
     = MW.conversion_queue w.
Proof.
  unfold MW.add_folder. destruct (String.eqb folder "").
  - cbn [snd]. split; [exists []; rewrite app_nil_r; reflexivity|].
    split; reflexivity.
  - rewrite add_folder_walk_closed. cbv zeta.
    cbn [snd MW.files MW.active_processes MW.conversion_queue].
    split; [eexists; reflexivity|]. split; reflexivity.
Qed.

Lemma tidy_init (cpu_count : Z) : tidy (MW.__init__ cpu_count).
Proof.
  split; [constructor|]. split; [left; reflexivity|].
  intros H. contradiction H. reflexivity.
Qed.

Lemma run_tidy (evs : list MW.event) :
  forall w w' : MW.t, MW.run evs w = Ok w' -> tidy w -> tidy w'.
Proof.
  induction evs as [|ev rest IH]; intros w w'; cbn [MW.run].
  - intros H; inversion H; subst. auto.
  - destruct (MW.step ev w) as [w1|] eqn:Hs; [|discriminate].
    cbn [bind]. intros H Hw. apply (IH w1 w' H).
    exact (step_tidy ev w w1 Hs Hw).
Qed.

Lemma step_rows_valid (ev : MW.event) (w w' : MW.t) :
  removes_rows ev = false ->
  MW.step ev w = Ok w' -> rows_valid w -> rows_valid w'.
Proof.
  destruct ev as [v chosen| |e| |p lines|p code err|v join walk folder|rows];
    intros Hclear; try discriminate.
  - cbn [MW.step]. intros H; inversion H; subst.
    destruct (add_files_frame v chosen w) as ((added & Hf) & Ha & Hq & _).
    apply (rows_valid_frame w _ added); assumption.
  - cbn [MW.step].
    destruct (start_conversion_cases e w)
      as [Hno|(Hconv & Hfiles & Htext & Hpath & Hffmpeg)].
    + destruct (start_conversion_refused e w Hno)
        as (w1 & Heq & (Hf & Ha & Hq & _) & _).
      rewrite Heq. intros H; inversion H; subst.
      apply (rows_valid_frame w w' []); [|assumption|assumption].
      rewrite app_nil_r. exact Hf.
    + intros H _.
      exact (proj2 (start_accepted_invariants e w w' Hconv Hfiles Htext
                      Hpath Hffmpeg H)).
  - cbn [MW.step]. intros H; inversion H; subst; clear H.
    rewrite stop_conversion_spec. intros Hv p Hp. unfold submitted in Hp.
    cbn [MW.active_processes MW.conversion_queue MW.files] in Hp |- *.
    rewrite app_nil_r in Hp. apply Hv. apply in_or_app. left. exact Hp.
  - apply (process_event_preserves rows_valid);
      [|exact rows_valid_finished|reflexivity].
    intros w0 w1 (Hf & Ha & Hq & _).
    apply (rows_valid_frame w0 w1 []); [|assumption|assumption].
    rewrite app_nil_r. exact Hf.
  - apply (process_event_preserves rows_valid);
      [|exact rows_valid_finished|reflexivity].
    intros w0 w1 (Hf & Ha & Hq & _).
    apply (rows_valid_frame w0 w1 []); [|assumption|assumption].
    rewrite app_nil_r. exact Hf.
  - cbn [MW.step]. intros H; inversion H; subst.
    destruct (add_folder_frame v join walk folder w)
      as ((added & Hf) & Ha & Hq).
    apply (rows_valid_frame w _ added); assumption.
Qed.

Lemma run_rows_valid (evs : list MW.event) :
  forall w w' : MW.t,
    forallb (fun ev => negb (removes_rows ev)) evs = true ->
    MW.run evs w = Ok w' -> rows_valid w -> rows_valid w'.
Proof.
  induction evs as [|ev rest IH]; intros w w'; cbn [MW.run forallb].
  - intros _ H; inversion H; subst. auto.
  - intros Hall. apply andb_prop in Hall. destruct Hall as [Hev Hrest].
    apply negb_true_iff in Hev.
    destruct (MW.step ev w) as [w1|] eqn:Hs; [|discriminate].
    cbn [bind]. intros H Hw. apply (IH w1 w' Hrest H).
    exact (step_rows_valid ev w w1 Hev Hs Hw).
Qed.

(** X7: In every state the window can reach, a job waits in the queue only
    while as many jobs are active as the limit allows: the queue is never
    left waiting beside a free slot. *)
Theorem queue_waits_only_when_full :
  forall (cpu_count : Z) (evs : list MW.event) (w : MW.t),
    MW.run evs (MW.__init__ cpu_count) = Ok w ->
    MW.conversion_queue w <> [] ->
    Z.of_nat (List.length (MW.active_processes w))
    = MW.max_concurrent_processes w.
Proof.
  intros c evs w Hrun Hqueue.
  destruct (run_tidy evs _ _ Hrun (tidy_init c)) as (_ & [Hq|Hfull] & _);
    [contradiction|].
  destruct (run_keeps evs _ _ Hrun) as [Hmax Hbound].
  assert (bounded w).
  { apply Hbound. unfold bounded. cbn. lia. }
  unfold bounded in *. lia.
Qed.

(** Five files on a machine that runs two jobs at a time: three wait. *)
Lemma queue_waits_only_when_full_witness :
  List.length
    (MW.active_processes
       (Scenario.after 3
          [Scenario.choose Scenario.five;
           MW.start_clicked (Scenario.env_with [])])) = 2%nat.
Proof.
  apply Nat2Z.inj.
  rewrite (queue_waits_only_when_full 3
             [Scenario.choose Scenario.five;
              MW.start_clicked (Scenario.env_with [])]
             (Scenario.after 3
                [Scenario.choose Scenario.five;
                 MW.start_clicked (Scenario.env_with [])])).
  - vm_compute. reflexivity.
  - vm_compute. reflexivity.
  - vm_compute. discriminate.
Defined.

Lemma NoDup_map_eq (l : list CP.t) :
  NoDup (map CP.index l) ->
  forall p q : CP.t, In p l -> In q l -> CP.index p = CP.index q -> p = q.
Proof.
  induction l as [|x l IH]; cbn [map]; intros Hnd p q Hp Hq He;
    [contradiction|].
  inversion Hnd as [|y ys Hx Hnd']; subst.
  destruct Hp as [->|Hp], Hq as [->|Hq].
  - reflexivity.
  - contradiction Hx. rewrite He. apply in_map. exact Hq.
  - contradiction Hx. rewrite <- He. apply in_map. exact Hp.
  - exact (IH Hnd' p q Hp Hq He).
Qed.

(** X8: In every state the window can reach, no two of the jobs it holds,
    active or queued, have the same row: the row a [finished] signal
    carries names at most one job. *)
Theorem jobs_have_distinct_rows :
  forall (cpu_count : Z) (evs : list MW.event) (w : MW.t),
    MW.run evs (MW.__init__ cpu_count) = Ok w ->
    NoDup (job_rows w)
    /\ forall p q : CP.t,
         In p (submitted w) -> In q (submitted w) ->
         CP.index p = CP.index q -> p = q.
Proof.
  intros c evs w Hrun.
  destruct (run_tidy evs _ _ Hrun (tidy_init c)) as (Hnd & _).
  split; [exact Hnd|]. apply NoDup_map_eq. exact Hnd.
Qed.

Lemma jobs_have_distinct_rows_witness :
  NoDup
    (job_rows
       (Scenario.after 3
          [Scenario.choose Scenario.five;
           MW.start_clicked (Scenario.env_with [])])).
Proof.
  apply (jobs_have_distinct_rows 3
           [Scenario.choose Scenario.five;
            MW.start_clicked (Scenario.env_with [])]).
  vm_compute. reflexivity.
Defined.

(** ** The exit of a job and the output of a running one *)

(** The exit of a process, up to the job-finished slot: the slots before
    it touch the displays and, after a failure, the list of failed files. *)
Lemma exit_reaches_finished (p : CP.t) (exit_code : Z)
  (stderr_written file : string) (w : MW.t) :
  nth_error (MW.files w) (CP.index p) = Some file ->
  MW.total_files w <> 0%Z ->
  exists w2 w' : MW.t,
    MW.step (MW.process_exited p exit_code stderr_written) w = Ok w'
    /\ MW.process_finished (CP.index p) exit_code w2 = Ok w'
    /\ MW.active_processes w2 = MW.active_processes w
    /\ MW.conversion_queue w2 = MW.conversion_queue w
    /\ MW.completed_files w2 = MW.completed_files w
    /\ MW.failed_files w2
       = MW.failed_files w
         ++ (if (exit_code =? 0)%Z then [] else [file])
    /\ MW.files w2 = MW.files w
    /\ MW.total_files w2 = MW.total_files w
    /\ MW.is_converting w2 = MW.is_converting w.
Proof.
  intros Hrow Htotal. cbn [MW.step]. unfold CP.process_finished.
  assert (Hhas : MW.has_row (CP.index p) w = true).
  { apply Nat.ltb_lt, nth_error_Some. rewrite Hrow. discriminate. }
  destruct (exit_code =? 0)%Z;
    cbn [CP.bindM CP.do app MW.invoke MW.perform MW.slot bind].
  - rewrite update_progress_100 by exact Hhas. cbn [bind].
    match goal with
    | |- context [MW.process_finished _ _ ?w0] =>
        destruct (process_finished_total (CP.index p) exit_code w0 Htotal)
          as (w' & Hfin); exists w0, w'
    end.
    split; [rewrite Hfin; reflexivity|].
    split; [exact Hfin|]. cbn. rewrite app_nil_r. repeat split.
  - unfold MW.handle_error. cbn [MW.files MW.call MW.update_status].
    rewrite Hrow.
    cbn [bind].
    match goal with
    | |- context [MW.process_finished _ _ ?w0] =>
        destruct (process_finished_total (CP.index p) exit_code w0 Htotal)
          as (w' & Hfin); exists w0, w'
    end.
    split; [rewrite Hfin; reflexivity|].
    split; [exact Hfin|]. repeat split.
Qed.

Lemma rows_valid_init (cpu_count : Z) : rows_valid (MW.__init__ cpu_count).
Proof. intros p []. Qed.

(** The exit of an active job in a state that has the invariants. *)
Lemma active_exit_step (w : MW.t) (p : CP.t) (exit_code : Z)
  (stderr_written : string) :
  tidy w -> rows_valid w -> In p (MW.active_processes w) ->
  exists w2 w' : MW.t,
    MW.step (MW.process_exited p exit_code stderr_written) w = Ok w'
    /\ MW.process_finished (CP.index p) exit_code w2 = Ok w'
    /\ MW.files w2 = MW.files w
    /\ MW.total_files w2 = MW.total_files w
    /\ MW.is_converting w2 = MW.is_converting w
    /\ MW.completed_files w2 = MW.completed_files w
    /\ MW.failed_files w2
       = MW.failed_files w
         ++ (if (exit_code =? 0)%Z then [] else [CP.input_file p])
    /\ tidy w' /\ rows_valid w'
    /\ ~ In (CP.index p) (job_rows w')
    /\ (forall q : CP.t,
           In q (MW.active_processes w) -> q <> p ->
           In q (MW.active_processes w')).
Proof.
  intros Htidy Hv Hp.
  assert (Hsub : In p (submitted w)) by (apply in_or_app; left; exact Hp).
  assert (Hpos : MW.total_files w <> 0%Z).
  { destruct Htidy as (_ & _ & Htotal).
    assert (1 <= MW.total_files w)%Z; [|lia].
    apply Htotal. intros Hnone. rewrite Hnone in Hsub. contradiction. }
  destruct (exit_reaches_finished p exit_code stderr_written
              (CP.input_file p) w (Hv p Hsub) Hpos)
    as (w2 & w' & Hstep & Hfin & Ha & Hq & Hc & Hf & Hfiles & Ht & Hconv).
  exists w2, w'. split; [exact Hstep|]. split; [exact Hfin|].
  do 5 (split; [assumption|]).
  assert (Htidy2 : tidy w2).
  { apply (tidy_frame w w2 Ha Hq); [|exact Ht|exact Htidy].
    pose proof (step_keeps _ _ _ Hstep) as [Hm _].
    pose proof (process_finished_keeps _ _ _ _ Hfin) as [Hm2 _].
    congruence. }
  assert (Hv2 : rows_valid w2).
  { apply (rows_valid_frame w w2 []); [|exact Ha|exact Hq|exact Hv].
    rewrite app_nil_r. exact Hfiles. }
  split; [exact (tidy_finished _ _ _ _ Hfin Htidy2)|].
  split; [exact (rows_valid_finished _ _ _ _ Hfin Hv2)|].
  destruct Htidy as (Hnd & _).
  pose proof (process_finished_rows _ _ _ _ Hfin) as Hrows.
  apply process_finished_jobs in Hfin.
  destruct Hfin as (_ & _ & _ & _ & _ & _ & _ & k & Hact & _).
  assert (Hsame : job_rows w2 = job_rows w)
    by (rewrite !job_rows_app, Ha, Hq; reflexivity).
  rewrite Hsame, Ha in Hrows. rewrite Ha in Hact.
  split.
  - destruct Hrows as [[_ Hni]|(l1 & l2 & Hw & Hw')].
    + contradiction Hni. apply in_map. exact Hp.
    + rewrite Hw'. rewrite Hw in Hnd. exact (NoDup_remove_2 _ _ _ Hnd).
  - intros q Hq' Hne. rewrite Hact. apply in_or_app. left.
    apply remove_index_other; [exact Hq'|].
    intros He. apply Hne.
    rewrite job_rows_app in Hnd. apply NoDup_app_remove_r in Hnd.
    exact (NoDup_map_eq _ Hnd q p Hq' Hp He).
Qed.

(** X9: As long as no row has been taken out of the list of files, neither
    by clearing it nor by removing a selection, the exit of an active job
    never raises, whatever its exit code: the job leaves the jobs of the
    window, the other active jobs stay, the completed counter grows by one,
    and after a failure it is the input file of this very job that joins
    the failed files. *)
Theorem exit_of_an_active_job :
  forall (cpu_count : Z) (evs : list MW.event) (w : MW.t) (p : CP.t)
         (exit_code : Z) (stderr_written : string),
    forallb (fun ev => negb (removes_rows ev)) evs = true ->
    MW.run evs (MW.__init__ cpu_count) = Ok w ->
    In p (MW.active_processes w) ->
    exists w' : MW.t,
      MW.step (MW.process_exited p exit_code stderr_written) w = Ok w'
      /\ ~ In (CP.index p) (job_rows w')
      /\ (forall q : CP.t,
             In q (MW.active_processes w) -> q <> p ->
             In q (MW.active_processes w'))
      /\ MW.completed_files w' = (MW.completed_files w + 1)%Z
      /\ MW.failed_files w'
         = MW.failed_files w
           ++ (if (exit_code =? 0)%Z then [] else [CP.input_file p]).
Proof.
  intros c evs w p code err Hclear Hrun Hp.
  destruct (active_exit_step w p code err
              (run_tidy evs _ _ Hrun (tidy_init c))
              (run_rows_valid evs _ _ Hclear Hrun (rows_valid_init c)) Hp)
    as (w2 & w' & Hstep & Hfin & _ & _ & _ & Hc & Hf & _ & _ & Hgone
        & Hothers).
  exists w'. split; [exact Hstep|]. split; [exact Hgone|].
  split; [exact Hothers|].
  apply process_finished_jobs in Hfin.
  destruct Hfin as (_ & _ & _ & Hc' & Hf' & _).
  split; [rewrite Hc', Hc; reflexivity|rewrite Hf', Hf; reflexivity].
Qed.

(** The first of five jobs fails. *)
Lemma exit_of_an_active_job_witness :
  exists w' : MW.t,
    MW.step (MW.process_exited (Scenario.job 0 "a.wav" Scenario.ten) 1 "")
      (Scenario.after 3
         [Scenario.choose Scenario.five;
          MW.start_clicked (Scenario.env_with [])]) = Ok w'
    /\ MW.failed_files w' = ["a.wav"].
Proof.
  destruct (exit_of_an_active_job 3
              [Scenario.choose Scenario.five;
               MW.start_clicked (Scenario.env_with [])]
              (Scenario.after 3
                 [Scenario.choose Scenario.five;
                  MW.start_clicked (Scenario.env_with [])])
              (Scenario.job 0 "a.wav" Scenario.ten) 1 "")
    as (w' & Hstep & _ & _ & _ & Hfailed).
  - reflexivity.
  - vm_compute. reflexivity.
  - vm_compute. left. reflexivity.
  - exists w'. split; [exact Hstep|exact Hfailed].
Defined.

Lemma forallb_bindM (A B : Type) (test : CP.action -> bool) (c : CP.M A)
  (k : A -> CP.M B) :
  forallb test (fst c) = true ->
  (forall a, forallb test (fst (k a)) = true) ->
  forallb test (fst (CP.bindM c k)) = true.
Proof.
  intros Hc Hk. rewrite fst_bindM, forallb_app, Hc.
  destruct (snd c); [apply Hk|reflexivity].
Qed.

Ltac row_steps :=
  repeat first
    [ reflexivity
    | progress (cbn [fst CP.do forallb telemetry_of];
                rewrite ?Nat.eqb_refl)
    | apply forallb_bindM; [|intros ?]
    | match goal with
      | |- context [if ?b then _ else _] => destruct b
      end ].

Lemma parse_progress_row (self : CP.t) (elapsed_time : Q) (line : string) :
  forallb (telemetry_of (CP.index self))
    (fst (CP.parse_progress self elapsed_time line)) = true.
Proof.
  unfold CP.parse_progress. row_steps.
Qed.

Lemma read_output_row (self : CP.t) (lines : list (Q * string)) :
  forallb (telemetry_of (CP.index self))
    (fst (CP.read_output self lines)) = true.
Proof.
  induction lines as [|[now line] rest IH]; cbn [CP.read_output].
  - reflexivity.
  - apply forallb_bindM; [apply parse_progress_row|intros _; exact IH].
Qed.

Lemma perform_telemetry (f : nat -> Z -> MW.t -> res MW.t) (index : nat)
  (actions : list CP.action) :
  forall w w' : MW.t,
    forallb (telemetry_of index) actions = true ->
    MW.perform f actions w = Ok w' ->
    exists calls : list MW.ui_call,
      w' = MW.mk (MW.files w) (MW.output_folder w) (MW.is_converting w)
             (MW.active_processes w) (MW.conversion_queue w)
             (MW.max_concurrent_processes w) (MW.total_files w)
             (MW.completed_files w) (MW.failed_files w)
             (MW.ui w ++ calls)
      /\ forallb (display_of index) calls = true
      /\ (calls <> [] -> MW.has_row index w = true).
Proof.
  induction actions as [|a rest IH]; intros w w'; cbn [MW.perform forallb].
  - intros _ H; inversion H; subst. exists []. rewrite app_nil_r.
    split; [apply window_eta|]. split; [reflexivity|congruence].
  - intros Hall. apply andb_prop in Hall. destruct Hall as [Ha Hrest].
    destruct a as [[i p|i s|i m|i x|i c]|i prog cmd];
      cbn [telemetry_of] in Ha; try discriminate; cbn [MW.slot].
    + destruct (MW.update_progress i p w) as [w1|] eqn:H1; [|discriminate].
      apply update_progress_ok in H1. destruct H1 as [-> Hrow].
      cbn [bind]. intros H.
      destruct (IH _ _ Hrest H) as (calls & -> & Hcalls & _).
      exists (MW.bar_value i p :: calls). cbn [MW.files MW.output_folder
        MW.is_converting MW.active_processes MW.conversion_queue
        MW.max_concurrent_processes MW.total_files MW.completed_files
        MW.failed_files MW.ui MW.call forallb display_of].
      rewrite <- app_assoc, Ha, Hcalls.
      apply Nat.eqb_eq in Ha. subst i. repeat split. intros _. exact Hrow.
    + destruct (MW.update_info i x w) as [w1|] eqn:H1; [|discriminate].
      apply update_info_ok in H1. destruct H1 as [-> Hrow].
      cbn [bind]. intros H.
      destruct (IH _ _ Hrest H) as (calls & -> & Hcalls & _).
      exists (MW.table_info i x :: calls). cbn [MW.files MW.output_folder
        MW.is_converting MW.active_processes MW.conversion_queue
        MW.max_concurrent_processes MW.total_files MW.completed_files
        MW.failed_files MW.ui MW.call forallb display_of].
      rewrite <- app_assoc, Ha, Hcalls.
      apply Nat.eqb_eq in Ha. subst i. repeat split. intros _. exact Hrow.
Qed.

(** X10: Whatever a running process writes, reading it, when it returns,
    has changed nothing but the progress bar and the info cell of the row
    of this process, which is then a row of the table: the files, the
    jobs, the counters, the failed files and the converting state are as
    before, and no message box is shown. *)
Theorem output_touches_only_its_row :
  forall (p : CP.t) (lines : list (Q * string)) (w w' : MW.t),
    MW.step (MW.ready_read p lines) w = Ok w' ->
    exists calls : list MW.ui_call,
      w' = MW.mk (MW.files w) (MW.output_folder w) (MW.is_converting w)
             (MW.active_processes w) (MW.conversion_queue w)
             (MW.max_concurrent_processes w) (MW.total_files w)
             (MW.completed_files w) (MW.failed_files w)
             (MW.ui w ++ calls)
      /\ forallb (display_of (CP.index p)) calls = true
      /\ (calls <> [] -> MW.has_row (CP.index p) w = true).
Proof.
  intros p lines w w'. cbn [MW.step]. unfold MW.invoke.
  pose proof (read_output_row p lines) as Hrow.
  destruct (CP.read_output p lines) as [actions outcome].
  cbn [fst] in Hrow.
  destruct (MW.perform MW.process_finished actions w) as [w1|] eqn:Hp;
    [|discriminate].
  cbn [bind]. destruct outcome as [a|]; [|discriminate].
  cbn [bind snd]. intros H; inversion H; subst.
  exact (perform_telemetry _ _ _ _ _ Hrow Hp).
Qed.

(** Two files are converting; half of the first, of ten seconds, is done
    after one second. *)
Lemma output_touches_only_its_row_witness :
  exists calls : list MW.ui_call,
    MW.ui
      (Scenario.value
         (MW.step
            (MW.ready_read (Scenario.job 0 "a.wav" Scenario.ten)
               [(1, "out_time=00:00:05.000000")])
            (Scenario.after 3
               [Scenario.choose ["a.wav"; "b.wav"];
                MW.start_clicked (Scenario.env_with [])])))
    = MW.ui
        (Scenario.after 3
           [Scenario.choose ["a.wav"; "b.wav"];
            MW.start_clicked (Scenario.env_with [])])
      ++ calls
    /\ calls <> []
    /\ forallb (display_of 0) calls = true.
Proof.
  destruct (output_touches_only_its_row
              (Scenario.job 0 "a.wav" Scenario.ten)
              [(1, "out_time=00:00:05.000000")]
              (Scenario.after 3
                 [Scenario.choose ["a.wav"; "b.wav"];
                  MW.start_clicked (Scenario.env_with [])])
              (Scenario.value
                 (MW.step
                    (MW.ready_read (Scenario.job 0 "a.wav" Scenario.ten)
                       [(1, "out_time=00:00:05.000000")])
                    (Scenario.after 3
                       [Scenario.choose ["a.wav"; "b.wav"];
                        MW.start_clicked (Scenario.env_with [])]))))
    as (calls & Heq & Hcalls & _).
  - vm_compute. reflexivity.
  - exists calls. rewrite Heq. cbn [MW.ui].
    split; [reflexivity|]. split; [|exact Hcalls].
    intros Hnone. subst calls. rewrite app_nil_r in Heq.
    vm_compute in Heq. discriminate Heq.
Defined.

(** ** What the telemetry parser can raise *)

Lemma snd_bindM (A B : Type) (c : CP.M A) (k : A -> CP.M B) :
  snd (CP.bindM c k)
  = match snd c with
    | Ok a => snd (k a)
    | Raise e => Raise e
    end.
Proof.
  destruct c as [done [a|e]]; cbn; [|reflexivity].
  destruct (k a); reflexivity.
Qed.

Lemma only_bindM (A B : Type) (c : CP.M A) (k : A -> CP.M B) :
  number_errors_only (snd c) ->
  (forall a : A, snd c = Ok a -> number_errors_only (snd (k a))) ->
  number_errors_only (snd (CP.bindM c k)).
Proof.
  intros Hc Hk. rewrite snd_bindM. destruct (snd c) as [a|e] eqn:Hs.
  - apply Hk. reflexivity.
  - intros x H. inversion H; subst. exact (Hc x eq_refl).
Qed.

Lemma only_bind (A B : Type) (c : res A) (k : A -> res B) :
  number_errors_only c ->
  (forall a : A, c = Ok a -> number_errors_only (k a)) ->
  number_errors_only (bind c k).
Proof.
  intros Hc Hk. destruct c as [a|e]; cbn [bind].
  - apply Hk. reflexivity.
  - intros x H. inversion H; subst. exact (Hc x eq_refl).
Qed.

Lemma only_ok (A : Type) (a : A) : number_errors_only (Ok a).
Proof. intros x H. discriminate. Qed.

Lemma only_overflow (A : Type) :
  number_errors_only (Raise OverflowError : res A).
Proof. intros x H. inversion H. left. reflexivity. Qed.

Lemma to_float_only (x : pynum) : number_errors_only (to_float x).
Proof.
  destruct x as [z|f]; cbn [to_float]; [|apply only_ok].
  unfold float_of_int. destruct (_ <=? _)%Z;
    [apply only_overflow|apply only_ok].
Qed.

Lemma lift2_only (op : pyfloat -> pyfloat -> res pyfloat) (x y : pynum) :
  (forall a b : pyfloat,
      to_float x = Ok a -> to_float y = Ok b ->
      number_errors_only (op a b)) ->
  number_errors_only (lift2 op x y).
Proof.
  intros Hop. unfold lift2.
  apply only_bind; [apply to_float_only|]. intros a Ha.
  apply only_bind; [apply to_float_only|]. intros b Hb.
  apply only_bind; [exact (Hop a b Ha Hb)|]. intros c _. apply only_ok.
Qed.

Lemma mul_only (x y : pynum) : number_errors_only (mul x y).
Proof.
  destruct x, y; cbn [mul]; try apply only_ok;
    apply lift2_only; intros; apply only_ok.
Qed.

Lemma sub_only (x y : pynum) : number_errors_only (sub x y).
Proof.
  destruct x, y; cbn [sub]; try apply only_ok;
    apply lift2_only; intros; apply only_ok.
Qed.

(** A divisor that passed the test [> 0] is no zero. *)
Lemma fdiv_positive (y : pynum) (a b : pyfloat) :
  gt_zero y = true -> to_float y = Ok b ->
  exists c : pyfloat, fdiv a b = Ok c.
Proof.
  intros Hpos Hb.
  assert (Hnz : forall q : Q, b = Fin q -> Qzero q = false).
  { intros q ->. destruct y as [z|[q'| |]]; cbn [to_float gt_zero] in *.
    - unfold float_of_int in Hb. destruct (_ <=? _)%Z; [discriminate|].
      inversion Hb; subst. unfold Qzero.
      destruct (Qeq_bool (nearest (inject_Z z)) 0) eqn:He; [|reflexivity].
      apply Qeq_bool_iff in He. apply Z.ltb_lt in Hpos.
      assert (Hz : 0 < inject_Z z)
        by (change 0 with (inject_Z 0); apply inject_Z_lt; exact Hpos).
      pose proof (nearest_positive (inject_Z z) Hz). lra.
    - inversion Hb; subst. unfold Qzero.
      destruct (Qeq_bool q 0) eqn:He; [|reflexivity].
      apply Qeq_bool_iff in He.
      apply negb_true_iff in Hpos.
      assert (Qle_bool q 0 = true)
        by (apply Qle_bool_iff; rewrite He; apply Qle_refl).
      congruence.
    - discriminate.
    - discriminate. }
  unfold fdiv. destruct b as [q| |].
  - rewrite (Hnz q eq_refl). destruct a; eexists; reflexivity.
  - destruct a; eexists; reflexivity.
  - eexists; reflexivity.
Qed.

Lemma truediv_only (x y : pynum) :
  gt_zero y = true -> number_errors_only (truediv x y).
Proof.
  intros Hpos.
  assert (Hfloat : number_errors_only (lift2 fdiv x y)).
  { apply lift2_only. intros a b _ Hb.
    destruct (fdiv_positive y a b Hpos Hb) as (c & ->). apply only_ok. }
  destruct x as [a|fa], y as [b|fb]; cbn [truediv]; try exact Hfloat.
  cbn [gt_zero] in Hpos. apply Z.ltb_lt in Hpos.
  assert (Hb : (b =? 0)%Z = false) by (apply Z.eqb_neq; lia).
  rewrite Hb. destruct (round_float _);
    [apply only_ok|apply only_overflow|apply only_overflow].
Qed.

Lemma seconds_only (time_str : string) :
  number_errors_only (CP.ffmpeg_time_to_seconds time_str).
Proof.
  intros x H. destruct (seconds_raises time_str x H) as [-> _].
  left. reflexivity.
Qed.

Lemma format_time_only (seconds : pynum) :
  number_errors_only (CP.format_time seconds).
Proof.
  unfold CP.format_time. apply only_bind.
  - destruct seconds as [z|[q|s|]]; cbn [int_of_num];
      [apply only_ok|apply only_ok|apply only_overflow|].
    intros x H. inversion H. right. reflexivity.
  - intros n _. unfold timedelta.
    destruct (_ <=? _)%Z; [apply only_ok|apply only_overflow].
Qed.

Lemma prefix_contains (c : ascii) (p : string) :
  forall line : string,
    String.prefix p line = true -> contains c p = true ->
    contains c line = true.
Proof.
  induction p as [|a p IH]; intros line Hp Hc; [discriminate|].
  destruct line as [|b line]; [discriminate|].
  cbn [String.prefix] in Hp. cbn [contains] in Hc |- *.
  destruct (ascii_dec a b) as [<-|]; [|discriminate].
  destruct (Ascii.eqb a c); [reflexivity|]. exact (IH line Hp Hc).
Qed.

Lemma split_nonempty (sep : ascii) (s : string) :
  exists (hd : string) (tl : list string), split sep s = hd :: tl.
Proof.
  destruct s as [|c s]; cbn [split]; [eexists; eexists; reflexivity|].
  destruct (Ascii.eqb c sep); [eexists; eexists; reflexivity|].
  destruct (split sep s); eexists; eexists; reflexivity.
Qed.

Lemma split_two (sep : ascii) (s : string) :
  contains sep s = true ->
  exists (a b : string) (rest : list string), split sep s = a :: b :: rest.
Proof.
  induction s as [|c s IH]; cbn [contains split]; [discriminate|].
  destruct (Ascii.eqb c sep).
  - intros _. destruct (split_nonempty sep s) as (hd & tl & ->).
    exists "", hd, tl. reflexivity.
  - intros H. destruct (IH H) as (a & b & rest & ->).
    exists (String c a), b, rest. reflexivity.
Qed.

Lemma after_equals_prefix (line p : string) :
  startswith line p = true -> contains "=" p = true ->
  exists s : string, CP.after_equals line = Ok s.
Proof.
  intros Hp Hc. unfold CP.after_equals.
  destruct (split_two "=" line (prefix_contains "=" p line Hp Hc))
    as (a & b & rest & ->).
  exists b. reflexivity.
Qed.

Lemma parse_progress_only (self : CP.t) (elapsed_time : Q)
  (line : string) :
  number_errors_only (snd (CP.parse_progress self elapsed_time line)).
Proof.
  unfold CP.parse_progress.
  destruct (startswith line "out_time=") eqn:Hout.
  - destruct (after_equals_prefix line "out_time=" Hout eq_refl)
      as (s & ->).
    apply only_bindM; [apply only_ok|]. intros out_time_str _.
    apply only_bindM; [apply seconds_only|]. intros out_time _.
    destruct (gt_zero (CP.duration self)) eqn:Hd; [|apply only_ok].
    apply only_bindM; [exact (truediv_only _ _ Hd)|]. intros ratio _.
    apply only_bindM; [apply mul_only|]. intros progress _.
    apply only_bindM; [apply to_float_only|]. intros progress' _.
    apply only_bindM; [apply only_ok|]. intros _ _.
    apply only_bindM.
    { cbn [CP.lift snd].
      destruct (gt_zero (PFloat (Fin elapsed_time))) eqn:He;
        [exact (truediv_only _ _ He)|apply only_ok]. }
    intros speed _. apply only_bindM.
    { cbn [CP.lift snd]. destruct (gt_zero speed) eqn:Hs;
        [|apply only_ok].
      apply only_bind; [apply sub_only|]. intros left _.
      exact (truediv_only _ _ Hs). }
    intros remaining_time _.
    apply only_bindM; [apply format_time_only|]. intros remaining _.
    apply only_ok.
  - destruct (startswith line "progress=") eqn:Hprog; [|apply only_ok].
    destruct (after_equals_prefix line "progress=" Hprog eq_refl)
      as (s & ->).
    apply only_bindM; [apply only_ok|]. intros status _.
    destruct (String.eqb status "end"); [|apply only_ok].
    apply only_bindM; [apply only_ok|]. intros _ _. apply only_ok.
Qed.

Lemma read_output_only (self : CP.t) (lines : list (Q * string)) :
  number_errors_only (snd (CP.read_output self lines)).
Proof.
  induction lines as [|[now line] rest IH]; cbn [CP.read_output].
  - apply only_ok.
  - apply only_bindM; [apply parse_progress_only|]. intros _ _. exact IH.
Qed.

(** The slots of the telemetry: [int(progress)] and [setValue] can raise
    for a number that does not fit, and the look-up of the cell or of the
    bar for a row that is not there. *)
Lemma perform_telemetry_only (f : nat -> Z -> MW.t -> res MW.t)
  (index : nat) (actions : list CP.action) :
  forall (w : MW.t) (x : exn),
    forallb (telemetry_of index) actions = true ->
    MW.perform f actions w = Raise x ->
    overflow_or_value x
    \/ (x = AttributeError /\ MW.has_row index w = false).
Proof.
  induction actions as [|a rest IH]; intros w x; cbn [MW.perform forallb].
  - intros _ H. discriminate.
  - intros Hall. apply andb_prop in Hall. destruct Hall as [Ha Hrest].
    destruct a as [[i p|i s|i m|i y|i c]|i prog cmd];
      cbn [telemetry_of] in Ha; try discriminate; cbn [MW.slot];
      apply Nat.eqb_eq in Ha; subst i.
    + destruct (MW.update_progress index p w) as [w1|e] eqn:H1;
        cbn [bind].
      * apply update_progress_ok in H1. destruct H1 as [-> _].
        intros H. exact (IH _ x Hrest H).
      * intros H. inversion H; subst. revert H1.
        unfold MW.update_progress.
        destruct (MW.has_row index w); [|intros H1; inversion H1; auto].
        destruct p as [q|s|]; cbn [int_of_num bind].
        -- destruct (_ && _); [discriminate|].
           intros H1; inversion H1. left. left. reflexivity.
        -- intros H1; inversion H1. left. left. reflexivity.
        -- intros H1; inversion H1. left. right. reflexivity.
    + destruct (MW.update_info index y w) as [w1|e] eqn:H1; cbn [bind].
      * apply update_info_ok in H1. destruct H1 as [-> _].
        intros H. exact (IH _ x Hrest H).
      * intros H. inversion H; subst. revert H1. unfold MW.update_info.
        destruct (MW.has_row index w); [discriminate|].
        intros H1; inversion H1. auto.
Qed.

(** X11: Parsing a line of the encoder raises nothing but [OverflowError] and
    [ValueError], the exceptions of a number that does not fit: the field
    after [=] is always there, and the three divisions are guarded by the
    tests on the duration, the clock and the speed, so that neither
    [IndexError] nor [ZeroDivisionError] can come out.  The same holds
    for reading all the lines there are.  The window that shows what was
    read raises nothing else either as long as the table has the row of
    the process; without that row, showing a value raises
    [AttributeError]. *)
Theorem parse_progress_raises_number_errors_only :
  forall (self : CP.t) (x : exn),
    (forall (elapsed_time : Q) (line : string),
        snd (CP.parse_progress self elapsed_time line) = Raise x ->
        overflow_or_value x)
    /\ (forall lines : list (Q * string),
           snd (CP.read_output self lines) = Raise x ->
           overflow_or_value x)
    /\ (forall (lines : list (Q * string)) (w : MW.t),
           MW.step (MW.ready_read self lines) w = Raise x ->
           overflow_or_value x
           \/ (x = AttributeError
               /\ MW.has_row (CP.index self) w = false)).
Proof.
  intros self x. split; [|split].
  - intros elapsed_time line. apply parse_progress_only.
  - intros lines. apply read_output_only.
  - intros lines w. cbn [MW.step]. unfold MW.invoke.
    pose proof (read_output_row self lines) as Hrow.
    pose proof (read_output_only self lines) as Hread.
    destruct (CP.read_output self lines) as [actions outcome].
    cbn [fst snd] in Hrow, Hread.
    destruct (MW.perform MW.process_finished actions w) as [w1|e] eqn:Hp;
      cbn [bind].
    + destruct outcome as [a|e]; cbn [bind]; [discriminate|].
      intros H. inversion H; subst. left. exact (Hread x eq_refl).
    + intros H. inversion H; subst.
      exact (perform_telemetry_only _ _ actions w x Hrow Hp).
Qed.

(** A fraction too large for a float: the remaining time is no number. *)
Lemma parse_progress_raises_number_errors_only_witness :
  overflow_or_value ValueError.
Proof.
  apply (proj1 (parse_progress_raises_number_errors_only
                  (Scenario.job 0 "a.wav" Scenario.ten) ValueError)
           1 "out_time=0:0:0.5e400").
  vm_compute. reflexivity.
Defined.

(** ** The text of [format_time] *)

Lemma uint_digits (d : Decimal.uint) :
  every is_digit (DecimalString.NilEmpty.string_of_uint d) = true.
Proof.
  induction d; cbn [DecimalString.NilEmpty.string_of_uint every];
    [reflexivity|..]; rewrite IHd; reflexivity.
Qed.

Lemma str_of_int_field (z : Z) : every field_char (CP.str_of_int z) = true.
Proof.
  unfold CP.str_of_int, DecimalString.NilZero.string_of_int.
  assert (H : forall d : Decimal.uint,
             every field_char (DecimalString.NilZero.string_of_uint d)
             = true).
  { intros d. apply digits_field. unfold all_digits.
    destruct d; try apply uint_digits. reflexivity. }
  destruct (Z.to_int z) as [d|d]; [apply H|].
  cbn [every]. rewrite H. reflexivity.
Qed.

Lemma pad2_field (z : Z) : every field_char (CP.pad2 z) = true.
Proof.
  unfold CP.pad2. destruct (_ <? _)%nat; [|apply str_of_int_field].
  cbn [append every]. rewrite str_of_int_field. reflexivity.
Qed.

Lemma field_no_dot (s : string) :
  every field_char s = true -> contains "." s = false.
Proof. intros H. apply (field_contains s H). Qed.

Lemma field_no_d (s : string) :
  every field_char s = true -> contains "d" s = false.
Proof.
  intros H. apply contains_none. eapply every_impl; [|exact H].
  intros c Hc. unfold field_char in Hc. apply orb_prop in Hc.
  destruct Hc as [Hc|Hc].
  - digit_case c Hc; reflexivity.
  - apply Ascii.eqb_eq in Hc. subst c. reflexivity.
Qed.

(** The numbers below 60, as [%d] and [%02d] print them. *)
Lemma small_str (z : Z) :
  (0 <= z < 60)%Z ->
  digits (CP.str_of_int z) /\ decimal (CP.str_of_int z) = z
  /\ digits (CP.pad2 z) /\ decimal (CP.pad2 z) = z.
Proof.
  intros H.
  assert (Hk : exists k : nat, (k < 60)%nat /\ z = Z.of_nat k)
    by (exists (Z.to_nat z); lia).
  destruct Hk as (k & Hk & ->). clear H.
  do 60 (destruct k as [|k];
         [vm_compute; repeat split; intros Hx; discriminate Hx|]).
  lia.
Qed.

(** X12: The text [format_time] makes reads back, through
    [ffmpeg_time_to_seconds], as the whole seconds it was made from when
    they are less than a day; from one day on, and below zero, the text
    starts with a count of days, its first field is no integer, and it
    reads back as 0. *)
Theorem format_time_text_reads_back :
  forall (seconds : pynum) (s : string),
    CP.format_time_str seconds = Ok s ->
    exists n : Z,
      int_of_num seconds = Ok n
      /\ s = CP.timedelta_str n
      /\ CP.ffmpeg_time_to_seconds s
         = Ok (PInt (if ((0 <=? n) && (n <? 86400))%Z then n else 0)).
Proof.
  intros seconds s. unfold CP.format_time_str, CP.format_time.
  destruct (int_of_num seconds) as [n|]; [|discriminate]. cbn [bind].
  unfold timedelta. destruct (_ <=? 999999999)%Z; [|discriminate].
  cbn [bind]. intros H; inversion H; subst; clear H.
  exists n. split; [reflexivity|]. split; [reflexivity|].
  unfold CP.timedelta_str.
  destruct ((0 <=? n) && (n <? 86400))%Z eqn:Hrange.
  - apply andb_prop in Hrange. destruct Hrange as [H0 H1].
    apply Z.leb_le in H0. apply Z.ltb_lt in H1.
    rewrite (Z.div_small n 86400), (Z.mod_small n 86400) by lia.
    cbn [Z.eqb].
    destruct (small_str (n / 60 / 60)) as (Hh & Hhv & _);
      [Z.div_mod_to_equations; lia|].
    destruct (small_str ((n / 60) mod 60)) as (_ & _ & Hm & Hmv);
      [Z.div_mod_to_equations; lia|].
    destruct (small_str (n mod 60)) as (_ & _ & Hs & Hsv);
      [Z.div_mod_to_equations; lia|].
    pose proof (seconds_of_signed_fields false false false _ _ _ Hh Hm Hs)
      as Hread.
    cbn [signed signed_value] in Hread. rewrite Hread, Hhv, Hmv, Hsv.
    do 2 f_equal. Z.div_mod_to_equations. lia.
  - assert (Hdays : (n / 86400 =? 0)%Z = false).
    { apply Z.eqb_neq. intros Hd.
      assert ((0 <=? n) && (n <? 86400) = true)%Z; [|congruence].
      apply andb_true_intro. split; [apply Z.leb_le|apply Z.ltb_lt];
        Z.div_mod_to_equations; lia. }
    rewrite Hdays.
    match goal with
    | |- CP.ffmpeg_time_to_seconds ?t = _ => set (text := t)
    end.
    assert (Hdot : contains "." text = false).
    { subst text. rewrite !contains_append.
      rewrite !(field_no_dot _ (str_of_int_field _)).
      rewrite !(field_no_dot _ (pad2_field _)).
      destruct (Z.abs (n / 86400) =? 1)%Z; reflexivity. }
    assert (Hd : contains "d" text = true).
    { subst text. rewrite contains_append.
      rewrite (field_no_d _ (str_of_int_field _)). reflexivity. }
    apply (seconds_bad_char text "d"); [|reflexivity|reflexivity].
    unfold before_dot. rewrite (split_none "." text Hdot). exact Hd.
Qed.

(** One hour, one minute and one second. *)
Lemma format_time_text_reads_back_witness :
  CP.ffmpeg_time_to_seconds "1:01:01" = Ok (PInt 3661).
Proof.
  destruct (format_time_text_reads_back (PInt 3661) "1:01:01")
    as (n & Hn & _ & Hread).
  - vm_compute. reflexivity.
  - inversion Hn; subst. exact Hread.
Defined.

(** ** A batch from its start to its report *)

Lemma process_finished_report (index : nat) (return_code : Z)
  (w w' : MW.t) :
  MW.process_finished index return_code w = Ok w' ->
  ((MW.completed_files w + 1)%Z = MW.total_files w ->
   MW.is_converting w' = false
   /\ exists calls : list MW.ui_call,
        MW.ui w'
        = calls ++ [MW.message_box (report_of (MW.failed_files w))])
  /\ ((MW.completed_files w + 1)%Z <> MW.total_files w ->
      MW.is_converting w' = MW.is_converting w).
Proof.
  unfold MW.process_finished.
  cbn [MW.total_files MW.set_completed_files].
  destruct (MW.total_files w =? 0)%Z; [discriminate|].
  unfold MW.start_next_processes.
  match goal with
  | |- context [MW.start_next_loop ?q ?w0] =>
      rewrite (start_next_loop_spec q w0 eq_refl)
  end.
  cbn [bind MW.files MW.output_folder MW.is_converting MW.active_processes
       MW.conversion_queue MW.max_concurrent_processes MW.total_files
       MW.completed_files MW.failed_files MW.ui MW.call
       MW.set_active_processes MW.set_is_converting
       MW.set_completed_files].
  destruct (MW.completed_files w + 1 =? MW.total_files w)%Z eqn:He.
  - apply Z.eqb_eq in He. unfold report_of.
    destruct (MW.failed_files w); intros H; inversion H; subst; clear H;
      (split; [intros _|intros Hne; contradiction]);
      (split; [reflexivity|]); eexists; reflexivity.
  - apply Z.eqb_neq in He. intros H; inversion H; subst; clear H.
    split; [intros Heq; contradiction|intros _; reflexivity].
Qed.

Lemma exit_rows_spec (exs : list (nat * Z * string)) :
  forall (w : MW.t) (r : res MW.t),
    tidy w -> rows_valid w ->
    exit_rows exs w = Some r ->
    exists w2 : MW.t,
      r = Ok w2
      /\ MW.files w2 = MW.files w
      /\ MW.total_files w2 = MW.total_files w
      /\ MW.completed_files w2
         = (MW.completed_files w + Z.of_nat (List.length exs))%Z
      /\ map Some (MW.failed_files w2)
         = map Some (MW.failed_files w)
           ++ map (nth_error (MW.files w)) (failed_rows exs)
      /\ (exs <> [] -> MW.completed_files w2 = MW.total_files w ->
          MW.is_converting w2 = false
          /\ exists calls : list MW.ui_call,
               MW.ui w2
               = calls ++ [MW.message_box (report_of (MW.failed_files w2))])
      /\ ((MW.completed_files w2 < MW.total_files w)%Z ->
          MW.is_converting w2 = MW.is_converting w).
Proof.
  induction exs as [|[[row code] err] rest IH]; intros w r Htidy Hv;
    cbn [exit_rows failed_rows List.length].
  - intros H; inversion H; subst. exists w.
    split; [reflexivity|]. split; [reflexivity|]. split; [reflexivity|].
    split; [lia|]. split; [cbn [map]; rewrite app_nil_r; reflexivity|].
    split; [intros Hne; contradiction|reflexivity].
  - destruct (find _ (MW.active_processes w)) as [p|] eqn:Hfind;
      [|discriminate].
    apply find_some in Hfind. destruct Hfind as [Hp Hrow].
    apply Nat.eqb_eq in Hrow.
    destruct (active_exit_step w p code err Htidy Hv Hp)
      as (w2 & w' & Hstep & Hfin & Hfiles & Ht & Hconv & Hc & Hf & Htidy'
          & Hv' & _).
    rewrite Hstep. intros Hrest.
    destruct (IH w' r Htidy' Hv' Hrest)
      as (w3 & -> & Hfiles3 & Ht3 & Hc3 & Hf3 & Hdone & Hgoing).
    pose proof (process_finished_report _ _ _ _ Hfin) as [Hrep Hnot].
    apply process_finished_jobs in Hfin.
    destruct Hfin as (Hfiles' & _ & Ht' & Hc' & Hf' & _).
    assert (Hfile : nth_error (MW.files w) row = Some (CP.input_file p)).
    { rewrite <- Hrow. apply Hv. apply in_or_app. left. exact Hp. }
    exists w3. split; [reflexivity|].
    split; [congruence|]. split; [congruence|].
    split; [rewrite Hc3, Hc', Hc; lia|].
    split; [|split].
    + rewrite Hf3, Hf', Hf, Hfiles', Hfiles.
      destruct (code =? 0)%Z; cbn [map].
      * rewrite app_nil_r. reflexivity.
      * rewrite map_app, <- app_assoc, Hfile. reflexivity.
    + intros _ Hall. destruct rest as [|ex rest'].
      * cbn [exit_rows] in Hrest. inversion Hrest; subst w3.
        rewrite Hf'. apply Hrep. rewrite <- Hc', Hall. symmetry. exact Ht.
      * apply Hdone; [discriminate|]. rewrite Ht', Ht. exact Hall.
    + intros Hless. rewrite Hgoing by (rewrite Ht', Ht; exact Hless).
      rewrite Hnot; [exact Hconv|].
      rewrite Hc, Ht. lia.
Qed.

(** X13: A batch that runs to its end.  After an accepted start, when the
    active jobs exit one after the other until as many have exited as
    there are files, no exit raises, the failed files are the files of
    the rows that exited with a code other than 0, in the order of their
    exits, and the last exit, not one before, ends the conversion with
    the report on exactly these files. *)
Theorem batch_report_lists_the_failed_files :
  forall (e : MW.env) (w w1 : MW.t) (exs : list (nat * Z * string))
         (r : res MW.t),
    MW.is_converting w = false ->
    MW.start_conversion e w = Ok w1 ->
    MW.is_converting w1 = true ->
    exit_rows exs w1 = Some r ->
    exists w2 : MW.t,
      r = Ok w2
      /\ MW.completed_files w2 = Z.of_nat (List.length exs)
      /\ map Some (MW.failed_files w2)
         = map (nth_error (MW.files w)) (failed_rows exs)
      /\ ((List.length exs < List.length (MW.files w))%nat ->
          MW.is_converting w2 = true)
      /\ (List.length exs = List.length (MW.files w) ->
          MW.is_converting w2 = false
          /\ exists calls : list MW.ui_call,
               MW.ui w2
               = calls ++ [MW.message_box (report_of (MW.failed_files w2))]).
Proof.
  intros e w w1 exs r Hconv Hstart Hconv1 Hexits.
  destruct (start_conversion_cases e w)
    as [Hno|(_ & Hfiles & Htext & Hpath & Hffmpeg)].
  { destruct (start_conversion_refused e w Hno) as (w' & Heq & _ & Hsame).
    rewrite Heq in Hstart. inversion Hstart; subst. congruence. }
  destruct (start_accepted_invariants e w w1 Hconv Hfiles Htext Hpath
              Hffmpeg Hstart) as [Htidy Hv].
  destruct (start_conversion_started e w w1 Hconv Hstart Hconv1)
    as (Htotal & Hcompleted & _ & Hsame & _ & Hpos).
  destruct (start_conversion_accepted e w Hconv Hfiles Htext Hpath Hffmpeg)
    as (js & calls & Heq & _).
  assert (Hfailed : MW.failed_files w1 = []).
  { rewrite Heq in Hstart. inversion Hstart; subst. reflexivity. }
  destruct (exit_rows_spec exs w1 r Htidy Hv Hexits)
    as (w2 & -> & _ & Ht2 & Hc2 & Hf2 & Hdone & Hgoing).
  exists w2. split; [reflexivity|].
  rewrite Hcompleted in Hc2. rewrite Hfailed, Hsame in Hf2.
  cbn [map app] in Hf2. rewrite Htotal in Hdone, Hgoing.
  split; [rewrite Hc2; lia|]. split; [exact Hf2|]. split.
  - intros Hless. rewrite Hgoing; [exact Hconv1|]. lia.
  - intros Hall. apply Hdone; [|lia].
    intros ->. cbn [List.length] in Hall. lia.
Qed.

(** Two files, one job at a time: the first succeeds, the second fails. *)
Lemma batch_report_lists_the_failed_files_witness :
  exists w2 : MW.t,
    exit_rows [(0%nat, 0%Z, ""); (1%nat, 1%Z, "")]
      (Scenario.after 2
         [Scenario.choose ["a.wav"; "b.wav"];
          MW.start_clicked (Scenario.env_with [])]) = Some (Ok w2)
    /\ MW.failed_files w2 = ["b.wav"]
    /\ MW.is_converting w2 = false.
Proof.
  destruct (batch_report_lists_the_failed_files (Scenario.env_with [])
              (Scenario.after 2 [Scenario.choose ["a.wav"; "b.wav"]])
              (Scenario.after 2
                 [Scenario.choose ["a.wav"; "b.wav"];
                  MW.start_clicked (Scenario.env_with [])])
              [(0%nat, 0%Z, ""); (1%nat, 1%Z, "")]
              (match
                  exit_rows [(0%nat, 0%Z, ""); (1%nat, 1%Z, "")]
                    (Scenario.after 2
                       [Scenario.choose ["a.wav"; "b.wav"];
                        MW.start_clicked (Scenario.env_with [])])
                with
                | Some r => r
                | None => Raise ValueError
                end))
    as (w2 & Hr & _ & Hfailed & _ & Hdone).
  - reflexivity.
  - vm_compute. reflexivity.
  - reflexivity.
  - vm_compute. reflexivity.
  - exists w2. split.
    + rewrite <- Hr. vm_compute. reflexivity.
    + destruct (Hdone eq_refl) as [Hconv _]. split; [|exact Hconv].
      destruct (MW.failed_files w2) as [|f [|g l]];
        cbn in Hfailed; inversion Hfailed; reflexivity.
Defined.
